(** * Saarthi trading gateway: order sizing, execution and price cache

    A shallow embedding of the Python backend
    ([backend/routes/trading.py], [backend/routes/user_orders.py],
    [backend/services/exchange.py], [backend/services/price_broadcaster.py])
    and the properties its design document states about it, followed by
    further properties of the same modules that are read off the code.

    Conventions of the embedding.
    - A Python [float] is read as an exact rational ([Q]): binary64 rounding
      error, infinities and NaN are outside the model.  [math.floor],
      [int], [round] and the ["%.8f"] rendering are the exact operations.
    - Decoded JSON is the inductive [json]; a Python [dict] coming from JSON
      is an association list whose first binding of a key is the one read.
    - Module-level globals are the fields of a state record; every coroutine
      is a function in a state-and-exception monad.  Each awaited call to
      the outside (HTTP request, WebSocket send, sleep) is appended to the
      log [net_log] and answered by the oracle of the [World], so that
      "no request was sent" is a statement about the log.
    - Coroutines run to completion one after the other: interleavings of
      several requests at their await points are outside the model. *)

From Stdlib Require Import QArith Qround Qabs ZArith Lia Lqa Ascii String Sorted.
From stdpp Require Import gmap strings list fin_maps pretty.

Set Warnings "-register-all".
Open Scope Z_scope.

(** ** Python values and built-ins *)

Module Py.

(** A decoded JSON document, as [response.json()] returns it. *)
Inductive json : Type :=
| JNull
| JBool (b : bool)
| JNum (q : Q)
| JStr (s : string)
| JArr (l : list json)
| JObj (kv : list (string * json)).

(** Exceptions.  [except Exception] catches every exception but
    [CancelledError], which derives from [BaseException]. *)
Inductive exn : Type :=
| HTTPException (status_code : Z) (detail : string)
| CancelledError
| PyError (kind : string).

Definition is_Exception (e : exn) : bool :=
  match e with
  | CancelledError => false
  | _ => true
  end.

Inductive outcome (A : Type) : Type :=
| Ok (a : A)
| Raise (e : exn).
Arguments Ok {A} a.
Arguments Raise {A} e.

(** *** Numbers *)

Definition q_is_zero (q : Q) : bool := Qeq_bool q 0.
Definition q_ltb (a b : Q) : bool := match Qcompare a b with Lt => true | _ => false end.
Definition q_leb (a b : Q) : bool := match Qcompare a b with Gt => false | _ => true end.

(** [int(x)] for a float: truncation towards zero. *)
Definition py_int (q : Q) : Z := Z.quot (Qnum q) (Z.pos (Qden q)).

(** Round to the nearest integer, ties to the even one: [round(x)] and the
    rounding of a ["%.nf"] format. *)
Definition round_half_even (q : Q) : Z :=
  let f := Qfloor q in
  match Qcompare (q - inject_Z f) (1 # 2) with
  | Lt => f
  | Gt => f + 1
  | Eq => if Z.even f then f else f + 1
  end.

(** [float(f"{x:.nf}")] and [round(x, n)]: [x] at [n] fractional digits. *)
Definition round_digits (n : nat) (q : Q) : Q :=
  inject_Z (round_half_even (q * inject_Z (10 ^ Z.of_nat n))) / inject_Z (10 ^ Z.of_nat n).

(** [x % 1] for a float. *)
Definition q_frac (q : Q) : Q := q - inject_Z (Qfloor q).

(** *** Strings (ASCII) *)

Definition upper_ascii (c : ascii) : ascii :=
  let n := nat_of_ascii c in
  if (Nat.leb 97 n && Nat.leb n 122)%bool then ascii_of_nat (n - 32) else c.

Fixpoint upper (s : string) : string :=
  match s with
  | EmptyString => EmptyString
  | String c s' => String (upper_ascii c) (upper s')
  end.

(** [s.replace(old, new)] for a non-empty [old]: occurrences are replaced
    from left to right without overlap.  [skip] counts the characters of
    an occurrence that are still to be dropped. *)
Fixpoint replace_from (old new : string) (skip : nat) (s : string) : string :=
  match s with
  | EmptyString => EmptyString
  | String c s' =>
      match skip with
      | S k => replace_from old new k s'
      | O =>
          if String.prefix old s
          then new +:+ replace_from old new (String.length old - 1) s'
          else String c (replace_from old new 0 s')
      end
  end.

Definition replace (old new s : string) : string := replace_from old new 0 s.

(** [old in s] for strings. *)
Fixpoint contains (old s : string) : bool :=
  String.prefix old s ||
  match s with
  | EmptyString => false
  | String _ s' => contains old s'
  end.

Definition is_space (c : ascii) : bool :=
  let n := nat_of_ascii c in
  ((Nat.leb 9 n && Nat.leb n 13) || (Nat.leb 28 n && Nat.leb n 32))%bool.

Fixpoint lstrip (s : string) : string :=
  match s with
  | EmptyString => EmptyString
  | String c s' => if is_space c then lstrip s' else s
  end.

Fixpoint rstrip (s : string) : string :=
  match s with
  | EmptyString => EmptyString
  | String c s' =>
      match rstrip s' with
      | EmptyString => if is_space c then EmptyString else String c EmptyString
      | r => String c r
      end
  end.

Definition strip (s : string) : string := rstrip (lstrip s).

Fixpoint chars (s : string) : list string :=
  match s with
  | EmptyString => []
  | String c s' => String c EmptyString :: chars s'
  end.

Definition str_leb (a b : string) : bool := String.leb a b.

Fixpoint insert_sorted (x : string) (l : list string) : list string :=
  match l with
  | [] => [x]
  | y :: l' => if str_leb x y then x :: l else y :: insert_sorted x l'
  end.

(** [sorted(l)] for a list of strings. *)
Definition sorted (l : list string) : list string := foldr insert_sorted [] l.

(** *** Dynamic operations on decoded JSON *)

(** Truth value of a Python object. *)
Definition truthy (j : json) : bool :=
  match j with
  | JNull => false
  | JBool b => b
  | JNum q => negb (q_is_zero q)
  | JStr s => negb (String.eqb s "")
  | JArr l => match l with [] => false | _ => true end
  | JObj kv => match kv with [] => false | _ => true end
  end.

(** [x or y]. *)
Definition py_or (x y : json) : json := if truthy x then x else y.

Fixpoint assoc (k : string) (kv : list (string * json)) : option json :=
  match kv with
  | [] => None
  | (k', v) :: kv' => if String.eqb k k' then Some v else assoc k kv'
  end.

(** [d.get(k)] on a dict taken from JSON; [None] is [JNull]. *)
Definition dict_get (k : string) (kv : list (string * json)) : json :=
  match assoc k kv with
  | Some v => v
  | None => JNull
  end.

(** [x.get(k)]: only a dict has the method. *)
Definition py_get (k : string) (j : json) : outcome json :=
  match j with
  | JObj kv => Ok (dict_get k kv)
  | _ => Raise (PyError "AttributeError")
  end.

(** [x.upper()]: only a string has the method. *)
Definition py_upper (j : json) : outcome string :=
  match j with
  | JStr s => Ok (upper s)
  | _ => Raise (PyError "AttributeError")
  end.

(** [k in x]. *)
Definition py_in (k : string) (j : json) : outcome bool :=
  match j with
  | JObj kv => Ok (match assoc k kv with Some _ => true | None => false end)
  | JStr s => Ok (contains k s)
  | JArr l => Ok (existsb (fun x => match x with JStr s => String.eqb s k | _ => false end) l)
  | _ => Raise (PyError "TypeError")
  end.

(** [x[k]] with a string key. *)
Definition py_getitem (k : string) (j : json) : outcome json :=
  match j with
  | JObj kv => match assoc k kv with Some v => Ok v | None => Raise (PyError "KeyError") end
  | _ => Raise (PyError "TypeError")
  end.

(** [iter(x)]: the elements of a list, the keys of a dict, the characters
    of a string. *)
Definition py_iter (j : json) : outcome (list json) :=
  match j with
  | JArr l => Ok l
  | JObj kv => Ok (map (fun p => JStr (fst p)) kv)
  | JStr s => Ok (map JStr (chars s))
  | _ => Raise (PyError "TypeError")
  end.

(** *** The outside world

    Every awaited call is a [request]; the [World] answers the [n]-th call
    of a run.  Request headers (API key and HMAC signature) are computed
    from the body and carry no decision of their own: they are left out. *)

Inductive request : Type :=
| GET (url : string) (params : list (string * string)) (content : option json)
| POST (url : string) (data : json)
| WS_SEND (ws : nat) (message : json)
| SLEEP (seconds : Q).

Inductive response : Type :=
| Unreachable                  (* the call raises: timeout, reset, closed socket *)
| Cancel                       (* the task is cancelled while it waits here *)
| Reply (status_code : Z) (text : string) (body : option json).

Class World : Type := {
  (** answer to the [n]-th awaited call *)
  answer : nat -> request -> response;
  (** [float(s)] for a string; [None] is [ValueError] *)
  float_of_str : string -> option Q;
  (** [str(x)] for a decoded JSON value that is not a string *)
  str_of : json -> string;
  (** process environment *)
  COINDCX_API_KEY : option string;
  COINDCX_API_SECRET : option string;
  TICKER_REFRESH_INTERVAL : Q;
  POLL_INTERVAL : Q;
}.

(** Truth value of an environment variable read with [os.getenv]. *)
Definition env_set (v : option string) : bool :=
  match v with
  | Some s => negb (String.eqb s "")
  | None => false
  end.

Section WithWorld.
Context {W : World}.

(** [float(x)]. *)
Definition py_float (j : json) : outcome Q :=
  match j with
  | JNum q => Ok q
  | JBool b => Ok (if b then 1%Q else 0%Q)
  | JStr s =>
      match float_of_str s with
      | Some q => Ok q
      | None => Raise (PyError "ValueError")
      end
  | _ => Raise (PyError "TypeError")
  end.

(** [str(x)]. *)
Definition py_str (j : json) : string :=
  match j with
  | JStr s => s
  | _ => str_of j
  end.

End WithWorld.

(** *** Coroutines: state, clock, log and exceptions *)

(** The run-time state of a module: its globals, the clock read by
    [time.time()], and the awaited calls made so far, latest first. *)
Record rt (G : Type) : Type := Rt {
  globals : G;
  now : Q;
  net_log : list request;
}.
Arguments Rt {G} _ _ _.
Arguments globals {G} _.
Arguments now {G} _.
Arguments net_log {G} _.

Definition M (G A : Type) : Type := rt G -> outcome A * rt G.

Definition ret {G A} (a : A) : M G A := fun s => (Ok a, s).
Definition raise {G A} (e : exn) : M G A := fun s => (Raise e, s).
Definition bind {G A B} (m : M G A) (k : A -> M G B) : M G B :=
  fun s =>
    match m s with
    | (Ok a, s') => k a s'
    | (Raise e, s') => (Raise e, s')
    end.
Definition lift {G A} (o : outcome A) : M G A := fun s => (o, s).

#[global] Instance M_ret G : MRet (M G) := @ret G.
#[global] Instance M_bind G : MBind (M G) := fun A B k m => bind m k.

Definition outcome_bind {A B} (k : A -> outcome B) (o : outcome A) : outcome B :=
  match o with
  | Ok a => k a
  | Raise e => Raise e
  end.
#[global] Instance outcome_ret : MRet outcome := @Ok.
#[global] Instance outcome_mbind : MBind outcome := @outcome_bind.

(** [try: m except Exception as e: h e]. *)
Definition try_except {G A} (m : M G A) (h : exn -> M G A) : M G A :=
  fun s =>
    match m s with
    | (Raise e, s') => if is_Exception e then h e s' else (Raise e, s')
    | r => r
    end.

(** [try: m except asyncio.CancelledError: h]. *)
Definition try_cancelled {G A} (m : M G A) (h : M G A) : M G A :=
  fun s =>
    match m s with
    | (Raise CancelledError, s') => h s'
    | r => r
    end.

Definition get_globals {G} : M G G := fun s => (Ok (globals s), s).
Definition set_globals {G} (g : G) : M G unit :=
  fun s => (Ok tt, Rt g (now s) (net_log s)).
Definition time {G} : M G Q := fun s => (Ok (now s), s).

Section Await.
Context {W : World} {G : Type}.

(** One awaited call: logged, then answered by the world. *)
Definition perform (r : request) : M G response :=
  fun s => (Ok (answer (length (net_log s)) r), Rt (globals s) (now s) (r :: net_log s)).

(** [await asyncio.sleep(d)]. *)
Definition sleep (d : Q) : M G unit :=
  fun s =>
    match perform (SLEEP d) s with
    | (Ok Cancel, s') => (Raise CancelledError, s')
    | (_, s') => (Ok tt, Rt (globals s') (now s' + d)%Q (net_log s'))
    end.

Definition is_success (status : Z) : bool := (200 <=? status) && (status <? 300).

(** [r = await client.get(url, ...); r.raise_for_status(); r.json()]. *)
Definition httpx_get_json (url : string) (params : list (string * string))
    (content : option json) : M G json :=
  r ← perform (GET url params content);
  match r with
  | Unreachable => raise (PyError "RequestError")
  | Cancel => raise CancelledError
  | Reply status _ body =>
      if is_success status then
        match body with
        | Some j => mret j
        | None => raise (PyError "JSONDecodeError")
        end
      else raise (PyError "HTTPStatusError")
  end.

(** [await ws.send_text(...)] / [await ws.send_json(...)]. *)
Definition ws_send (ws : nat) (message : json) : M G unit :=
  r ← perform (WS_SEND ws message);
  match r with
  | Unreachable => raise (PyError "WebSocketDisconnect")
  | Cancel => raise CancelledError
  | Reply _ _ _ => mret tt
  end.

End Await.

End Py.

(** ** [backend/routes/trading.py] *)

Module Trading.
Import Py.

(** [OrderIn]: the request body of the order endpoints.  The [Field]
    constraints are checked by the framework before a handler runs and are
    collected in [valid_OrderIn]; [qty] carries none. *)
Record OrderIn : Type := {
  symbol : string;
  qty : Q;
  leverage : Z;
  side : string;
  order_type : string;
  limit_price : option Q;
  margin : option Q;
}.

Definition valid_OrderIn (o : OrderIn) : bool :=
  (1 <=? leverage o) && (leverage o <=? 100)
  && (String.eqb (side o) "BUY" || String.eqb (side o) "SELL")
  && (String.eqb (order_type o) "market" || String.eqb (order_type o) "limit").

(** A queued order: the dict [order.model_dump()] with the keys ["id"],
    ["local_id"] and, once an execution was attempted,
    ["last_client_order_id"]. *)
Record queued_order : Type := {
  data : OrderIn;
  id : Z;
  local_id : Z;
  last_client_order_id : option string;
}.

(** The module-level stores. *)
Record store : Type := {
  _ticker_cache : gmap string Q;
  _ticker_cache_updated_at : Q;
  _orders : list queued_order;
  _order_next_id : Z;
  _futures_wallets_cache : option (list json);
  _futures_wallets_cached_at : Q;
  _active_instruments_cache : gmap string (gset string);
  _active_instruments_cached_at : gmap string Q;
  _instrument_cache : gmap (string * string) (list (string * json));
  _instrument_cached_at : gmap (string * string) Q;
  WS_CONNECTIONS : gset nat;
  WS_SUBSCRIPTIONS : gmap nat (gset string);
}.

Definition set_ticker (c : gmap string Q) (t : Q) (g : store) : store :=
  {| _ticker_cache := c; _ticker_cache_updated_at := t;
     _orders := _orders g; _order_next_id := _order_next_id g;
     _futures_wallets_cache := _futures_wallets_cache g;
     _futures_wallets_cached_at := _futures_wallets_cached_at g;
     _active_instruments_cache := _active_instruments_cache g;
     _active_instruments_cached_at := _active_instruments_cached_at g;
     _instrument_cache := _instrument_cache g;
     _instrument_cached_at := _instrument_cached_at g;
     WS_CONNECTIONS := WS_CONNECTIONS g; WS_SUBSCRIPTIONS := WS_SUBSCRIPTIONS g |}.

Definition set_orders (l : list queued_order) (n : Z) (g : store) : store :=
  {| _ticker_cache := _ticker_cache g;
     _ticker_cache_updated_at := _ticker_cache_updated_at g;
     _orders := l; _order_next_id := n;
     _futures_wallets_cache := _futures_wallets_cache g;
     _futures_wallets_cached_at := _futures_wallets_cached_at g;
     _active_instruments_cache := _active_instruments_cache g;
     _active_instruments_cached_at := _active_instruments_cached_at g;
     _instrument_cache := _instrument_cache g;
     _instrument_cached_at := _instrument_cached_at g;
     WS_CONNECTIONS := WS_CONNECTIONS g; WS_SUBSCRIPTIONS := WS_SUBSCRIPTIONS g |}.

Definition set_wallets (c : option (list json)) (t : Q) (g : store) : store :=
  {| _ticker_cache := _ticker_cache g;
     _ticker_cache_updated_at := _ticker_cache_updated_at g;
     _orders := _orders g; _order_next_id := _order_next_id g;
     _futures_wallets_cache := c; _futures_wallets_cached_at := t;
     _active_instruments_cache := _active_instruments_cache g;
     _active_instruments_cached_at := _active_instruments_cached_at g;
     _instrument_cache := _instrument_cache g;
     _instrument_cached_at := _instrument_cached_at g;
     WS_CONNECTIONS := WS_CONNECTIONS g; WS_SUBSCRIPTIONS := WS_SUBSCRIPTIONS g |}.

Definition set_active (c : gmap string (gset string)) (t : gmap string Q)
    (g : store) : store :=
  {| _ticker_cache := _ticker_cache g;
     _ticker_cache_updated_at := _ticker_cache_updated_at g;
     _orders := _orders g; _order_next_id := _order_next_id g;
     _futures_wallets_cache := _futures_wallets_cache g;
     _futures_wallets_cached_at := _futures_wallets_cached_at g;
     _active_instruments_cache := c; _active_instruments_cached_at := t;
     _instrument_cache := _instrument_cache g;
     _instrument_cached_at := _instrument_cached_at g;
     WS_CONNECTIONS := WS_CONNECTIONS g; WS_SUBSCRIPTIONS := WS_SUBSCRIPTIONS g |}.

Definition set_instrument (c : gmap (string * string) (list (string * json)))
    (t : gmap (string * string) Q) (g : store) : store :=
  {| _ticker_cache := _ticker_cache g;
     _ticker_cache_updated_at := _ticker_cache_updated_at g;
     _orders := _orders g; _order_next_id := _order_next_id g;
     _futures_wallets_cache := _futures_wallets_cache g;
     _futures_wallets_cached_at := _futures_wallets_cached_at g;
     _active_instruments_cache := _active_instruments_cache g;
     _active_instruments_cached_at := _active_instruments_cached_at g;
     _instrument_cache := c; _instrument_cached_at := t;
     WS_CONNECTIONS := WS_CONNECTIONS g; WS_SUBSCRIPTIONS := WS_SUBSCRIPTIONS g |}.

Definition COINDCX_API : string := "https://api.coindcx.com".
Definition TICKER_ENDPOINT : string := "/exchange/ticker".
Definition COINDCX_ORDER_URL : string :=
  "https://api.coindcx.com/exchange/v1/derivatives/futures/orders/create".
Definition COINDCX_WALLETS_URL : string :=
  "https://api.coindcx.com/exchange/v1/derivatives/futures/wallets".
Definition COINDCX_ACTIVE_INSTRUMENTS_URL : string :=
  "https://api.coindcx.com/exchange/v1/derivatives/futures/data/active_instruments".
Definition COINDCX_INSTRUMENT_URL : string :=
  "https://api.coindcx.com/exchange/v1/derivatives/futures/data/instrument".

(** The stores as the module creates them at import. *)
Definition initial_store : store :=
  {| _ticker_cache := ∅; _ticker_cache_updated_at := 0;
     _orders := []; _order_next_id := 1;
     _futures_wallets_cache := None; _futures_wallets_cached_at := 0;
     _active_instruments_cache := ∅; _active_instruments_cached_at := ∅;
     _instrument_cache := ∅; _instrument_cached_at := ∅;
     WS_CONNECTIONS := ∅; WS_SUBSCRIPTIONS := ∅ |}.

(** The payloads posted to the order endpoint, latest first. *)
Definition order_posts (log : list request) : list json :=
  omap (fun r => match r with
                 | POST url data => if String.eqb url COINDCX_ORDER_URL then Some data else None
                 | _ => None
                 end) log.

(** The dict returned by [place_order_on_coindcx]: one constructor per
    [return], named after its ["error"] entry; [Sent] is the last
    [return], after the request to the exchange. *)
Inductive place_result : Type :=
| no_inr_futures_wallet
| instrument_not_active (pair symbol margin_currency : string)
    (known_instruments_sample : list string)
| trade_size_too_small_for_instrument (pair symbol : string)
    (min_quantity quantity_increment : Q)
| trade_size_too_large_for_instrument (pair symbol : string) (max_quantity : Q)
| estimated_margin_exceeds_balance (estimated_margin wallet_balance : Q)
| Sent (payload : json) (response_status : Z) (response_text : string).

(** The entries ["sent"], ["success"] and ["error"] of that dict. *)
Definition sent (r : place_result) : bool :=
  match r with
  | Sent _ _ _ => true
  | _ => false
  end.

Definition success (r : place_result) : bool :=
  match r with
  | Sent _ status _ => (status =? 200) || (status =? 201)
  | _ => false
  end.

Definition error (r : place_result) : option string :=
  match r with
  | no_inr_futures_wallet => Some "no_inr_futures_wallet"
  | instrument_not_active _ _ _ _ => Some "instrument_not_active"
  | trade_size_too_small_for_instrument _ _ _ _ => Some "trade_size_too_small_for_instrument"
  | trade_size_too_large_for_instrument _ _ _ => Some "trade_size_too_large_for_instrument"
  | estimated_margin_exceeds_balance _ _ => Some "estimated_margin_exceeds_balance"
  | Sent _ _ _ => None
  end.

(** The local variables of [place_order_on_coindcx], under their names. *)
Module L.

(** Lines 539-555 and 600-608: what is read from the order and the clock. *)
Record head : Type := {
  symbol : string;
  price : Q;
  pair : string;
  side : string;
  api_order_type : string;
  timestamp_ms : Z;
  margin_ccy : string;
  client_order_id : string;
  leverage : Z;
  trade_size_in_inr : Q;
}.

(** Lines 593-598: what is read from the instrument details. *)
Record instrument : Type := {
  unit_contract_value : Q;
  quantity_increment : Q;
  min_quantity : Q;
  max_quantity : Q;
  max_lev_long : Q;
  max_lev_short : Q;
}.

(** Everything the arithmetic of lines 612-688 reads. *)
Record sizing_inputs : Type := {
  hd : head;
  wallet_balance : Q;
  inst : instrument;
  usdt_inr_rate : Q;
}.

End L.

Section WithWorld.
Context {W : World}.

Local Abbreviation Co := (M store).

(** *** Ticker logic *)

Definition _fetch_all_tickers : Co json :=
  httpx_get_json (COINDCX_API +:+ TICKER_ENDPOINT) [] None.

(** First key of [ks] bound in [item] to a string: that string, upper-cased. *)
Fixpoint first_str_upper (ks : list string) (item : list (string * json)) : option string :=
  match ks with
  | [] => None
  | k :: ks' =>
      match assoc k item with
      | Some (JStr val) => Some (upper val)
      | _ => first_str_upper ks' item
      end
  end.

(** First key of [ks] bound in [t]: [str] of its value, upper-cased. *)
Fixpoint first_present_upper (ks : list string) (t : list (string * json)) : option string :=
  match ks with
  | [] => None
  | k :: ks' =>
      match assoc k t with
      | Some v => Some (upper (py_str v))
      | None => first_present_upper ks' t
      end
  end.

Definition _guess_symbol_from_item (item : list (string * json)) : option string :=
  match first_str_upper ["market"; "symbol"; "pair"; "market_symbol"] item with
  | Some s => Some s
  | None =>
      match assoc "ticker" item with
      | Some (JObj t) => first_present_upper ["symbol"; "pair"] t
      | _ => None
      end
  end.

(** First key of [ks] bound in [item] to a value [float] accepts. *)
Fixpoint first_float (ks : list string) (item : list (string * json)) : option Q :=
  match ks with
  | [] => None
  | k :: ks' =>
      match assoc k item with
      | Some v =>
          match py_float v with
          | Ok q => Some q
          | Raise _ => first_float ks' item
          end
      | None => first_float ks' item
      end
  end.

Definition _guess_last_from_item (item : list (string * json)) : option Q :=
  match first_float ["last"; "last_price"; "price"; "close"] item with
  | Some q => Some q
  | None =>
      match dict_get "ticker" item with
      | JObj t => first_float ["last"; "last_price"; "close"; "price"] t
      | _ => None
      end
  end.

(** The loop of [refresh_ticker_cache] that fills [new_cache]. *)
Definition new_cache_step (new_cache : gmap string Q) (item : json) : gmap string Q :=
  match item with
  | JObj kv =>
      match _guess_symbol_from_item kv, _guess_last_from_item kv with
      | Some sym, Some last =>
          if String.eqb sym "" then new_cache else <[sym := last]> new_cache
      | _, _ => new_cache
      end
  | _ => new_cache
  end.

Definition new_cache_of (data : json) : gmap string Q :=
  foldl new_cache_step ∅ (match data with JArr l => l | _ => [] end).

Definition dict_nonempty {K} `{Countable K} {A} (m : gmap K A) : bool :=
  match map_to_list m with
  | [] => false
  | _ => true
  end.

(** The function the source defines as [refresh_ticker_cache] (line 140)
    and keeps under the name [_original_refresh] (line 771). *)
Definition _original_refresh : Co unit :=
  try_except
    (data ← _fetch_all_tickers;
     let new_cache := new_cache_of data in
     if dict_nonempty new_cache then
       t ← time;
       g ← get_globals;
       set_globals (set_ticker new_cache t g)
     else mret tt)
    (fun _ => mret tt).

(** *** WebSocket price push *)

Definition price_message (s : string) (price ts : Q) : json :=
  JObj [("type", JStr "price");
        ("data", JObj [("symbol", JStr s); ("price", JNum price); ("ts", JNum ts)])].

Fixpoint push_symbols (ws : nat) (subs : list string) : Co unit :=
  match subs with
  | [] => mret tt
  | s :: subs' =>
      g ← get_globals;
      match _ticker_cache g !! s with
      | Some price =>
          t ← time;
          ws_send ws (price_message s price t);;
          push_symbols ws subs'
      | None => push_symbols ws subs'
      end
  end.

Fixpoint push_connections (conns : list nat) : Co unit :=
  match conns with
  | [] => mret tt
  | ws :: conns' =>
      g ← get_globals;
      push_symbols ws (elements (default ∅ (WS_SUBSCRIPTIONS g !! ws)));;
      push_connections conns'
  end.

Definition _broadcast_price_updates : Co unit :=
  g ← get_globals;
  match elements (WS_CONNECTIONS g) with
  | [] => mret tt
  | conns => push_connections conns
  end.

Definition refresh_ticker_cache_and_broadcast : Co unit :=
  _original_refresh;;
  _broadcast_price_updates.

(** Line 777 rebinds the global name: from then on every caller of
    [refresh_ticker_cache] runs the refresh followed by the broadcast. *)
Definition refresh_ticker_cache : Co unit := refresh_ticker_cache_and_broadcast.

(** How the background task ends, or that it is still looping when the
    observation stops. *)
Inductive loop_end : Type :=
| Returned
| Looping.

(** [while True: await refresh_ticker_cache(); await asyncio.sleep(...)],
    observed for [n] iterations. *)
Fixpoint ticker_cycles (n : nat) : Co loop_end :=
  match n with
  | O => mret Looping
  | S n' =>
      refresh_ticker_cache;;
      sleep TICKER_REFRESH_INTERVAL;;
      ticker_cycles n'
  end.

Definition ticker_background_loop (n : nat) : Co loop_end :=
  try_cancelled (ticker_cycles n) (mret Returned).

(** *** Futures wallets *)

Definition _fetch_futures_wallets : Co json :=
  if env_set COINDCX_API_KEY && env_set COINDCX_API_SECRET then
    t ← time;
    let timestamp_ms := round_half_even (t * 1000) in
    let body := JObj [("timestamp", JNum (inject_Z timestamp_ms))] in
    data ← httpx_get_json COINDCX_WALLETS_URL [] (Some body);
    t' ← time;
    g ← get_globals;
    set_globals
      (set_wallets (Some (match data with JArr l => l | _ => [data] end)) t' g);;
    mret data
  else mret JNull.

(** [not _futures_wallets_cache]. *)
Definition wallets_missing (c : option (list json)) : bool :=
  match c with
  | Some (_ :: _) => false
  | _ => true
  end.

(** [for w in wallets: if (w.get("currency_short_name") or "").upper() == cur: return w]. *)
Fixpoint find_wallet (cur : string) (wallets : list json) : outcome (option json) :=
  match wallets with
  | [] => Ok None
  | w :: wallets' =>
      c ← py_get "currency_short_name" w;
      u ← py_upper (py_or c (JStr ""));
      if String.eqb u cur then Ok (Some w) else find_wallet cur wallets'
  end.

Definition _get_inr_futures_wallet : Co (option json) :=
  g ← get_globals;
  t ← time;
  (if wallets_missing (_futures_wallets_cache g)
      || q_ltb 30 (t - _futures_wallets_cached_at g)
   then _fetch_futures_wallets;; mret tt
   else mret tt);;
  g ← get_globals;
  lift (find_wallet "INR" (default [] (_futures_wallets_cache g))).

(** *** Active instruments *)

Definition _fetch_active_instruments (margin_currency : string) : Co (gset string) :=
  let mc := upper margin_currency in
  data ← httpx_get_json COINDCX_ACTIVE_INSTRUMENTS_URL
           [("margin_currency_short_name[]", mc)] None;
  xs ← lift (py_iter (py_or data (JArr [])));
  let instruments : gset string := list_to_set (map py_str xs) in
  t ← time;
  g ← get_globals;
  set_globals
    (set_active (<[mc := instruments]> (_active_instruments_cache g))
                (<[mc := t]> (_active_instruments_cached_at g)) g);;
  mret instruments.

(** [not instruments] for the result of [dict.get]. *)
Definition set_missing (s : option (gset string)) : bool :=
  match s with
  | Some x => match elements x with [] => true | _ => false end
  | None => true
  end.

Definition get_active_instruments (margin_currency : string) : Co (gset string) :=
  let mc := upper margin_currency in
  t ← time;
  g ← get_globals;
  let instruments := _active_instruments_cache g !! mc in
  let ts := default 0%Q (_active_instruments_cached_at g !! mc) in
  if set_missing instruments || q_ltb 60 (t - ts) then
    try_except
      (_fetch_active_instruments mc)
      (fun _ => g' ← get_globals;
                mret (default ∅ (_active_instruments_cache g' !! mc)))
  else mret (default ∅ instruments).

(** *** Instrument details *)

Definition _fetch_instrument_details (pair margin_currency : string)
    : Co (list (string * json)) :=
  let mc := upper margin_currency in
  let key := (pair, mc) in
  data ← httpx_get_json COINDCX_INSTRUMENT_URL
           [("pair", pair); ("margin_currency_short_name", mc)] None;
  let inst := match data with JObj kv => dict_get "instrument" kv | _ => data end in
  let inst := match inst with JObj kv => kv | _ => [] end in
  t ← time;
  g ← get_globals;
  set_globals
    (set_instrument (<[key := inst]> (_instrument_cache g))
                    (<[key := t]> (_instrument_cached_at g)) g);;
  mret inst.

(** [not inst] for the result of [dict.get]. *)
Definition dict_missing (d : option (list (string * json))) : bool :=
  match d with
  | Some (_ :: _) => false
  | _ => true
  end.

Definition get_instrument_details (pair margin_currency : string)
    : Co (list (string * json)) :=
  let mc := upper margin_currency in
  let key := (pair, mc) in
  t ← time;
  g ← get_globals;
  let inst := _instrument_cache g !! key in
  let ts := default 0%Q (_instrument_cached_at g !! key) in
  if dict_missing inst || q_ltb 60 (t - ts) then
    try_except
      (_fetch_instrument_details pair mc)
      (fun _ => g' ← get_globals;
                mret (default [] (_instrument_cache g' !! key)))
  else mret (default [] inst).

(** *** USDT/INR rate *)

(** [not rate] for the result of [dict.get]. *)
Definition rate_missing (r : option Q) : bool :=
  match r with
  | Some q => q_is_zero q
  | None => true
  end.

Definition _get_usdt_inr_rate : Co Q :=
  let symbol := "USDTINR" in
  g ← get_globals;
  t ← time;
  (if negb (bool_decide (is_Some (_ticker_cache g !! symbol)))
      || q_ltb 30 (t - _ticker_cache_updated_at g)
   then refresh_ticker_cache
   else mret tt);;
  g ← get_globals;
  let rate := _ticker_cache g !! symbol in
  if rate_missing rate then mret 90%Q else mret (default 90%Q rate).

(** *** Futures order execution *)

Definition set_last_client_order_id (cid : string) (o : queued_order) : queued_order :=
  {| data := data o; id := id o; local_id := local_id o;
     last_client_order_id := Some cid |}.

(** [x or y] where [x] is an optional float. *)
Definition opt_or (x y : option Q) : option Q :=
  match x with
  | Some q => if q_is_zero q then y else x
  | None => y
  end.

(** Lines 539-555 (and the reads of lines 600 and 608).  The argument
    [order] of the source is a reference to an element of [_orders]:
    [ref] is its position, and the assignment to
    [order["last_client_order_id"]] is an update of the queue. *)
Definition order_head (ref : nat) : Co L.head :=
  g ← get_globals;
  match _orders g !! ref with
  | None => raise (PyError "ReferenceError")
  | Some order =>
      let symbol := upper (symbol (data order)) in
      let price := opt_or (limit_price (data order)) (_ticker_cache g !! symbol) in
      match price with
      | None =>
          raise (HTTPException 400 ("No price available for " +:+ symbol))
      | Some price =>
          if q_is_zero price then
            raise (HTTPException 400 ("No price available for " +:+ symbol))
          else
          let base := replace "USD" "" (replace "INR" "" (replace "USDT" "" symbol)) in
          let pair := "B-" +:+ base +:+ "_USDT" in
          let side := if String.eqb (side (data order)) "BUY" then "buy" else "sell" in
          let api_order_type :=
            if String.eqb (order_type (data order)) "limit"
            then "limit_order" else "market_order" in
          t ← time;
          let timestamp_ms := py_int (t * 1000) in
          let base_local :=
            if negb (local_id order =? 0) then pretty (local_id order)
            else if negb (id order =? 0) then pretty (id order)
            else "local" in
          let client_order_id := base_local +:+ "-" +:+ pretty timestamp_ms in
          set_globals
            (set_orders
               (<[ref := set_last_client_order_id client_order_id order]> (_orders g))
               (_order_next_id g) g);;
          mret {| L.symbol := symbol; L.price := price; L.pair := pair;
                  L.side := side; L.api_order_type := api_order_type;
                  L.timestamp_ms := timestamp_ms; L.margin_ccy := "INR";
                  L.client_order_id := client_order_id;
                  L.leverage := if leverage (data order) =? 0 then 1
                                else leverage (data order);
                  L.trade_size_in_inr := qty (data order) |}
      end
  end.

(** Lines 557-572: the INR wallet and its balance; [None] when there is
    no such wallet. *)
Definition wallet_step : Co (option Q) :=
  inr_wallet ← _get_inr_futures_wallet;
  match inr_wallet with
  | Some w =>
      if truthy w then
        b ← lift (bal ← py_get "balance" w; py_float (py_or bal (JNum 0)));
        mret (Some b)
      else mret None
  | None => mret None
  end.

(** Lines 593-598. *)
Definition read_instrument (inst : list (string * json)) : outcome L.instrument :=
  unit_contract_value ← py_float (py_or (dict_get "unit_contract_value" inst) (JNum 1));
  quantity_increment ← py_float (py_or (dict_get "quantity_increment" inst) (JNum 1));
  min_quantity ← py_float (py_or (dict_get "min_quantity" inst) (JNum quantity_increment));
  max_quantity ← py_float (py_or (dict_get "max_quantity" inst) (JNum (inject_Z (10 ^ 18))));
  max_lev_long ← py_float (py_or (dict_get "max_leverage_long" inst) (JNum 0));
  max_lev_short ← py_float (py_or (dict_get "max_leverage_short" inst) (JNum max_lev_long));
  Ok {| L.unit_contract_value := unit_contract_value;
        L.quantity_increment := quantity_increment;
        L.min_quantity := min_quantity;
        L.max_quantity := max_quantity;
        L.max_lev_long := max_lev_long;
        L.max_lev_short := max_lev_short |}.

(** Lines 539-610: everything that is fetched before the arithmetic, or
    the dict of an early [return]. *)
Definition gather (ref : nat) : Co (place_result + L.sizing_inputs) :=
  h ← order_head ref;
  wb ← wallet_step;
  match wb with
  | None => mret (inl no_inr_futures_wallet)
  | Some wallet_balance =>
      active_instruments ← get_active_instruments (L.margin_ccy h);
      if negb (bool_decide (L.pair h ∈ active_instruments)) then
        let sample := take 30 (sorted (elements active_instruments)) in
        mret (inl (instrument_not_active (L.pair h) (L.symbol h) (L.margin_ccy h) sample))
      else
        inst ← get_instrument_details (L.pair h) (L.margin_ccy h);
        figures ← lift (read_instrument inst);
        usdt_inr_rate ← _get_usdt_inr_rate;
        mret (inr {| L.hd := h; L.wallet_balance := wallet_balance;
                     L.inst := figures; L.usdt_inr_rate := usdt_inr_rate |})
  end.

(** Float division. *)
Definition div (a b : Q) : outcome Q :=
  if q_is_zero b then Raise (PyError "ZeroDivisionError") else Ok (a / b)%Q.

(** Line 616: [math.floor(contracts_raw / quantity_increment) * quantity_increment]. *)
Definition contracts_step_of (i : L.sizing_inputs) : outcome Q :=
  let inr_per_contract :=
    (L.price (L.hd i) * L.unit_contract_value (L.inst i) * L.usdt_inr_rate i)%Q in
  contracts_raw ← div (L.trade_size_in_inr (L.hd i)) inr_per_contract;
  steps ← div contracts_raw (L.quantity_increment (L.inst i));
  Ok (inject_Z (Qfloor steps) * L.quantity_increment (L.inst i))%Q.

(** Lines 647-652. *)
Definition total_quantity_of (contracts_step : Q) : Q := round_digits 8 contracts_step.

Definition estimated_margin_of (i : L.sizing_inputs) (total_quantity : Q) : Q :=
  let notional_usdt :=
    (L.price (L.hd i) * L.unit_contract_value (L.inst i) * total_quantity)%Q in
  let notional_inr := (notional_usdt * L.usdt_inr_rate i)%Q in
  if 0 <? L.leverage (L.hd i)
  then (notional_inr / inject_Z (L.leverage (L.hd i)))%Q
  else notional_inr.

(** Lines 612-688, the order sizing: a rejection, or the finalized
    [total_quantity]. *)
Definition size_order (i : L.sizing_inputs) : outcome (place_result + Q) :=
  contracts_step ← contracts_step_of i;
  if q_ltb contracts_step (L.min_quantity (L.inst i)) then
    Ok (inl (trade_size_too_small_for_instrument (L.pair (L.hd i)) (L.symbol (L.hd i))
               (L.min_quantity (L.inst i)) (L.quantity_increment (L.inst i))))
  else if q_ltb (L.max_quantity (L.inst i)) contracts_step then
    Ok (inl (trade_size_too_large_for_instrument (L.pair (L.hd i)) (L.symbol (L.hd i))
               (L.max_quantity (L.inst i))))
  else
    let total_quantity := total_quantity_of contracts_step in
    let estimated_margin := estimated_margin_of i total_quantity in
    if q_ltb (L.wallet_balance i) estimated_margin then
      Ok (inl (estimated_margin_exceeds_balance estimated_margin (L.wallet_balance i)))
    else Ok (inr total_quantity).

(** Lines 690-703. *)
Definition order_payload (h : L.head) (total_quantity : Q) : json :=
  JObj [("timestamp", JNum (inject_Z (L.timestamp_ms h)));
        ("order", JObj [("pair", JStr (L.pair h));
                        ("side", JStr (L.side h));
                        ("order_type", JStr (L.api_order_type h));
                        ("price", JNum (L.price h));
                        ("total_quantity", JNum total_quantity);
                        ("leverage", JNum (inject_Z (L.leverage h)));
                        ("time_in_force", JStr "good_till_cancel");
                        ("margin_currency_short_name", JStr (L.margin_ccy h));
                        ("client_order_id", JStr (L.client_order_id h))])].

(** Lines 705-729: sign and send.  [COINDCX_API_SECRET.encode()] fails when
    the secret is not configured. *)
Definition submit (h : L.head) (total_quantity : Q) : Co place_result :=
  let payload := order_payload h total_quantity in
  match COINDCX_API_SECRET with
  | None => raise (PyError "AttributeError")
  | Some _ =>
      r ← perform (POST COINDCX_ORDER_URL payload);
      match r with
      | Unreachable => raise (PyError "RequestError")
      | Cancel => raise CancelledError
      | Reply status_code text _ => mret (Sent payload status_code text)
      end
  end.

(** Lines 612-729: the arithmetic, then the request if nothing rejects. *)
Definition size_and_submit (i : L.sizing_inputs) : Co place_result :=
  match size_order i with
  | Raise e => raise e
  | Ok (inl rejected) => mret rejected
  | Ok (inr total_quantity) => submit (L.hd i) total_quantity
  end.

Definition place_order_on_coindcx (ref : nat) : Co place_result :=
  x ← gather ref;
  match x with
  | inl rejected => mret rejected
  | inr i => size_and_submit i
  end.

(** *** HTTP endpoints *)

Record price_reply : Type := {
  reply_symbol : string;
  reply_price : Q;
  reply_source : string;
  reply_ts : Q;
}.

Definition get_price_http (symbol : string) : Co price_reply :=
  let sym := upper symbol in
  g ← get_globals;
  (match _ticker_cache g !! sym with
   | None =>
       refresh_ticker_cache;;
       g' ← get_globals;
       match _ticker_cache g' !! sym with
       | None => raise (HTTPException 404 "Symbol not found")
       | Some _ => mret tt
       end
   | Some _ => mret tt
   end);;
  g ← get_globals;
  match _ticker_cache g !! sym with
  | Some price =>
      mret {| reply_symbol := sym; reply_price := price; reply_source := "cache";
              reply_ts := _ticker_cache_updated_at g |}
  | None => raise (PyError "KeyError")
  end.

Definition new_order (o : OrderIn) (n : Z) : queued_order :=
  {| data := o; id := n; local_id := n; last_client_order_id := None |}.

Definition add_order (order : OrderIn) : Co queued_order :=
  if String.eqb (symbol order) "" || q_leb (qty order) 0 then
    raise (HTTPException 400 "Invalid order data")
  else
    g ← get_globals;
    let o := new_order order (_order_next_id g) in
    set_globals (set_orders (_orders g ++ [o]) (_order_next_id g + 1) g);;
    mret o.

Fixpoint add_orders_bulk_loop (orders : list OrderIn) (created : list queued_order)
    : Co (list queued_order) :=
  match orders with
  | [] => mret created
  | order :: orders' =>
      g ← get_globals;
      let o := new_order order (_order_next_id g) in
      set_globals (set_orders (_orders g ++ [o]) (_order_next_id g + 1) g);;
      add_orders_bulk_loop orders' (created ++ [o])
  end.

(** [payload.orders] is the argument; [min_items=1] is checked before. *)
Definition add_orders_bulk (orders : list OrderIn) : Co (list queued_order) :=
  add_orders_bulk_loop orders [].

Definition list_orders : Co (list queued_order) :=
  g ← get_globals;
  mret (_orders g).

(** *** Order execution *)

Record debug_entry : Type := {
  debug_local_id : Z;
  debug_symbol : string;
  debug_result : place_result;
}.

(** The four lists [execute_orders] fills.  [executed] holds references
    to the queued dicts ([executed.append(found)]), here positions in
    [_orders]. *)
Record buckets : Type := {
  executed_refs : list nat;
  failed_ids : list Z;
  not_found_ids : list Z;
  debug_trace : list debug_entry;
}.

Record batch_result : Type := {
  executed : list queued_order;
  failed : list Z;
  not_found : list Z;
  debug : list debug_entry;
}.

(** [id_map.get(oid)] for [id_map = {o["id"]: o for o in _orders}]: the
    position, counted from [i], of the last order with that id. *)
Fixpoint id_map_get (oid : Z) (i : nat) (orders : list queued_order) : option nat :=
  match orders with
  | [] => None
  | o :: orders' =>
      match id_map_get oid (S i) orders' with
      | Some j => Some j
      | None => if id o =? oid then Some i else None
      end
  end.

Fixpoint execute_loop (id_map : Z -> option nat) (ids : list Z) (b : buckets)
    : Co buckets :=
  match ids with
  | [] => mret b
  | oid :: ids' =>
      match id_map oid with
      | None =>
          execute_loop id_map ids'
            {| executed_refs := executed_refs b; failed_ids := failed_ids b;
               not_found_ids := not_found_ids b ++ [oid];
               debug_trace := debug_trace b |}
      | Some found =>
          result ← place_order_on_coindcx found;
          g ← get_globals;
          let sym := default "" ((fun o => symbol (data o)) <$> _orders g !! found) in
          let d := debug_trace b ++
                   [{| debug_local_id := oid; debug_symbol := sym;
                       debug_result := result |}] in
          if success result then
            execute_loop id_map ids'
              {| executed_refs := executed_refs b ++ [found];
                 failed_ids := failed_ids b;
                 not_found_ids := not_found_ids b; debug_trace := d |}
          else
            execute_loop id_map ids'
              {| executed_refs := executed_refs b; failed_ids := failed_ids b ++ [oid];
                 not_found_ids := not_found_ids b; debug_trace := d |}
      end
  end.

(** [payload.ids] is the argument; [min_items=1] is checked before. *)
Definition execute_orders (ids : list Z) : Co batch_result :=
  g0 ← get_globals;
  let id_map := fun oid => id_map_get oid 0 (_orders g0) in
  b ← execute_loop id_map ids
        {| executed_refs := []; failed_ids := []; not_found_ids := [];
           debug_trace := [] |};
  g ← get_globals;
  let executed := omap (fun ref => _orders g !! ref) (executed_refs b) in
  (match executed with
   | [] => mret tt
   | _ =>
       let executed_ids := id <$> executed in
       set_globals
         (set_orders
            (filter (fun o => id o ∉ executed_ids) (_orders g))
            (_order_next_id g) g)
   end);;
  mret {| executed := executed; failed := failed_ids b;
          not_found := not_found_ids b; debug := debug_trace b |}.

End WithWorld.
End Trading.

(** ** [backend/services/price_broadcaster.py] *)

Module Broadcaster.
Import Py.

(** The attributes of the [PriceBroadcaster] instance. *)
Record PriceBroadcaster : Type := {
  tickers : gmap string Q;
  symbols_cache : list string;
  _running : bool;
  _subscriptions : gmap nat (gset string);
}.

Definition set_tickers (t : gmap string Q) (s : list string) (b : PriceBroadcaster)
    : PriceBroadcaster :=
  {| tickers := t; symbols_cache := s; _running := _running b;
     _subscriptions := _subscriptions b |}.

Definition set_subscriptions (m : gmap nat (gset string)) (b : PriceBroadcaster)
    : PriceBroadcaster :=
  {| tickers := tickers b; symbols_cache := symbols_cache b; _running := _running b;
     _subscriptions := m |}.

Definition COINDCX_PUBLIC_URL : string := "https://api.coindcx.com".

Section WithWorld.
Context {W : World}.

Local Abbreviation Co := (M PriceBroadcaster).

(** [float(lp)], and on failure [float(str(lp).replace(",", ""))]. *)
Definition price_val_of (lp : json) : outcome Q :=
  match py_float lp with
  | Ok q => Ok q
  | Raise _ => py_float (JStr (replace "," "" (py_str lp)))
  end.

(** The [for item in data] loop of [_poll_loop]. *)
Fixpoint parse_items (items : list json) (new_tickers : gmap string Q)
    (symbols : list string) : outcome (gmap string Q * list string) :=
  match items with
  | [] => Ok (new_tickers, symbols)
  | item :: items' =>
      m ← py_get "market" item;
      lp ← py_get "last_price" item;
      if truthy m && negb (match lp with JNull => true | _ => false end) then
        sym ← py_upper m;
        price_val ← price_val_of lp;
        parse_items items' (<[sym := price_val]> new_tickers) (symbols ++ [sym])
      else parse_items items' new_tickers symbols
  end.

Fixpoint send_subscribed (ws : nat) (subs : list string) : Co unit :=
  match subs with
  | [] => mret tt
  | sym :: subs' =>
      b ← get_globals;
      match tickers b !! sym with
      | Some price =>
          ws_send ws (JObj [("symbol", JStr sym); ("price", JNum price)]);;
          send_subscribed ws subs'
      | None => send_subscribed ws subs'
      end
  end.

Fixpoint push_each (conns : list (nat * gset string)) (to_remove : list nat)
    : Co (list nat) :=
  match conns with
  | [] => mret to_remove
  | (ws, subs) :: conns' =>
      failed ← try_except (send_subscribed ws (elements subs);; mret false)
                          (fun _ => mret true);
      push_each conns' (if failed : bool then to_remove ++ [ws] else to_remove)
  end.

Definition _push_updates : Co unit :=
  b ← get_globals;
  to_remove ← push_each (map_to_list (_subscriptions b)) [];
  b ← get_globals;
  set_globals (set_subscriptions (foldl (fun m ws => delete ws m) (_subscriptions b) to_remove) b).

(** The [try] block of one cycle of [_poll_loop]. *)
Definition poll_once : Co unit :=
  try_except
    (data ← httpx_get_json (COINDCX_PUBLIC_URL +:+ "/exchange/ticker") [] None;
     items ← lift (py_iter data);
     parsed ← lift (parse_items items ∅ []);
     b ← get_globals;
     set_globals (set_tickers (fst parsed) (snd parsed) b);;
     _push_updates)
    (fun _ => mret tt).

Inductive loop_end : Type :=
| Returned
| Looping.

(** [while self._running: ...], observed for [n] iterations. *)
Fixpoint _poll_loop (n : nat) : Co loop_end :=
  match n with
  | O => mret Looping
  | S n' =>
      b ← get_globals;
      if _running b then
        poll_once;;
        cancelled ← try_cancelled (sleep POLL_INTERVAL;; mret false) (mret true);
        if cancelled : bool then mret Returned else _poll_loop n'
      else mret Returned
  end.

End WithWorld.
End Broadcaster.

(** ** [backend/services/exchange.py] *)

Module ExchangeSvc.
Import Py.

Record entry : Type := {
  price : Q;
  ts : Q;
  source : string;
}.

(** The attributes of an [ExchangeService] instance. *)
Record ExchangeService : Type := {
  base_url : string;
  _cache : gmap string entry;
  _cache_ttl : Q;
}.

(** The dict [get_price] returns. *)
Record quote : Type := {
  quote_symbol : string;
  quote_price : Q;
  quote_source : string;
  quote_ts : Z;
}.

Section WithWorld.
Context {W : World}.

Local Abbreviation Co := (M ExchangeService).

Definition _normalize (symbol : string) : string := upper (strip symbol).

Definition _get_cached (key : string) : Co (option entry) :=
  self ← get_globals;
  t ← time;
  match _cache self !! key with
  | None => mret None
  | Some ent => if q_leb (t - ts ent) (_cache_ttl self) then mret (Some ent) else mret None
  end.

Definition _set_cache (key : string) (price : Q) (source : string) : Co unit :=
  self ← get_globals;
  t ← time;
  set_globals {| base_url := base_url self;
                 _cache := <[key := {| price := price; ts := t; source := source |}]> (_cache self);
                 _cache_ttl := _cache_ttl self |}.

(** [r = requests.get(url, timeout=6)]: [None] when [not r.ok], else the
    decoded body if there is one. *)
Definition requests_get (url : string) : Co (option (option json)) :=
  r ← perform (GET url [] None);
  match r with
  | Reply status _ body => mret (if status <? 400 then Some body else None)
  | _ => raise (PyError "RequestException")
  end.

(** [r.json()]. *)
Definition json_of (body : option json) : outcome json :=
  match body with
  | Some j => Ok j
  | None => Raise (PyError "JSONDecodeError")
  end.

Definition is_None (j : json) : bool := match j with JNull => true | _ => false end.

(** [for pk in pks: if pk in item and item.get(pk) is not None: try float ...]
    on a dict. *)
Fixpoint first_price (pks : list string) (item : list (string * json)) : option Q :=
  match pks with
  | [] => None
  | pk :: pks' =>
      match assoc pk item with
      | Some v =>
          if is_None v then first_price pks' item
          else match py_float v with
               | Ok q => Some q
               | Raise _ => first_price pks' item
               end
      | None => first_price pks' item
      end
  end.

(** The same loop on a value that need not be a dict: [pk in first] and
    [first[pk]] may raise. *)
Fixpoint first_price_dyn (pks : list string) (first : json) : outcome (option Q) :=
  match pks with
  | [] => Ok None
  | pk :: pks' =>
      present ← py_in pk first;
      if present : bool then
        v ← py_getitem pk first;
        if is_None v then first_price_dyn pks' first
        else match py_float v with
             | Ok q => Ok (Some q)
             | Raise _ => first_price_dyn pks' first
             end
      else first_price_dyn pks' first
  end.

Definition squash (s : string) : string := replace "-" "" (replace "_" "" s).

Fixpoint scan_fields (pfs : list string) (searchkey : string)
    (item : list (string * json)) : option Q :=
  match pfs with
  | [] => None
  | pf :: pfs' =>
      match assoc pf item with
      | Some (JStr pv) =>
          if String.eqb (squash (upper pv)) searchkey then
            match first_price ["last_price"; "price"; "last"; "close"] item with
            | Some q => Some q
            | None => scan_fields pfs' searchkey item
            end
          else scan_fields pfs' searchkey item
      | _ => scan_fields pfs' searchkey item
      end
  end.

Fixpoint scan_items (searchkey : string) (data : list json) : option Q :=
  match data with
  | [] => None
  | JObj item :: data' =>
      match scan_fields ["market"; "pair"; "symbol"; "s"] searchkey item with
      | Some q => Some q
      | None => scan_items searchkey data'
      end
  | _ :: data' => scan_items searchkey data'
  end.

(** The [# try bulk] block: the price it returns with, if it does. *)
Definition try_bulk (key : string) : Co (option Q) :=
  try_except
    (self ← get_globals;
     r ← requests_get (base_url self +:+ "/exchange/ticker");
     match r with
     | Some body =>
         data ← lift (json_of body);
         match data with
         | JArr l => mret (scan_items (squash key) l)
         | _ => mret None
         end
     | None => mret None
     end)
    (fun _ => mret None).

(** The price one candidate endpoint yields. *)
Definition price_of_payload (payload : json) : outcome (option Q) :=
  match payload with
  | JObj kv =>
      match first_price ["price"; "last_price"; "last"; "close"] kv with
      | Some q => Ok (Some q)
      | None =>
          p1 ← match dict_get "data" kv with
               | JArr (first :: _) => first_price_dyn ["price"; "last_price"; "last"] first
               | _ => Ok None
               end;
          match p1 with
          | Some q => Ok (Some q)
          | None =>
              match dict_get "ticker" kv with
              | JObj t => Ok (first_price ["last_price"; "price"; "last"] t)
              | _ => Ok None
              end
          end
      end
  | JArr (JObj first :: _) => Ok (first_price ["price"; "last_price"; "last"] first)
  | _ => Ok None
  end.

Definition candidate_paths (key : string) : list string :=
  let candidates :=
    [key; replace "USDT" "_USDT" key; replace "_" "" key; replace "_" "-" key] in
  concat (map (fun cand =>
                 ["/exchange/ticker/" +:+ cand;
                  "/market_data/ticker/" +:+ cand;
                  "/market_data/trade_history/" +:+ cand;
                  "/public/trades/" +:+ cand;
                  "/exchange/v1/derivatives/futures/market_data/ticker/" +:+ cand])
              candidates).

(** The [for path in candidate_paths] loop: the price and the url it
    returns with, if it does. *)
Fixpoint try_candidates (paths : list string) : Co (option (Q * string)) :=
  match paths with
  | [] => mret None
  | path :: paths' =>
      self ← get_globals;
      let url := base_url self +:+ path in
      found ← try_except
                (r ← requests_get url;
                 match r with
                 | None => mret None
                 | Some body =>
                     payload ← lift (json_of body);
                     lift (price_of_payload payload)
                 end)
                (fun _ => mret None);
      match found with
      | Some price => mret (Some (price, url))
      | None => try_candidates paths'
      end
  end.

Definition get_price (symbol : string) : Co quote :=
  if String.eqb symbol "" then raise (PyError "ValueError") else
  let key := _normalize symbol in
  cached ← _get_cached key;
  match cached with
  | Some ent =>
      mret {| quote_symbol := symbol; quote_price := price ent;
              quote_source := source ent; quote_ts := py_int (ts ent * 1000) |}
  | None =>
      bulk ← try_bulk key;
      match bulk with
      | Some price =>
          _set_cache key price "exchange/ticker";;
          t ← time;
          mret {| quote_symbol := symbol; quote_price := price;
                  quote_source := "exchange/ticker"; quote_ts := py_int (t * 1000) |}
      | None =>
          cand ← try_candidates (candidate_paths key);
          match cand with
          | Some (price, url) =>
              _set_cache key price url;;
              t ← time;
              mret {| quote_symbol := symbol; quote_price := price;
                      quote_source := url; quote_ts := py_int (t * 1000) |}
          | None =>
              t ← time;
              let base : Q := if contains "BTC" key then 60000%Q else 2000%Q in
              let price := round_digits 2 (base * ((95 # 100) + q_frac t * (1 # 10))) in
              _set_cache key price "fallback";;
              mret {| quote_symbol := symbol; quote_price := price;
                      quote_source := "fallback"; quote_ts := py_int (t * 1000) |}
          end
      end
  end.

End WithWorld.
End ExchangeSvc.

(** ** [backend/routes/user_orders.py] *)

Module UserOrders.
Import Py.

(** [models.database.OrderStatus]. *)
Inductive OrderStatus : Type :=
| PENDING
| QUEUED
| EXECUTED
| FAILED
| CANCELLED.

Definition is_QUEUED (s : OrderStatus) : bool :=
  match s with
  | QUEUED => true
  | _ => false
  end.

(** The columns of [models.database.User] the order routes read. *)
Record User : Type := {
  User_id : Z;
  max_leverage : Z;
}.

(** A row of the table [orders] ([models.database.Order]); datetimes are
    clock readings. *)
Record Order : Type := {
  id : Z;
  user_id : Z;
  symbol : string;
  side : string;
  order_type : string;
  quantity : Q;
  leverage : Z;
  limit_price : option Q;
  margin : option Q;
  status : OrderStatus;
  client_order_id : option string;
  exchange_order_id : option string;
  executed_price : option Q;
  executed_quantity : option Q;
  fees : Q;
  error_message : option string;
  retry_count : Z;
  created_at : Q;
  updated_at : Q;
  executed_at : option Q;
}.

(** The request body [OrderUpdate]: every field is optional. *)
Module OrderUpdate.
Record t : Type := {
  symbol : option string;
  side : option string;
  order_type : option string;
  quantity : option Q;
  leverage : option Z;
  limit_price : option Q;
  margin : option Q;
  status : option string;
}.
End OrderUpdate.

(** The table [orders], by primary key.  A handler works on a session:
    what it changes reaches the table at [db.commit()], and a handler that
    raises before it leaves the table as it was. *)
Abbreviation table := (gmap Z Order).

Local Abbreviation Co := (M table).

(** [db.query(Order).filter(Order.id == order_id,
    Order.user_id == current_user.id).first()]. *)
Definition query_order (db : table) (order_id : Z) (current_user : User) : option Order :=
  match db !! order_id with
  | Some o => if user_id o =? User_id current_user then Some o else None
  | None => None
  end.

(** The assignments of lines 239-259, for a request that passes the
    leverage check. *)
Definition updated (order : Order) (order_update : OrderUpdate.t) (utcnow : Q) : Order :=
  {| id := id order;
     user_id := user_id order;
     symbol := match OrderUpdate.symbol order_update with
               | Some s => upper s
               | None => symbol order
               end;
     side := default (side order) (OrderUpdate.side order_update);
     order_type := default (order_type order) (OrderUpdate.order_type order_update);
     quantity := default (quantity order) (OrderUpdate.quantity order_update);
     leverage := default (leverage order) (OrderUpdate.leverage order_update);
     limit_price := match OrderUpdate.limit_price order_update with
                    | Some p => Some p
                    | None => limit_price order
                    end;
     margin := match OrderUpdate.margin order_update with
               | Some m => Some m
               | None => margin order
               end;
     status := status order;
     client_order_id := client_order_id order;
     exchange_order_id := exchange_order_id order;
     executed_price := executed_price order;
     executed_quantity := executed_quantity order;
     fees := fees order;
     error_message := error_message order;
     retry_count := retry_count order;
     created_at := created_at order;
     updated_at := utcnow;
     executed_at := executed_at order |}.

Definition update_order (order_id : Z) (order_update : OrderUpdate.t)
    (current_user : User) : Co Order :=
  db ← get_globals;
  match query_order db order_id current_user with
  | None => raise (HTTPException 404 "Order not found")
  | Some order =>
      if negb (is_QUEUED (status order)) then
        raise (HTTPException 400 "Can only update queued orders")
      else
        match OrderUpdate.leverage order_update with
        | Some l =>
            if max_leverage current_user <? l then
              raise (HTTPException 400
                       ("Leverage exceeds maximum " +:+ pretty (max_leverage current_user) +:+ "x"))
            else mret tt
        | None => mret tt
        end;;
        utcnow ← time;
        let order := updated order order_update utcnow in
        set_globals (<[order_id := order]> db);;
        mret order
  end.

Definition delete_order (order_id : Z) (current_user : User) : Co (string * Z) :=
  db ← get_globals;
  match query_order db order_id current_user with
  | None => raise (HTTPException 404 "Order not found")
  | Some order =>
      if negb (is_QUEUED (status order)) then
        raise (HTTPException 400 "Can only delete queued orders")
      else
        set_globals (delete order_id db);;
        mret ("Order deleted successfully", order_id)
  end.

End UserOrders.

Import Py.

(** ** Vocabulary of the properties *)

(** A relation between the state before and after a coroutine holds for
    the coroutine when every run respects it. *)
Definition keeps_at {G A} (R : relation (rt G)) (s : rt G) (m : M G A) : Prop :=
  ∀ r s', m s = (r, s') → R s s'.

Definition keeps {G A} (R : relation (rt G)) (m : M G A) : Prop :=
  ∀ s, keeps_at R s m.

(** A run made only requests that satisfy [P], and let no time pass. *)
Definition requests_among {G} (P : request → Prop) (s s' : rt G) : Prop :=
  now s' = now s ∧ ∃ l, net_log s' = l ++ net_log s ∧ Forall P l.

Definition is_order_post (r : request) : bool :=
  match r with
  | POST url _ => String.eqb url Trading.COINDCX_ORDER_URL
  | _ => false
  end.

(** The part of the state of [trading.py] that only the order endpoints
    and the order submission touch. *)
Record frame (s s' : rt Trading.store) : Prop := {
  frame_posts : Trading.order_posts (net_log s') = Trading.order_posts (net_log s);
  frame_orders : Trading._orders (globals s') = Trading._orders (globals s);
  frame_next_id : Trading._order_next_id (globals s') = Trading._order_next_id (globals s);
  frame_now : now s' = now s;
  frame_log : net_log s `suffix_of` net_log s';
}.

(** The queue holds the same orders, up to their ["last_client_order_id"]. *)
Definition same_orders (s s' : rt Trading.store) : Prop :=
  (Trading.id <$> (Trading._orders (globals s'))) = (Trading.id <$> (Trading._orders (globals s))) ∧
  (Trading.data <$> (Trading._orders (globals s')))
    = (Trading.data <$> (Trading._orders (globals s))) ∧
  Trading._order_next_id (globals s') = Trading._order_next_id (globals s).


Section Vocabulary.
Context {W : World}.
Import Trading.

Definition ticker_request : request := GET (COINDCX_API +:+ TICKER_ENDPOINT) [] None.

(** The mapping a refresh installs for the answer [resp] of the ticker
    endpoint, if it installs one. *)
Definition fetched_tickers (resp : response) : option (gmap string Q) :=
  match resp with
  | Reply status _ (Some data) =>
      if is_success status && dict_nonempty (new_cache_of data)
      then Some (new_cache_of data) else None
  | _ => None
  end.

(** The test of [_get_usdt_inr_rate] that decides on a refresh. *)
Definition rate_refresh_due (s : rt store) : bool :=
  negb (bool_decide (is_Some (_ticker_cache (globals s) !! "USDTINR")))
  || q_ltb 30 (now s - _ticker_cache_updated_at (globals s)).

Definition cached_reply (sym : string) (price : Q) (s : rt store) : price_reply :=
  {| reply_symbol := sym; reply_price := price; reply_source := "cache";
     reply_ts := _ticker_cache_updated_at (globals s) |}.


(** The requests made up to the instrument gate. *)
Definition gate_request (r : request) : Prop :=
  (∃ content, r = GET COINDCX_WALLETS_URL [] content)
  ∨ (∃ params, r = GET COINDCX_ACTIVE_INSTRUMENTS_URL params None).
End Vocabulary.

Section ExchangeVocabulary.
Import ExchangeSvc.

Definition bulk_request (s : rt ExchangeService) : request :=
  GET (base_url (globals s) +:+ "/exchange/ticker") [] None.

Definition fresh (s : rt ExchangeService) (ent : entry) : bool :=
  q_leb (now s - ts ent) (_cache_ttl (globals s)).

Definition fallback_price (key : string) (t : Q) : Q :=
  round_digits 2 ((if contains "BTC" key then 60000 else 2000) * ((95 # 100) + q_frac t * (1 # 10))).

End ExchangeVocabulary.

Section UserOrdersVocabulary.
Import UserOrders.

Definition stores (st : rt table) (t : table) : rt table := Rt t (now st) (net_log st).

Definition leverage_allowed (u : OrderUpdate.t) (user : User) : bool :=
  match OrderUpdate.leverage u with
  | Some l => negb (max_leverage user <? l)
  | None => true
  end.

End UserOrdersVocabulary.

(** ** Concrete worlds, stores and requests

    The inputs at which the properties below are instantiated. *)

Module Scenario.
Import Trading.

Definition negative_order : OrderIn :=
  {| symbol := "BTCUSDT"; qty := (-5)%Q; leverage := 1; side := "BUY";
     order_type := "market"; limit_price := None; margin := None |}.
Definition boot : rt store := Rt initial_store 0 [].

(** A feed with one instrument, or with none. *)
Definition btc_feed : json :=
  JArr [JObj [("market", JStr "BTCUSDT"); ("last_price", JNum 61000)]].

(** A world in which nothing outside answers. *)
Definition offline : World :=
  {| answer := fun _ _ => Unreachable;
     float_of_str := fun _ => None;
     str_of := fun _ => "";
     COINDCX_API_KEY := None; COINDCX_API_SECRET := None;
     TICKER_REFRESH_INTERVAL := 10; POLL_INTERVAL := 2 |}.

(** The ticker endpoint answers with [feed]; sends to a socket fail when
    [sockets_closed]; sleeps complete. *)
Definition feeding (feed : json) (sockets_closed : bool) : World :=
  {| answer := fun _ r =>
       match r with
       | GET _ _ _ => Reply 200 "" (Some feed)
       | WS_SEND _ _ => if sockets_closed then Unreachable else Reply 0 "" None
       | _ => Reply 0 "" None
       end;
     float_of_str := fun _ => None;
     str_of := fun _ => "";
     COINDCX_API_KEY := None; COINDCX_API_SECRET := None;
     TICKER_REFRESH_INTERVAL := 10; POLL_INTERVAL := 2 |}.

(** The ticker cache holds one price, fetched at time 0; it is now 1000. *)
Definition stale_store : store := set_ticker {[ "BTCUSDT" := 60000%Q ]} 0 initial_store.
Definition stale_cache : rt store := Rt stale_store 1000 [].

(** One subscriber, connection 1, listening to BTCUSDT. *)
Definition subscribed_store : store :=
  {| _ticker_cache := {[ "BTCUSDT" := 60000%Q ]}; _ticker_cache_updated_at := 0;
     _orders := []; _order_next_id := 1;
     _futures_wallets_cache := None; _futures_wallets_cached_at := 0;
     _active_instruments_cache := ∅; _active_instruments_cached_at := ∅;
     _instrument_cache := ∅; _instrument_cached_at := ∅;
     WS_CONNECTIONS := {[ 1%nat ]}; WS_SUBSCRIPTIONS := {[ 1%nat := {[ "BTCUSDT" ]} ]} |}.
Definition subscribed : rt store := Rt subscribed_store 1000 [].

(** A running [PriceBroadcaster] with the same price and subscriber. *)
Definition broadcaster : rt Broadcaster.PriceBroadcaster :=
  Rt {| Broadcaster.tickers := {[ "BTCUSDT" := 60000%Q ]};
        Broadcaster.symbols_cache := ["BTCUSDT"];
        Broadcaster._running := true;
        Broadcaster._subscriptions := {[ 1%nat := {[ "BTCUSDT" ]} ]} |} 1000 [].

(** An [ExchangeService] with an empty cache. *)
Definition service : rt ExchangeSvc.ExchangeService :=
  Rt {| ExchangeSvc.base_url := "https://api.coindcx.com";
        ExchangeSvc._cache := ∅; ExchangeSvc._cache_ttl := 3 # 2 |} (2001 # 2) [].

(** The exchange as the order pipeline sees it: an INR futures wallet with
    [balance], the set [active] of instruments, the details [instrument] for
    every pair, no ticker feed, and an order endpoint that accepts. *)
Definition exchange (balance : Q) (active : list string)
    (instrument : list (string * json)) : World :=
  {| answer := fun _ r =>
       match r with
       | GET url _ _ =>
           if String.eqb url COINDCX_WALLETS_URL then
             Reply 200 ""
               (Some (JArr [JObj [("currency_short_name", JStr "INR");
                                  ("balance", JNum balance)]]))
           else if String.eqb url COINDCX_ACTIVE_INSTRUMENTS_URL then
             Reply 200 "" (Some (JArr (map JStr active)))
           else if String.eqb url COINDCX_INSTRUMENT_URL then
             Reply 200 "" (Some (JObj [("instrument", JObj instrument)]))
           else Unreachable
       | POST _ _ => Reply 200 "accepted" None
       | _ => Reply 0 "" None
       end;
     float_of_str := fun _ => None;
     str_of := fun _ => "";
     COINDCX_API_KEY := Some "key"; COINDCX_API_SECRET := Some "secret";
     TICKER_REFRESH_INTERVAL := 10; POLL_INTERVAL := 2 |}.

(** The instrument of the design document's example. *)
Definition btc_instrument : list (string * json) :=
  [("unit_contract_value", JNum (1 # 1000)); ("quantity_increment", JNum (1 # 1000));
   ("min_quantity", JNum (1 # 1000)); ("max_quantity", JNum 100)].


Definition market_order (sym : string) (notional : Q) (lev : Z) : OrderIn :=
  {| symbol := sym; qty := notional; leverage := lev; side := "BUY";
     order_type := "market"; limit_price := None; margin := None |}.

Definition limit_order (sym : string) (notional price : Q) (lev : Z) : OrderIn :=
  {| symbol := sym; qty := notional; leverage := lev; side := "BUY";
     order_type := "limit"; limit_price := Some price; margin := None |}.

(** A queue at time 1000 with a BTCUSDT price of 60000 in the ticker cache. *)
Definition queue (orders : list queued_order) : rt store :=
  Rt (set_orders orders (1 + Z.of_nat (length orders))
        (set_ticker {[ "BTCUSDT" := 60000%Q ]} 990 initial_store)) 1000 [].

Definition example_queue : rt store :=
  queue [new_order (market_order "BTCUSDT" 10000 10) 1].


Definition mixed_queue : rt store :=
  queue [new_order (market_order "BTCUSDT" 10000 10) 1;
         new_order (market_order "XYZUSDT" 10000 10) 2].

Module Db.
Import UserOrders.
Definition alice : User := {| User_id := 7; max_leverage := 20 |}.
Definition row (s : OrderStatus) : Order :=
  {| id := 1; user_id := 7; symbol := "BTCUSDT"; side := "BUY"; order_type := "market";
     quantity := 1000; leverage := 5; limit_price := None; margin := Some 200%Q;
     status := s; client_order_id := None; exchange_order_id := None;
     executed_price := None; executed_quantity := None; fees := 0;
     error_message := None; retry_count := 0;
     created_at := 100; updated_at := 100; executed_at := None |}.
Definition session (s : OrderStatus) : rt table := Rt {[ 1 := row s ]} 500 [].
Definition full_update (lev : Z) : OrderUpdate.t :=
  {| OrderUpdate.symbol := Some "ethusdt"; OrderUpdate.side := Some "SELL";
     OrderUpdate.order_type := Some "limit"; OrderUpdate.quantity := Some 2500%Q;
     OrderUpdate.leverage := Some lev; OrderUpdate.limit_price := Some 2000%Q;
     OrderUpdate.margin := Some 125%Q; OrderUpdate.status := None |}.
End Db.
End Scenario.

(** ** [backend/routes/trading.py]: the other endpoints *)

Module Endpoints.
Import Trading.

Definition set_ws (c : gset nat) (m : gmap nat (gset string)) (g : store) : store :=
  {| _ticker_cache := _ticker_cache g;
     _ticker_cache_updated_at := _ticker_cache_updated_at g;
     _orders := _orders g; _order_next_id := _order_next_id g;
     _futures_wallets_cache := _futures_wallets_cache g;
     _futures_wallets_cached_at := _futures_wallets_cached_at g;
     _active_instruments_cache := _active_instruments_cache g;
     _active_instruments_cached_at := _active_instruments_cached_at g;
     _instrument_cache := _instrument_cache g;
     _instrument_cached_at := _instrument_cached_at g;
     WS_CONNECTIONS := c; WS_SUBSCRIPTIONS := m |}.

(** The dict [get_futures_balance] returns. *)
Record balance_reply : Type := {
  currency : string;
  balance : Q;
  locked_balance : Q;
  wallet_id : json;
}.

(** What the next [json.loads(await ws.receive_text())] of a connection
    yields. *)
Inductive ws_event : Type :=
| Message (m : json)      (* a text frame holding the JSON document [m] *)
| Garbage                 (* a text frame that is not JSON *)
| Disconnected            (* the client has gone: [receive_text] raises *)
| Cancelled.              (* the task is cancelled while it waits *)

Section WithWorld.
Context {W : World}.

Local Abbreviation Co := (M store).

(** *** [GET /securities] *)

Definition list_securities (currency : string) : Co (list string * nat) :=
  g ← get_globals;
  (if dict_nonempty (_ticker_cache g) then mret tt else refresh_ticker_cache);;
  g ← get_globals;
  let syms := (map_to_list (_ticker_cache g)).*1 in
  mret (sorted syms, length syms).

(** *** [PUT /orders/{order_id}] *)

(** [for idx, existing in enumerate(_orders): if existing.get("id") == order_id]:
    the first hit, positions counted from [idx]. *)
Fixpoint find_order (order_id : Z) (idx : nat) (orders : list queued_order)
    : option (nat * queued_order) :=
  match orders with
  | [] => None
  | existing :: orders' =>
      if id existing =? order_id then Some (idx, existing)
      else find_order order_id (S idx) orders'
  end.

(** [updated = existing.copy(); updated.update(order.model_dump())] and the
    two keys that are put back. *)
Definition update_order (order_id : Z) (order : OrderIn) : Co queued_order :=
  g ← get_globals;
  match find_order order_id 0 (_orders g) with
  | Some (idx, existing) =>
      let updated := {| data := order; id := id existing; local_id := local_id existing;
                        last_client_order_id := last_client_order_id existing |} in
      set_globals (set_orders (<[idx := updated]> (_orders g)) (_order_next_id g) g);;
      mret updated
  | None => raise (HTTPException 404 "Order not found")
  end.

(** *** [GET /balance] and [GET /wallets] *)

(** [except httpx.HTTPStatusError: raise 502] / [except Exception: raise 500]. *)
Definition wallets_http_error (internal : string) (e : exn) : exn :=
  match e with
  | PyError kind =>
      if String.eqb kind "HTTPStatusError"
      then HTTPException 502 "Failed to fetch wallets from CoinDCX"
      else HTTPException 500 internal
  | _ => HTTPException 500 internal
  end.

(** The loop over the wallets of [get_futures_balance]. *)
Fixpoint find_balance (cur : string) (wallets : list json) : outcome (option balance_reply) :=
  match wallets with
  | [] => Ok None
  | w :: wallets' =>
      c ← py_get "currency_short_name" w;
      let w_cur := upper (py_str (py_or c (JStr ""))) in
      if String.eqb w_cur cur then
        b ← py_get "balance" w;
        bal ← py_float (py_or b (JNum 0));
        l ← py_get "locked_balance" w;
        locked ← py_float (py_or l (JNum 0));
        i ← py_get "id" w;
        Ok (Some {| currency := w_cur; balance := bal; locked_balance := locked;
                    wallet_id := i |})
      else find_balance cur wallets'
  end.

Definition get_futures_balance (currency : string) : Co balance_reply :=
  let cur := upper currency in
  let cur := if String.eqb cur "USD" then "USDT" else cur in
  g ← get_globals;
  t ← time;
  (if wallets_missing (_futures_wallets_cache g)
      || q_ltb 30 (t - _futures_wallets_cached_at g)
   then try_except (_fetch_futures_wallets;; mret tt)
          (fun e => raise (wallets_http_error "Internal error while fetching balance" e))
   else mret tt);;
  g ← get_globals;
  found ← lift (find_balance cur (default [] (_futures_wallets_cache g)));
  match found with
  | Some reply => mret reply
  | None => raise (HTTPException 404 ("Futures wallet for " +:+ cur +:+ " not found"))
  end.

Definition get_futures_wallets : Co json :=
  try_except _fetch_futures_wallets
    (fun e => raise (wallets_http_error "Internal error while fetching wallets" e)).

(** *** [/ws/price] *)

(** One pass of the [while True] body, on the decoded message [m]. *)
Definition ws_message (ws : nat) (m : json) : Co unit :=
  action ← lift (py_get "action" m);
  symbol ← lift (s ← py_get "symbol" m; py_upper (py_or s (JStr "")));
  g ← get_globals;
  match action with
  | JStr a =>
      if String.eqb a "subscribe" then
        match WS_SUBSCRIPTIONS g !! ws with
        | Some subs =>
            set_globals (set_ws (WS_CONNECTIONS g)
                           (<[ws := subs ∪ {[symbol]}]> (WS_SUBSCRIPTIONS g)) g)
        | None => raise (PyError "KeyError")
        end
      else if String.eqb a "unsubscribe" then
        match WS_SUBSCRIPTIONS g !! ws with
        | Some subs =>
            set_globals (set_ws (WS_CONNECTIONS g)
                           (<[ws := subs ∖ {[symbol]}]> (WS_SUBSCRIPTIONS g)) g)
        | None => raise (PyError "KeyError")
        end
      else mret tt
  | _ => mret tt
  end.

(** The [while True] loop on the frames [events]; [Looping] when they are
    used up and the connection is still open. *)
Fixpoint ws_receive_loop (ws : nat) (events : list ws_event) : Co loop_end :=
  match events with
  | [] => mret Looping
  | Message m :: events' => ws_message ws m;; ws_receive_loop ws events'
  | Garbage :: _ => raise (PyError "JSONDecodeError")
  | Disconnected :: _ => raise (PyError "WebSocketDisconnect")
  | Cancelled :: _ => raise CancelledError
  end.

(** The [finally] block. *)
Definition ws_cleanup (ws : nat) : Co unit :=
  g ← get_globals;
  set_globals (set_ws (WS_CONNECTIONS g ∖ {[ws]}) (delete ws (WS_SUBSCRIPTIONS g)) g).

(** [try: <loop> except Exception: pass finally: <cleanup>], for a loop
    observed until it ends or its frames are used up. *)
Definition ws_serve (ws : nat) (events : list ws_event) : Co loop_end :=
  fun s =>
    match ws_receive_loop ws events s with
    | (Ok Looping, s') => (Ok Looping, s')
    | (Ok Returned, s') => (ws_cleanup ws;; mret Returned) s'
    | (Raise e, s') =>
        (ws_cleanup ws;; if is_Exception e then mret Returned else raise e) s'
    end.

(** The handler of an accepted connection [ws] that receives [events]. *)
Definition ws_price_endpoint (ws : nat) (events : list ws_event) : Co loop_end :=
  g ← get_globals;
  set_globals (set_ws (WS_CONNECTIONS g ∪ {[ws]}) (<[ws := ∅]> (WS_SUBSCRIPTIONS g)) g);;
  ws_serve ws events.

End WithWorld.
End Endpoints.

(** ** [backend/services/price_broadcaster.py]: the registry of sockets *)

Module Registry.
Import Broadcaster.

Local Abbreviation Co := (M PriceBroadcaster).

(** [self._subscriptions.setdefault(websocket, set())]. *)
Definition register (websocket : nat) : Co unit :=
  self ← get_globals;
  set_globals
    (set_subscriptions
       (<[websocket := default ∅ (_subscriptions self !! websocket)]> (_subscriptions self))
       self).

(** [self._subscriptions.pop(websocket, None)]. *)
Definition unregister (websocket : nat) : Co unit :=
  self ← get_globals;
  set_globals (set_subscriptions (delete websocket (_subscriptions self)) self).

(** [self._subscriptions.setdefault(websocket, set()).add(symbol.upper())]. *)
Definition subscribe (websocket : nat) (symbol : string) (self : PriceBroadcaster)
    : PriceBroadcaster :=
  let s := upper symbol in
  set_subscriptions
    (<[websocket := default ∅ (_subscriptions self !! websocket) ∪ {[s]}]>
       (_subscriptions self))
    self.

(** [if websocket in self._subscriptions:
       self._subscriptions[websocket].discard(symbol.upper())]. *)
Definition unsubscribe (websocket : nat) (symbol : string) (self : PriceBroadcaster)
    : PriceBroadcaster :=
  let s := upper symbol in
  match _subscriptions self !! websocket with
  | Some subs =>
      set_subscriptions (<[websocket := subs ∖ {[s]}]> (_subscriptions self)) self
  | None => self
  end.

End Registry.

(** ** [backend/routes/user_orders.py]: creating, reading and clearing *)

Module OrderRoutes.
Import UserOrders.

(** The request body [OrderCreate]. *)
Module OrderCreate.
Record t : Type := {
  symbol : string;
  side : string;
  order_type : string;
  quantity : Q;
  leverage : Z;
  limit_price : option Q;
  margin : option Q;
}.
End OrderCreate.

(** The row [Order(user_id=..., symbol=order_data.symbol.upper(), ...,
    status=OrderStatus.QUEUED)] as it is inserted under the primary key
    [pk] at time [utcnow]: the columns the handler does not set take the
    defaults of [models.database.Order]. *)
Definition new_row (pk : Z) (order_data : OrderCreate.t) (current_user : User)
    (utcnow : Q) : Order :=
  {| id := pk;
     user_id := User_id current_user;
     symbol := upper (OrderCreate.symbol order_data);
     side := OrderCreate.side order_data;
     order_type := OrderCreate.order_type order_data;
     quantity := OrderCreate.quantity order_data;
     leverage := OrderCreate.leverage order_data;
     limit_price := OrderCreate.limit_price order_data;
     margin := OrderCreate.margin order_data;
     status := QUEUED;
     client_order_id := None;
     exchange_order_id := None;
     executed_price := None;
     executed_quantity := None;
     fees := 0;
     error_message := None;
     retry_count := 0;
     created_at := utcnow;
     updated_at := utcnow;
     executed_at := None |}.

Local Abbreviation Co := (M table).

Section WithDatabase.

(** The primary key the database gives the next row of a table.  A key
    that is taken makes the insertion fail. *)
Variable next_key : table → Z.

(** [db.add(row); db.commit()] for one row. *)
Definition insert_row (order_data : OrderCreate.t) (current_user : User) (utcnow : Q)
    (db : table) : outcome (table * Order) :=
  let pk := next_key db in
  match db !! pk with
  | Some _ => Raise (PyError "IntegrityError")
  | None =>
      let row := new_row pk order_data current_user utcnow in
      Ok (<[pk := row]> db, row)
  end.

Definition create_order (order_data : OrderCreate.t) (current_user : User) : Co Order :=
  if max_leverage current_user <? OrderCreate.leverage order_data then
    raise (HTTPException 400
             ("Leverage " +:+ pretty (OrderCreate.leverage order_data)
              +:+ "x exceeds your maximum allowed leverage of "
              +:+ pretty (max_leverage current_user) +:+ "x"))
  else
    db ← get_globals;
    utcnow ← time;
    r ← lift (insert_row order_data current_user utcnow db);
    set_globals r.1;;
    mret r.2.

(** The loop of [create_bulk_orders]: the leverage check of each order, in
    order; the rows are only added to the session. *)
Fixpoint check_bulk (orders : list OrderCreate.t) (current_user : User) : outcome unit :=
  match orders with
  | [] => Ok tt
  | order_data :: orders' =>
      if max_leverage current_user <? OrderCreate.leverage order_data then
        Raise (HTTPException 400
                 ("Leverage " +:+ pretty (OrderCreate.leverage order_data)
                  +:+ "x exceeds maximum " +:+ pretty (max_leverage current_user) +:+ "x"))
      else check_bulk orders' current_user
  end.

(** [db.commit()]: the rows of the session are inserted in order. *)
Fixpoint insert_rows (orders : list OrderCreate.t) (current_user : User) (utcnow : Q)
    (db : table) (created : list Order) : outcome (table * list Order) :=
  match orders with
  | [] => Ok (db, created)
  | order_data :: orders' =>
      r ← insert_row order_data current_user utcnow db;
      insert_rows orders' current_user utcnow r.1 (created ++ [r.2])
  end.

Definition create_bulk_orders (orders : list OrderCreate.t) (current_user : User)
    : Co (list Order) :=
  lift (check_bulk orders current_user);;
  db ← get_globals;
  utcnow ← time;
  r ← lift (insert_rows orders current_user utcnow db []);
  set_globals r.1;;
  mret r.2.

End WithDatabase.

Definition get_order (order_id : Z) (current_user : User) : Co Order :=
  db ← get_globals;
  match query_order db order_id current_user with
  | None => raise (HTTPException 404 "Order not found")
  | Some order => mret order
  end.

(** The rows [clear_queue] deletes: the queued orders of the user. *)
Definition queued_of (current_user : User) (o : Order) : bool :=
  (user_id o =? User_id current_user) && is_QUEUED (status o).

Definition clear_queue (current_user : User) : Co (string * Z) :=
  db ← get_globals;
  let deleted_count :=
    Z.of_nat (size (filter (λ kv, queued_of current_user kv.2 = true) db)) in
  set_globals (filter (λ kv, queued_of current_user kv.2 = false) db);;
  mret ("Cleared " +:+ pretty deleted_count +:+ " queued orders", deleted_count).

End OrderRoutes.

(** ** Vocabulary of the further properties *)

(** The ids of the queued orders are pairwise distinct and were all handed
    out by the counter. *)
Definition unique_ids (g : Trading.store) : Prop :=
  NoDup (Trading.id <$> Trading._orders g) ∧
  Forall (λ i, i < Trading._order_next_id g) (Trading.id <$> Trading._orders g).

Section EndpointVocabulary.
Context {W : World}.
Import Trading Endpoints.

(** Both API credentials are configured. *)
Definition has_credentials : bool := env_set COINDCX_API_KEY && env_set COINDCX_API_SECRET.

(** The signed request [_fetch_futures_wallets] makes in state [s]. *)
Definition wallets_request (s : rt store) : request :=
  GET COINDCX_WALLETS_URL []
    (Some (JObj [("timestamp", JNum (inject_Z (round_half_even (now s * 1000))))])).

(** The test that makes [get_futures_balance] and [_get_inr_futures_wallet]
    fetch the wallets again. *)
Definition wallets_refresh_due (s : rt store) : bool :=
  wallets_missing (_futures_wallets_cache (globals s))
  || q_ltb 30 (now s - _futures_wallets_cached_at (globals s)).

(** The state after the wallets were asked for, and after [data] came back. *)
Definition wallets_asked (s : rt store) : rt store :=
  Rt (globals s) (now s) (wallets_request s :: net_log s).

Definition wallets_fetched (data : json) (s : rt store) : rt store :=
  Rt (set_wallets (Some (match data with JArr l => l | _ => [data] end)) (now s) (globals s))
     (now s) (wallets_request s :: net_log s).

(** The currency [get_futures_balance] looks for. *)
Definition balance_currency (currency : string) : string :=
  if String.eqb (upper currency) "USD" then "USDT" else upper currency.

(** Its answer from the wallets [wallets]. *)
Definition balance_answer (cur : string) (wallets : list json) : outcome balance_reply :=
  match find_balance cur wallets with
  | Ok (Some reply) => Ok reply
  | Ok None => Raise (HTTPException 404 ("Futures wallet for " +:+ cur +:+ " not found"))
  | Raise e => Raise e
  end.

End EndpointVocabulary.

Section SocketVocabulary.
Import Trading Endpoints.

(** What a client asks for in a well-formed frame. *)
Inductive ws_action : Type :=
| Subscribe (symbol : string)
| Unsubscribe (symbol : string).

Definition ws_frame (a : ws_action) : ws_event :=
  match a with
  | Subscribe symbol =>
      Message (JObj [("action", JStr "subscribe"); ("symbol", JStr symbol)])
  | Unsubscribe symbol =>
      Message (JObj [("action", JStr "unsubscribe"); ("symbol", JStr symbol)])
  end.

Definition ws_apply (subs : gset string) (a : ws_action) : gset string :=
  match a with
  | Subscribe symbol => subs ∪ {[upper symbol]}
  | Unsubscribe symbol => subs ∖ {[upper symbol]}
  end.

Definition is_Message (e : ws_event) : bool :=
  match e with
  | Message _ => true
  | _ => false
  end.

(** The registrations of the sockets other than [ws] are the same. *)
Definition same_other_sockets (ws : nat) (s s' : rt store) : Prop :=
  ∀ ws', ws' ≠ ws →
    (ws' ∈ WS_CONNECTIONS (globals s') ↔ ws' ∈ WS_CONNECTIONS (globals s)) ∧
    WS_SUBSCRIPTIONS (globals s') !! ws' = WS_SUBSCRIPTIONS (globals s) !! ws'.

(** Nothing but the socket registry differs. *)
Definition only_sockets_differ (s s' : rt store) : Prop :=
  now s' = now s ∧ net_log s' = net_log s ∧
  ∀ c m, set_ws c m (globals s') = set_ws c m (globals s).

(** What a connection handler may change: the registration of its own
    socket. *)
Definition socket_frame (ws : nat) (s s' : rt store) : Prop :=
  only_sockets_differ s s' ∧ same_other_sockets ws s s'.

End SocketVocabulary.

Section SizingVocabulary.
Context {W : World}.
Import Trading.

(** [payload["order"]["client_order_id"]]. *)
Definition payload_client_order_id (payload : json) : option string :=
  match payload with
  | JObj kv =>
      match dict_get "order" kv with
      | JObj o => match dict_get "client_order_id" o with JStr c => Some c | _ => None end
      | _ => None
      end
  | _ => None
  end.

(** The client order id of an attempt made at time [t] for the queued order
    [o]: its local id (or its id, or ["local"]) and the time in
    milliseconds. *)
Definition client_order_id_of (o : queued_order) (t : Q) : string :=
  (if negb (local_id o =? 0) then pretty (local_id o)
   else if negb (id o =? 0) then pretty (id o)
   else "local") +:+ "-" +:+ pretty (py_int (t * 1000)).

(** The request [_fetch_active_instruments] makes, and the test of
    [get_active_instruments] that decides on it. *)
Definition instruments_request (margin_currency : string) : request :=
  GET COINDCX_ACTIVE_INSTRUMENTS_URL
    [("margin_currency_short_name[]", upper margin_currency)] None.

Definition instruments_refresh_due (margin_currency : string) (s : rt store) : bool :=
  set_missing (_active_instruments_cache (globals s) !! upper margin_currency)
  || q_ltb 60 (now s - default 0%Q (_active_instruments_cached_at (globals s)
                                      !! upper margin_currency)).

(** An answer from which [httpx] gives no document: no answer at all, an
    error status, or a body that is not JSON. *)
Definition fetch_failed (resp : response) : bool :=
  match resp with
  | Unreachable => true
  | Cancel => false
  | Reply status _ body => negb (is_success status) || negb (bool_decide (is_Some body))
  end.

(** The figures [place_order_on_coindcx] uses for an instrument whose
    details it does not have. *)
Definition default_instrument : L.instrument :=
  {| L.unit_contract_value := 1; L.quantity_increment := 1; L.min_quantity := 1;
     L.max_quantity := inject_Z (10 ^ 18); L.max_lev_long := 0; L.max_lev_short := 0 |}.

(** Every symbol of a ticker mapping is upper-case and non-empty. *)
Definition upper_keys (c : gmap string Q) : Prop :=
  ∀ k, is_Some (c !! k) → upper k = k ∧ k ≠ "".

End SizingVocabulary.

Section PayloadVocabulary.
Import Trading.

(** [not price] for an optional float: absent or zero. *)
Definition not_a_price (p : option Q) : bool :=
  match p with
  | Some q => q_is_zero q
  | None => true
  end.

(** [payload["order"]]. *)
Definition payload_order (payload : json) : list (string * json) :=
  match payload with
  | JObj kv => match dict_get "order" kv with JObj o => o | _ => [] end
  | _ => []
  end.

End PayloadVocabulary.

(** ** Further worlds, stores and requests *)

Module Cases.
Import Trading Endpoints.

(** The exchange of [Scenario.exchange], of which only the wallets
    endpoint answers. *)
Definition only_wallets (balance : Q) : World :=
  {| answer := fun _ r =>
       match r with
       | GET url _ _ =>
           if String.eqb url COINDCX_WALLETS_URL then
             Reply 200 ""
               (Some (JArr [JObj [("currency_short_name", JStr "INR");
                                  ("balance", JNum balance)]]))
           else Unreachable
       | _ => Unreachable
       end;
     float_of_str := fun _ => None;
     str_of := fun _ => "";
     COINDCX_API_KEY := Some "key"; COINDCX_API_SECRET := Some "secret";
     TICKER_REFRESH_INTERVAL := 10; POLL_INTERVAL := 2 |}.

(** The same exchange with the active instruments answering too, but not
    the instrument details. *)
Definition without_details (balance : Q) (active : list string) : World :=
  {| answer := fun _ r =>
       match r with
       | GET url _ _ =>
           if String.eqb url COINDCX_WALLETS_URL then
             Reply 200 ""
               (Some (JArr [JObj [("currency_short_name", JStr "INR");
                                  ("balance", JNum balance)]]))
           else if String.eqb url COINDCX_ACTIVE_INSTRUMENTS_URL then
             Reply 200 "" (Some (JArr (map JStr active)))
           else Unreachable
       | _ => Unreachable
       end;
     float_of_str := fun _ => None;
     str_of := fun _ => "";
     COINDCX_API_KEY := Some "key"; COINDCX_API_SECRET := Some "secret";
     TICKER_REFRESH_INTERVAL := 10; POLL_INTERVAL := 2 |}.

(** A client that subscribes to two symbols, cancels one of them in
    another letter case, and goes. *)
Definition session_actions : list ws_action :=
  [Subscribe "btcusdt"; Subscribe "ethusdt"; Unsubscribe "BtcUsdt"].

Definition session_frames : list ws_event := (ws_frame <$> session_actions) ++ [Disconnected].

(** A new field set for the queued order 1. *)
Definition edited_order : OrderIn := Scenario.limit_order "ETHUSDT" 2500 2000 5.

(** Another user of the order table. *)
Definition bob : UserOrders.User := {| UserOrders.User_id := 8; UserOrders.max_leverage := 10 |}.

(** The keys of SQLite, the default database: one more than the largest
    key in use. *)
Definition next_rowid (db : UserOrders.table) : Z :=
  1 + map_fold (λ k _ acc, Z.max k acc) 0 db.

Definition new_order_request (lev : Z) : OrderRoutes.OrderCreate.t :=
  {| OrderRoutes.OrderCreate.symbol := "ethusdt"; OrderRoutes.OrderCreate.side := "BUY";
     OrderRoutes.OrderCreate.order_type := "market";
     OrderRoutes.OrderCreate.quantity := 1500;
     OrderRoutes.OrderCreate.leverage := lev;
     OrderRoutes.OrderCreate.limit_price := None;
     OrderRoutes.OrderCreate.margin := None |}.

End Cases.

(** * Properties *)

(** ** Running coroutines *)

Section Run.
Context {G : Type}.

Lemma run_bind {A B} (m : M G A) (k : A → M G B) s :
  (m ≫= k) s = match m s with
               | (Ok a, s') => k a s'
               | (Raise e, s') => (Raise e, s')
               end.
Proof. reflexivity. Qed.

Context (R : relation (rt G)) `{!PreOrder R}.

Lemma keeps_at_ret {A} s (a : A) : keeps_at R s (mret a).
Proof. intros r s' [= <- <-]. reflexivity. Qed.

Lemma keeps_at_raise {A} s e : keeps_at R s (raise e : M G A).
Proof. intros r s' [= <- <-]. reflexivity. Qed.

Lemma keeps_at_lift {A} s (o : outcome A) : keeps_at R s (lift o).
Proof. intros r s' [= <- <-]. reflexivity. Qed.

Lemma keeps_at_bind {A B} s (m : M G A) (k : A → M G B) :
  keeps_at R s m →
  (∀ a s1, m s = (Ok a, s1) → keeps_at R s1 (k a)) →
  keeps_at R s (m ≫= k).
Proof.
  intros Hm Hk r s'. rewrite run_bind.
  destruct (m s) as [[a|e] s1] eqn:E.
  - intros H. etrans; [by eapply Hm | by eapply Hk].
  - intros [= <- <-]. by eapply Hm.
Qed.

Lemma keeps_at_bind_get {A} s (k : G → M G A) :
  keeps_at R s (k (globals s)) → keeps_at R s (get_globals ≫= k).
Proof. intros Hk r s'. rewrite run_bind. simpl. apply Hk. Qed.

Lemma keeps_at_bind_time {A} s (k : Q → M G A) :
  keeps_at R s (k (now s)) → keeps_at R s (time ≫= k).
Proof. intros Hk r s'. rewrite run_bind. simpl. apply Hk. Qed.

Lemma keeps_at_try_except {A} s (m : M G A) h :
  keeps_at R s m →
  (∀ e s1, m s = (Raise e, s1) → keeps_at R s1 (h e)) →
  keeps_at R s (try_except m h).
Proof.
  intros Hm Hh r s'. unfold try_except.
  destruct (m s) as [[a|e] s1] eqn:E.
  - intros [= <- <-]. by eapply Hm.
  - destruct (is_Exception e).
    + intros H. etrans; [by eapply Hm | by eapply Hh].
    + intros [= <- <-]. by eapply Hm.
Qed.

Lemma keeps_at_perform {W : World} s r :
  R s (Rt (globals s) (now s) (r :: net_log s)) → keeps_at R s (perform r).
Proof. by intros HR x s' [= <- <-]. Qed.

Lemma keeps_at_set s g :
  R s (Rt g (now s) (net_log s)) → keeps_at R s (set_globals g).
Proof. by intros HR x s' [= <- <-]. Qed.

End Run.

Ltac keeps_step :=
  lazymatch goal with
  | |- keeps_at _ _ (mret _) => apply keeps_at_ret; try apply _
  | |- keeps_at _ _ (raise _) => apply keeps_at_raise; try apply _
  | |- keeps_at _ _ (lift _) => apply keeps_at_lift; try apply _
  | |- keeps_at _ _ (get_globals ≫= _) => apply keeps_at_bind_get
  | |- keeps_at _ _ (time ≫= _) => apply keeps_at_bind_time
  | |- keeps_at _ _ (httpx_get_json _ _ _) => unfold httpx_get_json
  | |- keeps_at _ _ (ws_send _ _) => unfold ws_send
  | |- keeps_at _ _ (perform _) => apply keeps_at_perform
  | |- keeps_at _ _ (set_globals _) => apply keeps_at_set
  | |- keeps_at _ _ (try_except _ _) =>
      apply keeps_at_try_except; [try apply _| |intros ? ? _]
  | |- keeps_at _ _ (_ ≫= _) => apply keeps_at_bind; [try apply _| |intros ? ? _]
  | |- keeps_at _ _ (if ?b then _ else _) => destruct b
  | |- keeps_at _ _ (match ?x with _ => _ end) => destruct x
  | |- keeps_at _ _ (let _ := _ in _) => cbv zeta
  end.

Ltac keeps_auto := repeat (keeps_step; simpl).

(** ** What the coroutines of [trading.py] leave alone *)

Section Frames.
Context {W : World}.
Import Trading.

#[global] Instance frame_preorder : PreOrder frame.
Proof.
  split.
  - intros s. by split.
  - intros s1 s2 s3 [] []. split; [congruence..|by etrans].
Qed.

#[global] Instance requests_among_preorder {G} (P : request → Prop) :
  PreOrder (requests_among (G:=G) P).
Proof.
  split.
  - intros s. split; [done|]. by exists [].
  - intros s1 s2 s3 [Hn1 (l1 & H1 & F1)] [Hn2 (l2 & H2 & F2)].
    split; [congruence|]. exists (l2 ++ l1). split.
    + by rewrite H2, H1, app_assoc.
    + by apply Forall_app.
Qed.

Lemma frame_request s r :
  is_order_post r = false → frame s (Rt (globals s) (now s) (r :: net_log s)).
Proof.
  intros Hr. split; try done; simpl.
  - destruct r; simpl in *; try done. by rewrite Hr.
  - by apply suffix_cons_r.
Qed.

Lemma frame_set s g :
  _orders g = _orders (globals s) →
  _order_next_id g = _order_next_id (globals s) →
  frame s (Rt g (now s) (net_log s)).
Proof. by split. Qed.

Lemma requests_among_request {G} (P : request → Prop) (s : rt G) r :
  P r → requests_among P s (Rt (globals s) (now s) (r :: net_log s)).
Proof. intros Hr. split; [done|]. exists [r]. split; [done|]. by constructor. Qed.

Lemma requests_among_set {G} (P : request → Prop) (s : rt G) g :
  requests_among P s (Rt g (now s) (net_log s)).
Proof. split; [done|]. by exists []. Qed.

End Frames.

Ltac framed :=
  repeat (keeps_step; simpl;
          try first [ by apply frame_request
                    | by apply frame_set
                    | by apply requests_among_set ]).

Section TradingFrames.
Context {W : World}.
Import Trading.

Lemma framed_original_refresh : keeps frame _original_refresh.
Proof. intros s. unfold _original_refresh, _fetch_all_tickers. framed. Qed.

Lemma framed_push_symbols ws subs : keeps frame (push_symbols ws subs).
Proof.
  induction subs as [|x subs IH]; intros s; simpl; framed; apply IH.
Qed.

Lemma framed_push_connections conns : keeps frame (push_connections conns).
Proof.
  induction conns as [|ws conns IH]; intros s; simpl; framed;
    first [apply framed_push_symbols | apply IH].
Qed.

Lemma framed_broadcast : keeps frame _broadcast_price_updates.
Proof.
  intros s. unfold _broadcast_price_updates. keeps_step.
  destruct (elements _) as [|ws conns]; [framed|].
  apply (framed_push_connections (ws :: conns)).
Qed.

Lemma framed_refresh_ticker_cache : keeps frame refresh_ticker_cache.
Proof.
  intros s. unfold refresh_ticker_cache, refresh_ticker_cache_and_broadcast.
  keeps_step; [apply framed_original_refresh | apply framed_broadcast].
Qed.

Lemma framed_fetch_futures_wallets : keeps frame _fetch_futures_wallets.
Proof. intros s. unfold _fetch_futures_wallets. framed. Qed.

Lemma framed_get_inr_futures_wallet : keeps frame _get_inr_futures_wallet.
Proof.
  intros s. unfold _get_inr_futures_wallet. framed.
  all: try apply framed_fetch_futures_wallets.
Qed.

Lemma framed_wallet_step : keeps frame wallet_step.
Proof.
  intros s. unfold wallet_step. keeps_step; [apply framed_get_inr_futures_wallet|].
  framed.
Qed.

Lemma framed_fetch_active_instruments mc : keeps frame (_fetch_active_instruments mc).
Proof. intros s. unfold _fetch_active_instruments. framed. Qed.

Lemma framed_get_active_instruments mc : keeps frame (get_active_instruments mc).
Proof.
  intros s. unfold get_active_instruments. framed.
  all: try apply framed_fetch_active_instruments.
Qed.

Lemma framed_fetch_instrument_details pair mc :
  keeps frame (_fetch_instrument_details pair mc).
Proof. intros s. unfold _fetch_instrument_details. framed. Qed.

Lemma framed_get_instrument_details pair mc :
  keeps frame (get_instrument_details pair mc).
Proof.
  intros s. unfold get_instrument_details. framed.
  all: try apply framed_fetch_instrument_details.
Qed.

Lemma framed_get_usdt_inr_rate : keeps frame _get_usdt_inr_rate.
Proof.
  intros s. unfold _get_usdt_inr_rate. framed.
  all: try apply framed_refresh_ticker_cache.
Qed.

(** The wallet lookup asks the wallets endpoint and nothing else; the
    instrument gate asks the active-instruments endpoint and nothing else. *)
Lemma wallet_step_requests :
  keeps (requests_among (λ r, ∃ c, r = GET COINDCX_WALLETS_URL [] c)) wallet_step.
Proof.
  intros s. unfold wallet_step, _get_inr_futures_wallet, _fetch_futures_wallets.
  framed. all: apply requests_among_request; eauto.
Qed.

Lemma get_active_instruments_requests mc :
  keeps (requests_among (λ r, ∃ p, r = GET COINDCX_ACTIVE_INSTRUMENTS_URL p None))
        (get_active_instruments mc).
Proof.
  intros s. unfold get_active_instruments, _fetch_active_instruments.
  framed. all: apply requests_among_request; eauto.
Qed.

End TradingFrames.

(** ** Numbers *)

Section Rounding.

Lemma q_ltb_lt a b : q_ltb a b = true ↔ (a < b)%Q.
Proof.
  unfold q_ltb. rewrite Qlt_alt. destruct (a ?= b)%Q; split; congruence.
Qed.

Lemma q_ltb_ge a b : q_ltb a b = false ↔ (b <= a)%Q.
Proof.
  unfold q_ltb. destruct (a ?= b)%Q eqn:Hc.
  - apply Qeq_alt in Hc. split; [intros _; lra | done].
  - apply Qlt_alt in Hc. split; [done | intros; lra].
  - apply Qgt_alt in Hc. split; [intros _; lra | done].
Qed.


Lemma round_half_even_near (q : Q) :
  (inject_Z (round_half_even q) - (1 # 2) <= q
   ∧ q <= inject_Z (round_half_even q) + (1 # 2))%Q.
Proof.
  unfold round_half_even.
  pose proof (Qfloor_le q) as Hlo. pose proof (Qlt_floor q) as Hhi.
  rewrite inject_Z_plus in Hhi. change (inject_Z 1) with 1%Q in Hhi.
  destruct (q - inject_Z (Qfloor q) ?= 1 # 2)%Q eqn:Hc.
  - apply (proj2 (Qeq_alt _ _)) in Hc.
    destruct (Z.even (Qfloor q)); [lra|].
    rewrite inject_Z_plus. change (inject_Z 1) with 1%Q. lra.
  - apply (proj2 (Qlt_alt _ _)) in Hc. lra.
  - apply (proj2 (Qgt_alt _ _)) in Hc.
    rewrite inject_Z_plus. change (inject_Z 1) with 1%Q. lra.
Qed.




End Rounding.

(** ** The order queue *)

Section Queue.
Import Trading.

Lemma add_order_stores_positive order st o st' :
  add_order order st = (Ok o, st') →
  (0 < qty (data o))%Q ∧ symbol (data o) ≠ "" ∧
  _orders (globals st') = _orders (globals st) ++ [o].
Proof.
  unfold add_order.
  destruct (String.eqb (symbol order) "") eqn:Hs; simpl; [discriminate|].
  destruct (q_leb (qty order) 0) eqn:Hq; simpl; [discriminate|].
  intros [= <- <-]. simpl. split; [|split; [|done]].
  - unfold q_leb in Hq. destruct (qty order ?= 0)%Q eqn:Hc; try discriminate.
    apply Qgt_alt in Hc. exact Hc.
  - intros Heq. rewrite Heq in Hs. discriminate.
Qed.

Lemma add_order_rejects_nonpositive order st :
  (qty order <= 0)%Q →
  add_order order st = (Raise (HTTPException 400 "Invalid order data"), st).
Proof.
  intros Hq. unfold add_order.
  assert (q_leb (qty order) 0 = true) as ->.
  { unfold q_leb. destruct (qty order ?= 0)%Q eqn:Hc; try done.
    all: apply Qgt_alt in Hc; lra. }
  rewrite orb_true_r. reflexivity.
Qed.

Lemma add_orders_bulk_loop_stores orders : ∀ created st,
  ∃ st' new,
    add_orders_bulk_loop orders created st = (Ok (created ++ new), st') ∧
    map data new = orders ∧
    _orders (globals st') = _orders (globals st) ++ new.
Proof.
  induction orders as [|o orders IH]; intros created st; simpl.
  - exists st, []. rewrite !app_nil_r. done.
  - unfold mbind, M_bind, bind; simpl.
    edestruct IH as (st' & new & -> & Hd & Ho).
    eexists st', (_ :: new). split; [|split].
    + rewrite <- app_assoc. reflexivity.
    + simpl. by rewrite Hd.
    + rewrite Ho. simpl. rewrite <- app_assoc. reflexivity.
Qed.

(** C9 at its failing input: an order over INR -5 that passes every
    [Field] constraint of [OrderIn].  [add_order] rejects it with the 400
    "Invalid order data" and stores nothing; [add_orders_bulk], which has no
    such check, assigns it id 1 and appends it to the queue. *)
Theorem add_orders_bulk_stores_nonpositive_qty :
  valid_OrderIn Scenario.negative_order = true ∧
  (qty Scenario.negative_order <= 0)%Q ∧
  add_order Scenario.negative_order Scenario.boot
    = (Raise (HTTPException 400 "Invalid order data"), Scenario.boot) ∧
  ∃ st', add_orders_bulk [Scenario.negative_order] Scenario.boot
           = (Ok [new_order Scenario.negative_order 1], st') ∧
         _orders (globals st') = [new_order Scenario.negative_order 1].
Proof.
  split; [reflexivity|]. split; [unfold Qle; simpl; lia|].
  split; [reflexivity|]. eexists. split; vm_compute; reflexivity.
Qed.
End Queue.

(** ** The persisted orders *)

Section UserOrdersFacts.
Import UserOrders.

Lemma update_order_not_queued order_id u user st o :
  query_order (globals st) order_id user = Some o →
  is_QUEUED (status o) = false →
  update_order order_id u user st
    = (Raise (HTTPException 400 "Can only update queued orders"), st).
Proof.
  intros Hq Hs. unfold update_order, mbind, M_bind, bind. simpl.
  rewrite Hq, Hs. reflexivity.
Qed.


Lemma update_order_not_found order_id u user st :
  query_order (globals st) order_id user = None →
  update_order order_id u user st = (Raise (HTTPException 404 "Order not found"), st).
Proof.
  intros Hq. unfold update_order, mbind, M_bind, bind. simpl. by rewrite Hq.
Qed.

Lemma update_order_queued order_id u user st o :
  query_order (globals st) order_id user = Some o →
  is_QUEUED (status o) = true →
  update_order order_id u user st =
    if leverage_allowed u user then
      (Ok (updated o u (now st)), stores st (<[order_id := updated o u (now st)]> (globals st)))
    else
      (Raise (HTTPException 400
                ("Leverage exceeds maximum " +:+ pretty (max_leverage user) +:+ "x")), st).
Proof.
  intros Hq Hs. unfold update_order, leverage_allowed, mbind, M_bind, bind. simpl.
  rewrite Hq, Hs. simpl.
  destruct (OrderUpdate.leverage u) as [l|]; simpl; [|reflexivity].
  destruct (max_leverage user <? l); reflexivity.
Qed.



End UserOrdersFacts.

(** ** The ticker cache *)

Section Ticker.
Context {W : World}.
Import Trading.

Lemma original_refresh_run s :
  _original_refresh s =
    (match answer (length (net_log s)) ticker_request with
     | Cancel => Raise CancelledError
     | _ => Ok tt
     end,
     Rt (match fetched_tickers (answer (length (net_log s)) ticker_request) with
         | Some c => set_ticker c (now s) (globals s)
         | None => globals s
         end) (now s) (ticker_request :: net_log s)).
Proof.
  unfold _original_refresh, _fetch_all_tickers, httpx_get_json, try_except.
  unfold mbind, M_bind, bind, perform. fold ticker_request.
  destruct (answer (length (net_log s)) ticker_request) as [| |status text [data|]];
    simpl; try reflexivity.
  - destruct (is_success status); simpl; [|reflexivity].
    destruct (dict_nonempty (new_cache_of data)); reflexivity.
  - destruct (is_success status); reflexivity.
Qed.

Lemma ws_send_globals ws message s r s' :
  ws_send (G:=store) ws message s = (r, s') → globals s' = globals s ∧ now s' = now s.
Proof.
  unfold ws_send. rewrite run_bind. simpl.
  destruct (answer _ _); intros [= <- <-]; done.
Qed.

Lemma push_symbols_globals ws subs : ∀ s r s',
  push_symbols ws subs s = (r, s') → globals s' = globals s ∧ now s' = now s.
Proof.
  induction subs as [|x subs IH]; intros s r s'; simpl.
  - intros [= <- <-]; done.
  - rewrite run_bind. simpl.
    destruct (_ticker_cache (globals s) !! x); [|apply IH].
    rewrite run_bind. simpl. rewrite run_bind.
    destruct (ws_send _ _ _) as [[[]|e] s1] eqn:E.
    + apply ws_send_globals in E as [Hg Hn]. intros H%IH. destruct H. split; congruence.
    + apply ws_send_globals in E as [Hg Hn]. intros [= <- <-]. done.
Qed.

Lemma push_connections_globals conns : ∀ s r s',
  push_connections conns s = (r, s') → globals s' = globals s ∧ now s' = now s.
Proof.
  induction conns as [|ws conns IH]; intros s r s'; simpl.
  - intros [= <- <-]; done.
  - rewrite run_bind. simpl. rewrite run_bind.
    destruct (push_symbols _ _ _) as [[[]|e] s1] eqn:E.
    + apply push_symbols_globals in E as [Hg Hn]. intros H%IH. destruct H. split; congruence.
    + apply push_symbols_globals in E as [Hg Hn]. intros [= <- <-]. done.
Qed.

Lemma broadcast_globals s r s' :
  _broadcast_price_updates s = (r, s') → globals s' = globals s ∧ now s' = now s.
Proof.
  unfold _broadcast_price_updates. rewrite run_bind. simpl.
  destruct (elements _) as [|ws conns]; [intros [= <- <-]; done |].
  apply (push_connections_globals (ws :: conns)).
Qed.

Lemma refresh_ticker_cache_run s :
  refresh_ticker_cache s =
    match _original_refresh s with
    | (Ok _, s1) => _broadcast_price_updates s1
    | (Raise e, s1) => (Raise e, s1)
    end.
Proof. reflexivity. Qed.

(** Serve-stale for the cache of [trading.py]: a refresh, together with
    its broadcast, either installs a freshly parsed non-empty mapping with
    the current time, or leaves mapping and timestamp as they were. *)
Theorem refresh_ticker_cache_keeps_last_good s r s' :
  refresh_ticker_cache s = (r, s') →
  match fetched_tickers (answer (length (net_log s)) ticker_request) with
  | Some c =>
      c ≠ ∅ ∧ _ticker_cache (globals s') = c ∧
      _ticker_cache_updated_at (globals s') = now s
  | None =>
      _ticker_cache (globals s') = _ticker_cache (globals s) ∧
      _ticker_cache_updated_at (globals s') = _ticker_cache_updated_at (globals s)
  end.
Proof.
  rewrite refresh_ticker_cache_run, original_refresh_run.
  set (resp := answer _ _).
  assert (∀ c, fetched_tickers resp = Some c → c ≠ ∅) as Hne.
  { intros c. unfold fetched_tickers. destruct resp as [| |st tx [d|]]; try done.
    destruct (is_success st); simpl; [|done].
    destruct (dict_nonempty (new_cache_of d)) eqn:Hd; [|done].
    intros [= <-] He. rewrite He in Hd. unfold dict_nonempty in Hd.
    by rewrite map_to_list_empty in Hd. }
  intros H.
  assert (globals s' = match fetched_tickers resp with
                       | Some c => set_ticker c (now s) (globals s)
                       | None => globals s
                       end) as Hg.
  { destruct resp as [| |st tx bd] eqn:Hr; simpl in H.
    - by apply broadcast_globals in H as [-> _].
    - by injection H as <- <-.
    - by apply broadcast_globals in H as [-> _]. }
  rewrite Hg. destruct (fetched_tickers resp) as [c|] eqn:Hf; simpl; [|done].
  split; [by apply Hne | done].
Qed.

Lemma refresh_ticker_cache_log s r s' :
  refresh_ticker_cache s = (r, s') →
  (ticker_request :: net_log s) `suffix_of` net_log s'.
Proof.
  rewrite refresh_ticker_cache_run, original_refresh_run.
  destruct (answer _ _) eqn:Hr.
  - intros H%framed_broadcast. by destruct H.
  - by intros [= <- <-].
  - intros H%framed_broadcast. by destruct H.
Qed.

(** [_original_refresh] never lets an [Exception] out; nor does the
    broadcast unless a send fails. *)
Lemma original_refresh_no_exception s r s' :
  _original_refresh s = (r, s') → r = Ok tt ∨ r = Raise CancelledError.
Proof.
  rewrite original_refresh_run. intros [= <- <-].
  destruct (answer _ _); auto.
Qed.

End Ticker.

Section Rate.
Context {W : World}.
Import Trading.

Lemma get_usdt_inr_rate_run s :
  _get_usdt_inr_rate s =
    match (if rate_refresh_due s then refresh_ticker_cache s else (Ok tt, s)) with
    | (Ok _, s1) =>
        (Ok (if rate_missing (_ticker_cache (globals s1) !! "USDTINR") then 90%Q
             else default 90%Q (_ticker_cache (globals s1) !! "USDTINR")), s1)
    | (Raise e, s1) => (Raise e, s1)
    end.
Proof.
  unfold _get_usdt_inr_rate, rate_refresh_due.
  rewrite run_bind. simpl. rewrite run_bind. simpl. rewrite run_bind.
  destruct (negb _ || _).
  - destruct (refresh_ticker_cache s) as [[[]|e] s1]; [|reflexivity].
    rewrite run_bind. simpl. by destruct (rate_missing _).
  - simpl. rewrite run_bind. simpl. by destruct (rate_missing _).
Qed.



End Rate.

(** ** Price lookups *)

Section PriceLookup.
Context {W : World}.
Import Trading.

Lemma get_price_http_present symbol s price :
  _ticker_cache (globals s) !! upper symbol = Some price →
  get_price_http symbol s = (Ok (cached_reply (upper symbol) price s), s).
Proof.
  intros H. unfold get_price_http, mbind, M_bind, bind. simpl. rewrite H. simpl.
  rewrite H. reflexivity.
Qed.

Lemma get_price_http_absent symbol s :
  _ticker_cache (globals s) !! upper symbol = None →
  get_price_http symbol s =
    match refresh_ticker_cache s with
    | (Ok _, s1) =>
        match _ticker_cache (globals s1) !! upper symbol with
        | Some price => (Ok (cached_reply (upper symbol) price s1), s1)
        | None => (Raise (HTTPException 404 "Symbol not found"), s1)
        end
    | (Raise e, s1) => (Raise e, s1)
    end.
Proof.
  intros H. unfold get_price_http, mbind, M_bind, bind.
  cbn -[refresh_ticker_cache]. rewrite H.
  destruct (refresh_ticker_cache s) as [[[]|e] s1]; [|reflexivity].
  cbn. destruct (_ticker_cache (globals s1) !! upper symbol) as [p|] eqn:E; cbn.
  - by rewrite E.
  - reflexivity.
Qed.
End PriceLookup.

Section ExchangeFacts.
Context {W : World}.
Import ExchangeSvc.

Lemma requests_get_run url s :
  ∃ r, requests_get url s = (r, Rt (globals s) (now s) (GET url [] None :: net_log s)) ∧
       ∀ e, r = Raise e → is_Exception e = true.
Proof.
  unfold requests_get, mbind, M_bind, bind, perform.
  destruct (answer _ _); simpl; eexists; split; try reflexivity; by intros e [= <-].
Qed.

Lemma json_of_exception body e : json_of body = Raise e → is_Exception e = true.
Proof. destruct body; simpl; [done|]. by intros [= <-]. Qed.

Lemma py_in_exception k j e : py_in k j = Raise e → is_Exception e = true.
Proof. destruct j; simpl; try done; by intros [= <-]. Qed.

Lemma py_getitem_exception k j e : py_getitem k j = Raise e → is_Exception e = true.
Proof.
  destruct j; simpl; try (by intros [= <-]).
  destruct (assoc k kv); [done|]. by intros [= <-].
Qed.

Lemma first_price_dyn_exception pks first e :
  first_price_dyn pks first = Raise e → is_Exception e = true.
Proof.
  induction pks as [|pk pks IH]; simpl; [done|].
  destruct (py_in pk first) as [b|e'] eqn:Hin; simpl.
  - destruct b; [|done].
    destruct (py_getitem pk first) as [v|e'] eqn:Hg; simpl.
    + destruct (is_None v); [done|]. by destruct (py_float v).
    + intros [= <-]. by eapply py_getitem_exception.
  - intros [= <-]. by eapply py_in_exception.
Qed.

Lemma price_of_payload_exception payload e :
  price_of_payload payload = Raise e → is_Exception e = true.
Proof.
  destruct payload as [| | | |l|kv]; cbn -[first_price first_price_dyn dict_get]; try done.
  - destruct l as [|[] ?]; done.
  - destruct (first_price ["price"; "last_price"; "last"; "close"] kv); [done|].
    destruct (dict_get "data" kv) as [| | | |[|first l]|];
      cbn -[first_price first_price_dyn dict_get]; try done;
      try by destruct (dict_get "ticker" kv).
    destruct (first_price_dyn _ first) as [[q|]|e'] eqn:E;
      cbn -[first_price first_price_dyn dict_get]; try done.
    + by destruct (dict_get "ticker" kv).
    + intros [= <-]. by eapply first_price_dyn_exception.
Qed.

(** The bulk lookup and the candidate endpoints catch what they raise. *)
Lemma try_bulk_returns key s :
  ∃ found, try_bulk key s
           = (Ok found, Rt (globals s) (now s) (bulk_request s :: net_log s)).
Proof.
  unfold try_bulk, try_except. rewrite run_bind. simpl.
  destruct (requests_get_run (base_url (globals s) +:+ "/exchange/ticker") s)
    as (r & Hr & He).
  rewrite run_bind, Hr. destruct r as [[body|]|e]; simpl.
  - unfold lift. destruct (json_of body) as [j|e] eqn:Hj; simpl.
    + destruct j; eauto.
    + rewrite (json_of_exception _ _ Hj). eauto.
  - eauto.
  - rewrite (He e eq_refl). eauto.
Qed.

Lemma try_candidates_returns paths : ∀ s,
  ∃ found s', try_candidates paths s = (Ok found, s') ∧
              globals s' = globals s ∧ now s' = now s ∧
              net_log s `suffix_of` net_log s'.
Proof.
  induction paths as [|path paths IH]; intros s; simpl.
  - by exists None, s.
  - rewrite run_bind. simpl. rewrite run_bind. unfold try_except at 1.
    rewrite run_bind.
    destruct (requests_get_run (base_url (globals s) +:+ path) s) as (r & Hr & He).
    rewrite Hr.
    set (s1 := Rt (globals s) (now s) _).
    assert (net_log s `suffix_of` net_log s1) as Hlog by by apply suffix_cons_r.
    assert (∃ found, (match r with
                      | Ok a => match a with
                                | Some body => payload ← lift (json_of body); lift (price_of_payload payload)
                                | None => mret None
                                end s1
                      | Raise e => (Raise e, s1)
                      end) = (found, s1) ∧ ∀ e, found = Raise e → is_Exception e = true)
      as (found & -> & Hf).
    { destruct r as [[body|]|e]; simpl.
      - rewrite run_bind. unfold lift. destruct (json_of body) as [j|e] eqn:Hj; simpl.
        + eexists; split; [reflexivity|]. intros e. apply price_of_payload_exception.
        + eexists; split; [reflexivity|]. intros e' [= <-]. by eapply json_of_exception.
      - eexists; split; [reflexivity|]. intros e' ?; discriminate.
      - eexists; split; [reflexivity|]. intros e' [= <-]. by apply He. }
    destruct found as [[[price url]|]|e]; simpl.
    + eauto 10.
    + destruct (IH s1) as (f & s' & -> & Hg & Hn & Hl).
      eexists _, _. split; [reflexivity|]. repeat split; try done. by etrans.
    + rewrite (Hf e eq_refl). simpl.
      destruct (IH s1) as (f & s' & -> & Hg & Hn & Hl).
      eexists _, _. split; [reflexivity|]. repeat split; try done. by etrans.
Qed.

Lemma get_cached_run key s :
  _get_cached key s =
    (Ok (match _cache (globals s) !! key with
         | Some ent => if fresh s ent then Some ent else None
         | None => None
         end), s).
Proof.
  unfold _get_cached, fresh, mbind, M_bind, bind. simpl.
  destruct (_cache (globals s) !! key) as [ent|]; [|reflexivity].
  by destruct (q_leb _ _).
Qed.

(** A fresh entry is answered from the cache, without a request. *)
Lemma get_price_fresh symbol s ent :
  symbol ≠ "" →
  _cache (globals s) !! _normalize symbol = Some ent →
  fresh s ent = true →
  get_price symbol s =
    (Ok {| quote_symbol := symbol; quote_price := price ent;
           quote_source := source ent; quote_ts := py_int (ts ent * 1000) |}, s).
Proof.
  intros Hs Hc Hf. unfold get_price.
  destruct (String.eqb_spec symbol ""); [done|].
  rewrite run_bind, get_cached_run, Hc, Hf. reflexivity.
Qed.

(** Without a fresh entry the ticker endpoint is asked, and whatever the
    endpoints answer a quote is returned and cached: when none of them
    yields a price, it is the synthetic [fallback_price]. *)
Lemma get_price_stale symbol s :
  symbol ≠ "" →
  match _cache (globals s) !! _normalize symbol with
  | Some ent => fresh s ent = false
  | None => True
  end →
  ∃ q s',
    get_price symbol s = (Ok q, s') ∧
    (bulk_request s :: net_log s) `suffix_of` net_log s' ∧
    _cache (globals s') !! _normalize symbol
      = Some {| price := quote_price q; ts := now s; source := quote_source q |} ∧
    (∀ s1 s2,
       try_bulk (_normalize symbol) s = (Ok None, s1) →
       try_candidates (candidate_paths (_normalize symbol)) s1 = (Ok None, s2) →
       q = {| quote_symbol := symbol;
              quote_price := fallback_price (_normalize symbol) (now s);
              quote_source := "fallback"; quote_ts := py_int (now s * 1000) |}).
Proof.
  intros Hs Hc. unfold get_price.
  destruct (String.eqb_spec symbol ""); [done|].
  set (key := _normalize symbol) in *.
  rewrite run_bind, get_cached_run.
  assert (match _cache (globals s) !! key with
          | Some ent => if fresh s ent then Some ent else None
          | None => None
          end = None) as ->.
  { destruct (_cache (globals s) !! key); [by rewrite Hc|done]. }
  rewrite run_bind.
  destruct (try_bulk_returns key s) as (bulk & Hbulk). rewrite Hbulk.
  set (s1 := Rt (globals s) (now s) _) in *.
  destruct bulk as [p|].
  - eexists _, _. split; [reflexivity|]. cbn -[try_candidates try_bulk candidate_paths].
    split; [done|]. split; [by rewrite lookup_insert_eq|]. intros ? ? [=].
  - rewrite run_bind.
    destruct (try_candidates_returns (candidate_paths key) s1)
      as (cand & s2 & Hrun & Hg & Hn & Hlog).
    rewrite Hrun. destruct cand as [[p url]|].
    + eexists _, _. split; [reflexivity|]. cbn -[try_candidates try_bulk candidate_paths].
      split; [done|]. rewrite Hg, Hn. cbn -[try_candidates try_bulk candidate_paths]. split; [by rewrite lookup_insert_eq|].
      intros s1' s2' [= Heq]. rewrite <- Heq, Hrun. intros [=].
    + eexists _, _. split; [reflexivity|]. cbn -[try_candidates try_bulk candidate_paths].
      split; [done|]. rewrite Hg, Hn. cbn -[try_candidates try_bulk candidate_paths]. split; [by rewrite lookup_insert_eq|].
      done.
Qed.
End ExchangeFacts.

Section PriceLookupClaim.
Import Trading.

(** C3 (as amended).  [get_price_http] refreshes the ticker cache, once and
    before it answers, exactly when the symbol is absent from it: an entry
    that is present is served whatever its age.  When the symbol is still
    absent after the refresh the answer is the 404 "Symbol not found", never
    a substitute price (an exception of the refresh itself is passed on).
    [ExchangeService.get_price] answers from its cache while the entry is
    not older than its TTL, asks the exchange otherwise, and then always
    returns a quote: when no endpoint yields a price, a synthetic one. *)
Theorem price_lookup_refresh_and_not_found {W : World} :
  (∀ symbol s price,
     _ticker_cache (globals s) !! upper symbol = Some price →
     get_price_http symbol s = (Ok (cached_reply (upper symbol) price s), s)) ∧
  (∀ symbol s r s1,
     _ticker_cache (globals s) !! upper symbol = None →
     refresh_ticker_cache s = (r, s1) →
     (ticker_request :: net_log s) `suffix_of` net_log s1 ∧
     get_price_http symbol s =
       match r with
       | Ok _ =>
           match _ticker_cache (globals s1) !! upper symbol with
           | Some price => (Ok (cached_reply (upper symbol) price s1), s1)
           | None => (Raise (HTTPException 404 "Symbol not found"), s1)
           end
       | Raise e => (Raise e, s1)
       end) ∧
  (∀ symbol s ent,
     symbol ≠ "" →
     ExchangeSvc._cache (globals s) !! ExchangeSvc._normalize symbol = Some ent →
     fresh s ent = true →
     ExchangeSvc.get_price symbol s =
       (Ok {| ExchangeSvc.quote_symbol := symbol;
              ExchangeSvc.quote_price := ExchangeSvc.price ent;
              ExchangeSvc.quote_source := ExchangeSvc.source ent;
              ExchangeSvc.quote_ts := py_int (ExchangeSvc.ts ent * 1000) |}, s)) ∧
  (∀ symbol s,
     symbol ≠ "" →
     match ExchangeSvc._cache (globals s) !! ExchangeSvc._normalize symbol with
     | Some ent => fresh s ent = false
     | None => True
     end →
     ∃ q s',
       ExchangeSvc.get_price symbol s = (Ok q, s') ∧
       (bulk_request s :: net_log s) `suffix_of` net_log s' ∧
       (∀ s1 s2,
          ExchangeSvc.try_bulk (ExchangeSvc._normalize symbol) s = (Ok None, s1) →
          ExchangeSvc.try_candidates
            (ExchangeSvc.candidate_paths (ExchangeSvc._normalize symbol)) s1 = (Ok None, s2) →
          q = {| ExchangeSvc.quote_symbol := symbol;
                 ExchangeSvc.quote_price := fallback_price (ExchangeSvc._normalize symbol) (now s);
                 ExchangeSvc.quote_source := "fallback";
                 ExchangeSvc.quote_ts := py_int (now s * 1000) |})).
Proof.
  split; [|split; [|split]].
  - intros symbol s price. apply get_price_http_present.
  - intros symbol s r s1 Habs Hr. split; [by eapply refresh_ticker_cache_log|].
    rewrite (get_price_http_absent _ _ Habs), Hr. by destruct r as [[]|].
  - intros symbol s ent. apply get_price_fresh.
  - intros symbol s Hs Hc.
    destruct (get_price_stale symbol s Hs Hc) as (q & s' & Hq & Hl & _ & Hf).
    eauto.
Qed.

(** With nothing reachable, an absent symbol is a 404 after one refresh,
    while [ExchangeService.get_price] makes a price up. *)
Lemma price_lookup_refresh_and_not_found_witness :
  get_price_http (W:=Scenario.offline) "ethusdt" Scenario.stale_cache
    = (Raise (HTTPException 404 "Symbol not found"),
       Rt Scenario.stale_store 1000 [ticker_request]) ∧
  ∃ q s', ExchangeSvc.get_price (W:=Scenario.offline) "btcusdt" Scenario.service = (Ok q, s') ∧
          ExchangeSvc.quote_source q = "fallback".
Proof.
  split.
  - refine (proj2 (proj1 (proj2 (price_lookup_refresh_and_not_found (W:=Scenario.offline)))
             "ethusdt" Scenario.stale_cache (Ok tt)
             (Rt Scenario.stale_store 1000 [ticker_request]) _ _)); vm_compute; reflexivity.
  - destruct (proj2 (proj2 (proj2 (price_lookup_refresh_and_not_found (W:=Scenario.offline))))
               "btcusdt" Scenario.service) as (q & s' & Hq & _ & Hf).
    + vm_compute. intros [=].
    + vm_compute. exact I.
    + exists q, s'. split; [exact Hq|].
      erewrite (Hf _ _); [reflexivity| vm_compute; reflexivity | vm_compute; reflexivity].
Defined.

(** C3, as stated, fails: the cached BTCUSDT price is 1000 seconds old,
    more than the 10 seconds of the claim, and [get_price_http] answers
    with it without any refresh (the state, log included, is unchanged). *)
Lemma stale_price_served_without_refresh :
  (10 < now Scenario.stale_cache
        - _ticker_cache_updated_at (globals Scenario.stale_cache))%Q ∧
  get_price_http (W:=Scenario.feeding Scenario.btc_feed false) "btcusdt" Scenario.stale_cache
    = (Ok {| reply_symbol := "BTCUSDT"; reply_price := 60000; reply_source := "cache";
             reply_ts := 0 |}, Scenario.stale_cache).
Proof. split; [reflexivity | vm_compute; reflexivity]. Qed.
End PriceLookupClaim.

(** ** The polling loops *)

Section Loops.
Import Trading.

(** What can escape a refresh-and-broadcast: a cancellation, or the
    failure of a send. *)
Lemma ws_send_raises {W : World} ws m (s : rt store) e s' :
  ws_send ws m s = (Raise e, s') → e = CancelledError ∨ e = PyError "WebSocketDisconnect".
Proof.
  unfold ws_send, mbind, M_bind, bind, perform.
  destruct (answer _ _); intros [= <- <-]; auto.
Qed.

Lemma push_symbols_raises {W : World} ws subs : ∀ s e s',
  push_symbols ws subs s = (Raise e, s') →
  e = CancelledError ∨ e = PyError "WebSocketDisconnect".
Proof.
  induction subs as [|x subs IH]; intros s e s'; simpl; [done|].
  rewrite run_bind. simpl.
  destruct (_ticker_cache (globals s) !! x); [|apply IH].
  rewrite run_bind. simpl. rewrite run_bind.
  destruct (ws_send _ _ _) as [[[]|e1] s1] eqn:E.
  - apply IH.
  - intros [= <- <-]. by eapply ws_send_raises.
Qed.

Lemma push_connections_raises {W : World} conns : ∀ s e s',
  push_connections conns s = (Raise e, s') →
  e = CancelledError ∨ e = PyError "WebSocketDisconnect".
Proof.
  induction conns as [|ws conns IH]; intros s e s'; simpl; [done|].
  rewrite run_bind. simpl. rewrite run_bind.
  destruct (push_symbols _ _ _) as [[[]|e1] s1] eqn:E.
  - apply IH.
  - intros [= <- <-]. by eapply push_symbols_raises.
Qed.

Lemma refresh_ticker_cache_raises {W : World} s e s' :
  refresh_ticker_cache s = (Raise e, s') →
  e = CancelledError ∨ e = PyError "WebSocketDisconnect".
Proof.
  rewrite refresh_ticker_cache_run.
  destruct (_original_refresh s) as [[[]|e1] s1] eqn:E.
  - unfold _broadcast_price_updates. rewrite run_bind. simpl.
    destruct (elements _) as [|ws conns]; [done|].
    apply (push_connections_raises (ws :: conns)).
  - intros [= <- <-]. apply original_refresh_no_exception in E as [|[= ->]]; [done|auto].
Qed.

(** A cycle whose refresh-and-broadcast raises ends the loop of
    [trading.py] with that exception, unless it is the cancellation. *)
Lemma ticker_background_loop_dies {W : World} n s e s' :
  refresh_ticker_cache s = (Raise e, s') →
  ticker_background_loop (S n) s =
    (match e with CancelledError => Ok Returned | _ => Raise e end, s').
Proof.
  intros H. unfold ticker_background_loop, try_cancelled. simpl.
  rewrite run_bind, H. by destruct e.
Qed.

(** C5 at its failing input: one subscriber whose socket no longer accepts
    a send.  The first cycle of [ticker_background_loop] refreshes the
    cache, the push to the subscriber raises, and the loop is over: the
    exception leaves the task, however many cycles were still to come. *)
Theorem ticker_background_loop_killed_by_failed_send (n : nat) :
  ∃ s',
    ticker_background_loop (W:=Scenario.feeding Scenario.btc_feed true) (S n)
      Scenario.subscribed
    = (Raise (PyError "WebSocketDisconnect"), s') ∧
    _ticker_cache (globals s') = {[ "BTCUSDT" := 61000%Q ]} ∧
    ∀ r, r ∈ net_log s' → ∀ d, r ≠ SLEEP d.
Proof.
  eexists. split; [|split].
  - apply (ticker_background_loop_dies (W:=Scenario.feeding Scenario.btc_feed true) n
             Scenario.subscribed (PyError "WebSocketDisconnect")).
    vm_compute. reflexivity.
  - vm_compute. reflexivity.
  - intros r Hr d ->. simpl in Hr.
    repeat (apply elem_of_cons in Hr as [Hr|Hr]; [discriminate|]).
    by apply elem_of_nil in Hr.
Qed.
End Loops.

Section BroadcasterFacts.
Context {W : World}.
Import Broadcaster.

Lemma try_except_swallows {G A} (m : M G A) (a : A) s r s' :
  try_except m (λ _, mret a) s = (r, s') → ∀ e, r = Raise e → e = CancelledError.
Proof.
  unfold try_except. destruct (m s) as [[x|e0] s1].
  - intros [= <- <-] e [=].
  - destruct e0; simpl; intros [= <- <-] e [=]; done.
Qed.

Lemma sleep_raises {G} d (s : rt G) e s' :
  sleep d s = (Raise e, s') → e = CancelledError.
Proof.
  unfold sleep, perform. destruct (answer _ _); intros [= <- <-]; done.
Qed.

(** The loop of [PriceBroadcaster] lets no [Exception] out: whatever a
    cycle raises is swallowed inside that cycle. *)
Lemma poll_loop_contains_failures n : ∀ s e s',
  _poll_loop n s = (Raise e, s') → e = CancelledError.
Proof.
  induction n as [|n IH]; intros s e s'; simpl; [done|].
  rewrite run_bind. simpl. destruct (_running (globals s)); [|done].
  rewrite run_bind.
  destruct (poll_once s) as [[[]|e1] s1] eqn:E.
  - rewrite run_bind. unfold try_cancelled at 1. rewrite run_bind.
    destruct (sleep POLL_INTERVAL s1) as [[[]|e2] s2] eqn:Es; simpl.
    + apply IH.
    + apply sleep_raises in Es as ->. done.
  - intros [= <- <-]. unfold poll_once in E.
    by eapply try_except_swallows in E.
Qed.
End BroadcasterFacts.

Section StaleCache.

(** C4 at its failing input: the exchange answers the ticker request of
    [PriceBroadcaster._poll_loop] with an empty list.  The cycle succeeds and
    the mapping, which held a price, is replaced by the empty one; the
    refresh of [trading.py] keeps its mapping and timestamp on the same
    answer. *)
Theorem poll_loop_replaces_tickers_by_empty_result :
  (∃ s', Broadcaster.poll_once (W:=Scenario.feeding (JArr []) false) Scenario.broadcaster
           = (Ok tt, s') ∧
         Broadcaster.tickers (globals Scenario.broadcaster) !! "BTCUSDT" = Some 60000%Q ∧
         Broadcaster.tickers (globals s') = ∅) ∧
  (∃ s', Trading.refresh_ticker_cache (W:=Scenario.feeding (JArr []) false) Scenario.stale_cache
           = (Ok tt, s') ∧
         Trading._ticker_cache (globals s') = {[ "BTCUSDT" := 60000%Q ]} ∧
         Trading._ticker_cache_updated_at (globals s') = 0%Q).
Proof.
  split; eexists; (split; [vm_compute; reflexivity|]); split; vm_compute; reflexivity.
Qed.
End StaleCache.

(** ** Order sizing *)

Section Sizing.
Context {W : World}.
Import Trading.

Lemma order_head_run ref s r s1 :
  order_head ref s = (r, s1) →
  now s1 = now s ∧ net_log s1 = net_log s ∧
  _order_next_id (globals s1) = _order_next_id (globals s) ∧
  match r with
  | Ok h =>
      L.margin_ccy h = "INR" ∧
      ∃ o, _orders (globals s) !! ref = Some o ∧
           _orders (globals s1)
             = <[ref := set_last_client_order_id (L.client_order_id h) o]> (_orders (globals s))
  | Raise _ => s1 = s
  end.
Proof.
  unfold order_head. rewrite run_bind. simpl.
  destruct (_orders (globals s) !! ref) as [o|] eqn:Ho; [|intros [= <- <-]; done].
  destruct (opt_or _ _) as [price|]; [|intros [= <- <-]; done].
  destruct (q_is_zero price); [intros [= <- <-]; done|].
  rewrite run_bind. simpl. rewrite run_bind. simpl.
  intros [= <- <-]. simpl. repeat split; eauto.
Qed.

(** After the head of [place_order_on_coindcx], the only thing that
    touches the queue or posts an order is [submit]. *)
Lemma gather_run ref s x s' :
  gather ref s = (x, s') →
  match order_head ref s with
  | (Ok h, s1) => frame s1 s' ∧ ∀ i, x = Ok (inr i) → L.hd i = h
  | (Raise e, s1) => x = Raise e ∧ s' = s1
  end.
Proof.
  unfold gather. rewrite run_bind.
  destruct (order_head ref s) as [[h|e] s1]; [|by intros [= <- <-]].
  intros H. split.
  - revert x s' H. change (keeps_at frame s1 (
      wb ← wallet_step;
      match wb with
      | Some wallet_balance =>
          active_instruments ← get_active_instruments (L.margin_ccy h);
          if negb (bool_decide (L.pair h ∈ active_instruments))
          then
            let sample := take 30 (sorted (elements active_instruments)) in
            mret (inl (instrument_not_active (L.pair h) (L.symbol h) (L.margin_ccy h) sample))
          else
            inst ← get_instrument_details (L.pair h) (L.margin_ccy h);
            figures ← lift (read_instrument inst);
            usdt_inr_rate ← _get_usdt_inr_rate;
            mret (inr {| L.hd := h; L.wallet_balance := wallet_balance;
                         L.inst := figures; L.usdt_inr_rate := usdt_inr_rate |})
      | None => mret (inl no_inr_futures_wallet)
      end)).
    keeps_step; [apply framed_wallet_step|].
    keeps_step; [|framed].
    keeps_step; [apply framed_get_active_instruments|].
    keeps_step; [framed|].
    keeps_step; [apply framed_get_instrument_details|].
    keeps_step; [framed|].
    keeps_step; [apply framed_get_usdt_inr_rate|framed].
  - revert H. rewrite run_bind.
    destruct (wallet_step s1) as [[[wb|]|e] s2]; [|by intros [= <- <-]..].
    rewrite run_bind.
    destruct (get_active_instruments _ s2) as [[act|e] s3]; [|by intros [= <- <-]].
    destruct (negb _); [by intros [= <- <-]|].
    rewrite run_bind.
    destruct (get_instrument_details _ _ s3) as [[inst|e] s4]; [|by intros [= <- <-]].
    rewrite run_bind. unfold lift at 1.
    destruct (read_instrument inst) as [fig|e]; [|by intros [= <- <-]].
    rewrite run_bind.
    destruct (_get_usdt_inr_rate s4) as [[rate|e] s5]; [|by intros [= <- <-]].
    by intros [= <- <-] i [= <-].
Qed.

Lemma gather_posts ref s x s' :
  gather ref s = (x, s') → order_posts (net_log s') = order_posts (net_log s).
Proof.
  intros H. apply gather_run in H.
  destruct (order_head ref s) as [[h|e] s1] eqn:E;
    apply order_head_run in E as (_ & Hl & _ & _).
  - destruct H as [[] _]. congruence.
  - destruct H as [_ ->]. congruence.
Qed.


Lemma size_order_run i :
  size_order i =
    match contracts_step_of i with
    | Ok step =>
        if q_ltb step (L.min_quantity (L.inst i)) then
          Ok (inl (trade_size_too_small_for_instrument (L.pair (L.hd i)) (L.symbol (L.hd i))
                     (L.min_quantity (L.inst i)) (L.quantity_increment (L.inst i))))
        else if q_ltb (L.max_quantity (L.inst i)) step then
          Ok (inl (trade_size_too_large_for_instrument (L.pair (L.hd i)) (L.symbol (L.hd i))
                     (L.max_quantity (L.inst i))))
        else if q_ltb (L.wallet_balance i) (estimated_margin_of i (total_quantity_of step)) then
          Ok (inl (estimated_margin_exceeds_balance
                     (estimated_margin_of i (total_quantity_of step)) (L.wallet_balance i)))
        else Ok (inr (total_quantity_of step))
    | Raise e => Raise e
    end.
Proof. unfold size_order. by destruct (contracts_step_of i). Qed.


Lemma submit_payload h total_quantity s r s' payload status text :
  submit h total_quantity s = (r, s') → r = Ok (Sent payload status text) →
  payload = order_payload h total_quantity.
Proof.
  unfold submit. destruct COINDCX_API_SECRET; [|by intros [= <- <-]].
  rewrite run_bind. unfold perform at 1.
  destruct (answer _ _); try by intros [= <- <-].
  by intros [= <- <-] [= <- <- <-].
Qed.

Lemma place_order_sent ref s payload status text s' :
  place_order_on_coindcx ref s = (Ok (Sent payload status text), s') →
  ∃ i s1 total_quantity,
    gather ref s = (Ok (inr i), s1) ∧
    size_order i = Ok (inr total_quantity) ∧
    payload = order_payload (L.hd i) total_quantity.
Proof.
  unfold place_order_on_coindcx. rewrite run_bind.
  destruct (gather ref s) as [[[rej|i]|e] s1] eqn:Hg; [| |done].
  - intros [= -> <-]. exfalso.
    revert Hg. unfold gather. rewrite run_bind.
    destruct (order_head ref s) as [[h|e] s0]; [|done].
    rewrite run_bind. destruct (wallet_step s0) as [[[wb|]|e] s2]; [|done..].
    rewrite run_bind.
    destruct (get_active_instruments _ s2) as [[act|e] s3]; [|done].
    destruct (negb _); [done|].
    rewrite run_bind.
    destruct (get_instrument_details _ _ s3) as [[inst|e] s4]; [|done].
    rewrite run_bind. unfold lift at 1.
    destruct (read_instrument inst) as [fig|e]; [|done].
    rewrite run_bind.
    by destruct (_get_usdt_inr_rate s4) as [[rate|e] s5].
  - unfold size_and_submit.
    destruct (size_order i) as [[rej|tq]|e] eqn:Hs; [| |done].
    + intros [= -> <-]. exfalso. revert Hs. rewrite size_order_run.
      destruct (contracts_step_of i); [|done].
      repeat (destruct (q_ltb _ _); [done|]). done.
    + intros H. exists i, s1, tq. repeat split; [done|].
      by eapply submit_payload.
Qed.

(** A dict with ["sent": False] means that nothing was posted. *)
Lemma unsent_means_not_posted ref s r s' :
  place_order_on_coindcx ref s = (Ok r, s') → sent r = false →
  order_posts (net_log s') = order_posts (net_log s).
Proof.
  unfold place_order_on_coindcx. rewrite run_bind.
  destruct (gather ref s) as [[[rej|i]|e] s1] eqn:Hg; [| |by intros [=]];
    apply gather_posts in Hg.
  - by intros [= <- <-] _.
  - unfold size_and_submit. destruct (size_order i) as [[rej|tq]|e]; [| |by intros [=]].
    + by intros [= <- <-] _.
    + unfold submit. destruct COINDCX_API_SECRET; [|by intros [=]].
      rewrite run_bind. unfold perform at 1.
      destruct (answer _ _); try by intros [=].
      by intros [= <- <-] [=].
Qed.


(** C2.  When the arithmetic of [place_order_on_coindcx] gets as far as
    the margin (everything was fetched, the rounded quantity is within the
    instrument's bounds) and the estimated margin exceeds the fetched wallet
    balance, the call returns the dict of [estimated_margin_exceeds_balance]
    with both figures, in the state the fetches left: the run has posted
    nothing to the order endpoint. *)
Theorem margin_gate ref s i s1 contracts_step :
  gather ref s = (Ok (inr i), s1) →
  contracts_step_of i = Ok contracts_step →
  (L.min_quantity (L.inst i) <= contracts_step)%Q →
  (contracts_step <= L.max_quantity (L.inst i))%Q →
  (L.wallet_balance i < estimated_margin_of i (total_quantity_of contracts_step))%Q →
  place_order_on_coindcx ref s
    = (Ok (estimated_margin_exceeds_balance
             (estimated_margin_of i (total_quantity_of contracts_step))
             (L.wallet_balance i)), s1) ∧
  order_posts (net_log s1) = order_posts (net_log s).
Proof.
  intros Hg Hstep Hmin Hmax Hm. split; [|by eapply gather_posts].
  unfold place_order_on_coindcx. rewrite run_bind, Hg.
  unfold size_and_submit. rewrite size_order_run, Hstep.
  rewrite <- q_ltb_ge in Hmin, Hmax. rewrite Hmin, Hmax.
  rewrite <- q_ltb_lt in Hm. by rewrite Hm.
Qed.

(** C6.  Once the order has a price and an INR futures wallet was found
    (the two checks that precede the gate), an order whose pair is not in
    the set returned by [get_active_instruments] is answered with the dict of
    [instrument_not_active], carrying the derived pair and symbol.  The call
    ends in the state the instrument lookup left: up to there only the
    wallets and the active-instruments endpoints were asked, so neither the
    instrument details nor the rate were fetched, no quantity was computed
    (whatever the order's [qty] and the instrument's figures are) and no
    order was posted for this or any other pair. *)
Theorem instrument_gate ref s h s1 wallet_balance s2 active s3 :
  order_head ref s = (Ok h, s1) →
  wallet_step s1 = (Ok (Some wallet_balance), s2) →
  get_active_instruments (L.margin_ccy h) s2 = (Ok active, s3) →
  L.pair h ∉ active →
  place_order_on_coindcx ref s
    = (Ok (instrument_not_active (L.pair h) (L.symbol h) "INR"
             (take 30 (sorted (elements active)))), s3) ∧
  ∃ l, net_log s3 = l ++ net_log s ∧ Forall gate_request l.
Proof.
  intros Hh Hw Ha Hp. split.
  - unfold place_order_on_coindcx, gather. rewrite !run_bind, Hh.
    rewrite run_bind, Hw. rewrite run_bind, Ha.
    rewrite bool_decide_eq_false_2 by done. simpl.
    apply order_head_run in Hh as (_ & _ & _ & -> & _). reflexivity.
  - apply order_head_run in Hh as (_ & <- & _).
    apply wallet_step_requests in Hw as [_ (l1 & H1 & F1)].
    apply get_active_instruments_requests in Ha as [_ (l2 & H2 & F2)].
    exists (l2 ++ l1). split; [by rewrite H2, H1, app_assoc|].
    apply Forall_app. split.
    + eapply Forall_impl; [exact F2|]. intros r Hr. by right.
    + eapply Forall_impl; [exact F1|]. intros r Hr. by left.
Qed.
End Sizing.

Section SizingExamples.
Import Trading.

(** The queue of the example on an exchange where only B-ETH_USDT is
    active. *)
Lemma instrument_gate_witness :
  ∃ sample s',
    place_order_on_coindcx (W:=Scenario.exchange 5000 ["B-ETH_USDT"] Scenario.btc_instrument)
      0 Scenario.example_queue
    = (Ok (instrument_not_active "B-BTC_USDT" "BTCUSDT" "INR" sample), s').
Proof.
  edestruct (instrument_gate
               (W:=Scenario.exchange 5000 ["B-ETH_USDT"] Scenario.btc_instrument)
               0 Scenario.example_queue) as [H _].
  - vm_compute. reflexivity.
  - vm_compute. reflexivity.
  - vm_compute. reflexivity.
  - simpl. intros Hin. apply (bool_decide_pack _) in Hin. vm_compute in Hin. exact Hin.
  - eexists _, _. exact H.
Defined.

(** The rejected example of the design document: the same order on a
    wallet of INR 500. *)
Lemma margin_gate_witness :
  ∃ estimated_margin s',
    place_order_on_coindcx (W:=Scenario.exchange 500 ["B-BTC_USDT"] Scenario.btc_instrument)
      0 Scenario.example_queue
    = (Ok (estimated_margin_exceeds_balance estimated_margin 500), s') ∧
    order_posts (net_log s') = [].
Proof.
  edestruct (margin_gate
               (W:=Scenario.exchange 500 ["B-BTC_USDT"] Scenario.btc_instrument)
               0 Scenario.example_queue) as [H Hp].
  - vm_compute. reflexivity.
  - vm_compute. reflexivity.
  - vm_compute. discriminate.
  - vm_compute. discriminate.
  - vm_compute. reflexivity.
  - eexists _, _. split; [exact H | exact Hp].
Defined.



End SizingExamples.

(** ** Order execution *)

Section Execution.
Context {W : World}.
Import Trading.

#[global] Instance same_orders_preorder : PreOrder same_orders.
Proof.
  split.
  - by intros s.
  - intros s1 s2 s3 (? & ? & ?) (? & ? & ?). repeat split; congruence.
Qed.

Lemma frame_same_orders s s' : frame s s' → same_orders s s'.
Proof. intros []. repeat split; congruence. Qed.


Lemma place_order_same_orders ref : keeps same_orders (place_order_on_coindcx ref).
Proof.
  intros s. unfold place_order_on_coindcx.
  apply keeps_at_bind; [apply _| |].
  - intros x s1 Hg. apply gather_run in Hg.
    destruct (order_head ref s) as [[h|e] s0] eqn:Hh;
      apply order_head_run in Hh as (_ & _ & Hn & Hh).
    + destruct Hg as [Hf _]. destruct Hh as (_ & o & Ho & Hq).
      etrans; [|by apply frame_same_orders].
      repeat split; [| |done]; rewrite Hq, list_fmap_insert; apply list_insert_id;
        by rewrite list_lookup_fmap, Ho.
    + destruct Hg as [_ ->]. by subst.
  - intros [rej|i] s1 _; [apply keeps_at_ret; apply _|].
    unfold size_and_submit. destruct (size_order i) as [[rej|tq]|e].
    + apply keeps_at_ret; apply _.
    + unfold submit. destruct COINDCX_API_SECRET; [|apply keeps_at_raise; apply _].
      keeps_step; [keeps_step; by repeat split|]. keeps_auto.
    + apply keeps_at_raise; apply _.
Qed.





Lemma filter_not_executed (ex : list Z) (l : list queued_order) :
  id <$> filter (λ o, id o ∉ ex) l = filter (λ oid, oid ∉ ex) (id <$> l).
Proof.
  induction l as [|o l IH]; [done|].
  rewrite fmap_cons, !filter_cons.
  destruct (decide (id o ∉ ex)); [rewrite fmap_cons|]; by rewrite IH.
Qed.



End Execution.

Section ExecutionExamples.
Import Trading.


End ExecutionExamples.

(** * Further properties *)

(** ** Upper-casing *)

Section Strings.

Lemma upper_ascii_idempotent c : upper_ascii (upper_ascii c) = upper_ascii c.
Proof. by destruct c as [[] [] [] [] [] [] [] []]. Qed.

Lemma upper_idempotent s : upper (upper s) = upper s.
Proof.
  induction s as [|c s IH]; simpl; [done|].
  by rewrite upper_ascii_idempotent, IH.
Qed.

End Strings.

(** ** The endpoints of the in-memory queue *)

Section QueueEndpoints.
Context {W : World}.
Import Trading Endpoints.

Lemma find_order_Some order_id orders : ∀ i idx existing,
  find_order order_id i orders = Some (idx, existing) →
  (i ≤ idx)%nat ∧ orders !! (idx - i)%nat = Some existing ∧ id existing = order_id ∧
  ∀ j o, (j < idx - i)%nat → orders !! j = Some o → id o ≠ order_id.
Proof.
  induction orders as [|o orders IH]; intros i idx existing; simpl; [done|].
  destruct (Z.eqb_spec (id o) order_id) as [He|Hne].
  - intros [= <- <-]. replace (i - i)%nat with 0%nat by lia.
    repeat split; [done|done|]. intros j o' Hj. lia.
  - intros H. apply IH in H as (Hle & Hl & Hid & Hbefore).
    split; [lia|]. replace (idx - i)%nat with (S (idx - S i)) by lia.
    repeat split; [done|done|].
    intros [|j] o' Hj; simpl; [by intros [= <-]|].
    apply Hbefore. lia.
Qed.

Lemma find_order_None order_id orders : ∀ i,
  find_order order_id i orders = None ↔ order_id ∉ (id <$> orders).
Proof.
  induction orders as [|o orders IH]; intros i; simpl.
  - split; [intros _; apply not_elem_of_nil | done].
  - rewrite not_elem_of_cons. destruct (Z.eqb_spec (id o) order_id) as [He|Hne].
    + split; [done|]. by intros [H _].
    + rewrite IH. split; [intros H; split; [congruence|done] | by intros [_ H]].
Qed.

(** X1.  [PUT /orders/{order_id}] of the in-memory queue.  An id that no queued
    order has is answered with 404 and changes nothing.  Otherwise the first
    order with that id gets the fields of the request, whatever they are,
    and keeps its id, its local id and the client order id of its last
    execution attempt; every other order, the order of the queue and the id
    counter stay as they were, and nothing is requested from outside. *)
Theorem update_order_replaces_fields_only order_id order s :
  let queue := _orders (globals s) in
  (order_id ∉ (id <$> queue) →
   update_order order_id order s = (Raise (HTTPException 404 "Order not found"), s)) ∧
  (order_id ∈ (id <$> queue) →
   ∃ idx existing updated s',
     update_order order_id order s = (Ok updated, s') ∧
     queue !! idx = Some existing ∧ id existing = order_id ∧
     (∀ j o, (j < idx)%nat → queue !! j = Some o → id o ≠ order_id) ∧
     data updated = order ∧ id updated = order_id ∧
     local_id updated = local_id existing ∧
     last_client_order_id updated = last_client_order_id existing ∧
     _orders (globals s') = <[idx := updated]> queue ∧
     (id <$> _orders (globals s')) = (id <$> queue) ∧
     _order_next_id (globals s') = _order_next_id (globals s) ∧
     net_log s' = net_log s).
Proof.
  intros queue. unfold update_order. rewrite run_bind. simpl. split.
  - intros Hn. apply (find_order_None _ _ 0%nat) in Hn. fold queue. by rewrite Hn.
  - intros Hin. fold queue.
    destruct (find_order order_id 0 queue) as [[idx existing]|] eqn:Hf.
    + apply find_order_Some in Hf as (_ & Hl & Hid & Hbefore).
      rewrite Nat.sub_0_r in Hl, Hbefore.
      eexists idx, existing, _, _. split; [reflexivity|]. simpl.
      repeat split; try done.
      rewrite list_fmap_insert. simpl. apply list_insert_id.
      by rewrite list_lookup_fmap, Hl.
    + apply find_order_None in Hf. done.
Qed.

End QueueEndpoints.

Section QueueIds.
Context {W : World}.
Import Trading Endpoints.

Lemma unique_ids_append g o :
  unique_ids g → id o = _order_next_id g →
  unique_ids (set_orders (_orders g ++ [o]) (_order_next_id g + 1) g).
Proof.
  intros [Hnd Hlt] Hid. unfold unique_ids. simpl. rewrite fmap_app. simpl. split.
  - apply NoDup_app. split; [done|]. split; [|apply NoDup_singleton].
    intros x Hx ->%list_elem_of_singleton.
    rewrite Forall_forall in Hlt. specialize (Hlt _ Hx). lia.
  - apply Forall_app. split.
    + eapply Forall_impl; [exact Hlt|]. simpl. intros; lia.
    + constructor; [lia|constructor].
Qed.

Lemma add_orders_bulk_loop_ids orders : ∀ created s r s',
  unique_ids (globals s) →
  add_orders_bulk_loop orders created s = (r, s') →
  unique_ids (globals s') ∧ _order_next_id (globals s) ≤ _order_next_id (globals s').
Proof.
  induction orders as [|o orders IH]; intros created s r s' Hu; simpl.
  - intros [= <- <-]. split; [done|lia].
  - rewrite run_bind. simpl. rewrite run_bind. simpl.
    intros H. apply IH in H as [H1 H2]; simpl in *.
    + split; [done|lia].
    + by apply unique_ids_append.
Qed.

Lemma update_order_ids order_id order s r s' :
  update_order order_id order s = (r, s') →
  (id <$> _orders (globals s')) = (id <$> _orders (globals s)) ∧
  _order_next_id (globals s') = _order_next_id (globals s).
Proof.
  unfold update_order. rewrite run_bind. simpl.
  destruct (find_order order_id 0 (_orders (globals s))) as [[idx existing]|] eqn:Hf.
  - apply find_order_Some in Hf as (_ & Hl & _). rewrite Nat.sub_0_r in Hl.
    intros [= <- <-]. simpl. split; [|done].
    rewrite list_fmap_insert. simpl. apply list_insert_id.
    by rewrite list_lookup_fmap, Hl.
  - by intros [= <- <-].
Qed.

Lemma execute_loop_same_orders id_map ids : ∀ b, keeps same_orders (execute_loop id_map ids b).
Proof.
  induction ids as [|oid ids IH]; intros b s; simpl.
  - apply keeps_at_ret. apply _.
  - destruct (id_map oid) as [found|]; [|apply IH].
    apply keeps_at_bind; [apply _|apply place_order_same_orders|].
    intros result s1 _. apply keeps_at_bind_get.
    destruct (success result); apply IH.
Qed.

Lemma filter_not_in_nil (l : list Z) : filter (λ oid, oid ∉ ([] : list Z)) l = l.
Proof.
  induction l as [|x l IH]; [done|].
  rewrite filter_cons_True; [by rewrite IH | apply not_elem_of_nil].
Qed.

Lemma execute_orders_ids ids s r s' :
  execute_orders ids s = (r, s') →
  (∃ ex : list Z, (id <$> _orders (globals s'))
         = filter (λ oid, oid ∉ ex) (id <$> _orders (globals s))) ∧
  _order_next_id (globals s') = _order_next_id (globals s).
Proof.
  unfold execute_orders. rewrite run_bind. simpl. rewrite run_bind.
  destruct (execute_loop _ ids _ s) as [[b|e] s1] eqn:Hloop.
  - apply execute_loop_same_orders in Hloop as (Hi & _ & Hn).
    rewrite run_bind. simpl. rewrite run_bind.
    destruct (omap _ (executed_refs b)) as [|o l] eqn:He.
    + simpl. intros [= <- <-]. split; [|done].
      exists []. by rewrite filter_not_in_nil.
    + simpl. intros [= <- <-]. simpl. split; [|done].
      eexists. rewrite filter_not_executed, Hi. reflexivity.
  - apply execute_loop_same_orders in Hloop as (Hi & _ & Hn).
    intros [= <- <-]. split; [|done].
    exists []. by rewrite filter_not_in_nil.
Qed.

Lemma unique_ids_filter g g' (ex : list Z) :
  unique_ids g →
  (id <$> _orders g') = filter (λ oid, oid ∉ ex) (id <$> _orders g) →
  _order_next_id g' = _order_next_id g →
  unique_ids g'.
Proof.
  intros [Hnd Hlt] Hi Hn. unfold unique_ids. rewrite Hi, Hn. split.
  - by apply NoDup_filter.
  - apply Forall_forall. intros x [_ Hx]%list_elem_of_filter.
    by apply (proj1 (Forall_forall _ _) Hlt).
Qed.

(** X2.  The ids of the in-memory queue.  If the ids of the queued orders are
    pairwise distinct and below the id counter, they still are after any
    call, returning or raising, of [add_order], [add_orders_bulk],
    [update_order] and [execute_orders]; the counter never decreases, so
    the id of an order that left the queue is not handed out again. *)
Theorem queue_ids_stay_unique s :
  unique_ids (globals s) →
  (∀ order r s', add_order order s = (r, s') →
     unique_ids (globals s') ∧ _order_next_id (globals s) ≤ _order_next_id (globals s')) ∧
  (∀ orders r s', add_orders_bulk orders s = (r, s') →
     unique_ids (globals s') ∧ _order_next_id (globals s) ≤ _order_next_id (globals s')) ∧
  (∀ order_id order r s', update_order order_id order s = (r, s') →
     unique_ids (globals s') ∧ _order_next_id (globals s) ≤ _order_next_id (globals s')) ∧
  (∀ ids r s', execute_orders ids s = (r, s') →
     unique_ids (globals s') ∧ _order_next_id (globals s) ≤ _order_next_id (globals s')).
Proof.
  intros Hu. split; [|split; [|split]].
  - intros order r s'. unfold add_order.
    destruct (_ || _); [intros [= <- <-]; split; [done|lia]|].
    rewrite run_bind. simpl. rewrite run_bind. simpl. intros [= <- <-]. simpl.
    split; [by apply unique_ids_append|lia].
  - intros orders r s'. by apply add_orders_bulk_loop_ids.
  - intros order_id order r s' [Hi Hn]%update_order_ids. split; [|lia].
    eapply (unique_ids_filter _ _ []); [done| |done].
    by rewrite Hi, filter_not_in_nil.
  - intros ids r s' [[ex Hi] Hn]%execute_orders_ids. split; [|lia].
    by eapply unique_ids_filter.
Qed.

End QueueIds.

(** ** The list of securities *)

Section Securities.
Context {W : World}.
Import Trading Endpoints.

Lemma insert_sorted_perm x l : insert_sorted x l ≡ₚ x :: l.
Proof.
  induction l as [|y l IH]; simpl; [done|].
  destruct (str_leb x y); [done|]. rewrite IH. apply Permutation_swap.
Qed.

Lemma sorted_perm l : sorted l ≡ₚ l.
Proof.
  induction l as [|x l IH]; simpl; [done|].
  unfold sorted in *. simpl. by rewrite insert_sorted_perm, IH.
Qed.

Lemma insert_sorted_Sorted x l :
  Sorted (λ a b, str_leb a b = true) l →
  Sorted (λ a b, str_leb a b = true) (insert_sorted x l).
Proof.
  induction 1 as [|y l Hs IH Hhd]; simpl; [by repeat constructor|].
  destruct (str_leb x y) eqn:Hxy.
  - constructor; [by constructor|by constructor].
  - constructor; [done|].
    assert (str_leb y x = true) as Hyx.
    { destruct (String.leb_total x y) as [H|H]; [unfold str_leb in Hxy; congruence|done]. }
    destruct l as [|z l]; simpl; [by constructor|].
    destruct (str_leb x z); constructor; [done|].
    by inversion Hhd.
Qed.

Lemma sorted_Sorted l : Sorted (λ a b, str_leb a b = true) (sorted l).
Proof.
  induction l as [|x l IH]; [constructor|].
  unfold sorted in *. simpl. by apply insert_sorted_Sorted.
Qed.

(** X3.  [GET /securities].  An answer lists the symbols of the ticker cache,
    each once and in ascending order, with their number.  A cache that holds
    something is answered from as it is, however old, without any request;
    an empty one is refreshed first, and an answer after a refresh that
    brought nothing is the empty list with count 0. *)
Theorem list_securities_lists_cache currency s symbols count s' :
  list_securities currency s = (Ok (symbols, count), s') →
  count = length symbols ∧
  count = size (_ticker_cache (globals s')) ∧
  Sorted (λ a b, String.leb a b = true) symbols ∧
  NoDup symbols ∧
  (∀ k, k ∈ symbols ↔ is_Some (_ticker_cache (globals s') !! k)) ∧
  (_ticker_cache (globals s) ≠ ∅ → s' = s) ∧
  (_ticker_cache (globals s) = ∅ →
   (ticker_request :: net_log s) `suffix_of` net_log s').
Proof.
  unfold list_securities. rewrite run_bind. simpl. rewrite run_bind.
  assert (dict_nonempty (_ticker_cache (globals s)) = true
          ↔ _ticker_cache (globals s) ≠ ∅) as Hne.
  { unfold dict_nonempty.
    destruct (map_to_list (_ticker_cache (globals s))) as [|kv l] eqn:Hl.
    - apply map_to_list_empty_iff in Hl. by rewrite Hl.
    - split; [|done]. intros _ He. rewrite He, map_to_list_empty in Hl. done. }
  assert (∀ s1 : rt store,
    let syms := (map_to_list (_ticker_cache (globals s1))).*1 in
    length (sorted syms) = length syms ∧
    length syms = size (_ticker_cache (globals s1)) ∧
    Sorted (λ a b, String.leb a b = true) (sorted syms) ∧
    NoDup (sorted syms) ∧
    (∀ k, k ∈ sorted syms ↔ is_Some (_ticker_cache (globals s1) !! k))) as Hlist.
  { intros s1 syms. split; [by rewrite sorted_perm|].
    split; [unfold syms; by rewrite length_fmap, length_map_to_list|].
    split; [apply sorted_Sorted|].
    split; [rewrite sorted_perm; apply NoDup_fst_map_to_list|].
    intros k. rewrite sorted_perm. unfold syms.
    rewrite list_elem_of_fmap. split.
    - intros [[k' v] [-> Hin%elem_of_map_to_list]]. by exists v.
    - intros [v Hv]. exists (k, v). split; [done|]. by apply elem_of_map_to_list. }
  destruct (dict_nonempty (_ticker_cache (globals s))) eqn:Hd.
  - simpl. rewrite run_bind. simpl. intros [= <- <- <-].
    destruct (Hlist s) as (H1 & H2 & H3 & H4 & H5).
    split; [by rewrite H1|]. split; [done|]. split; [done|]. split; [done|].
    split; [done|]. split; [done|].
    intros He. by destruct (proj1 Hne eq_refl).
  - destruct (refresh_ticker_cache s) as [[[]|e] s1] eqn:Hr; [|done].
    rewrite run_bind. simpl. intros [= <- <- <-].
    destruct (Hlist s1) as (H1 & H2 & H3 & H4 & H5).
    split; [by rewrite H1|]. split; [done|]. split; [done|]. split; [done|].
    split; [done|]. split.
    + intros Hn. by apply Hne in Hn.
    + intros _. by eapply refresh_ticker_cache_log.
Qed.

End Securities.

(** ** Wallets and balance *)

Section Wallets.
Context {W : World}.
Import Trading Endpoints.

Lemma fetch_futures_wallets_run s :
  _fetch_futures_wallets s =
    if has_credentials then
      match answer (length (net_log s)) (wallets_request s) with
      | Unreachable => (Raise (PyError "RequestError"), wallets_asked s)
      | Cancel => (Raise CancelledError, wallets_asked s)
      | Reply status _ body =>
          if is_success status then
            match body with
            | Some data => (Ok data, wallets_fetched data s)
            | None => (Raise (PyError "JSONDecodeError"), wallets_asked s)
            end
          else (Raise (PyError "HTTPStatusError"), wallets_asked s)
      end
    else (Ok JNull, s).
Proof.
  unfold _fetch_futures_wallets, has_credentials.
  destruct (env_set COINDCX_API_KEY && env_set COINDCX_API_SECRET); [|done].
  rewrite run_bind. simpl. unfold httpx_get_json. rewrite !run_bind.
  unfold perform at 1. fold (wallets_request s). simpl.
  destruct (answer _ _) as [| |status text [data|]]; try done.
  - by destruct (is_success status).
  - by destruct (is_success status).
Qed.

Lemma balance_lookup_run cur (s : rt store) :
  (found ← lift (find_balance cur (default [] (_futures_wallets_cache (globals s))));
   match found with
   | Some reply => mret reply
   | None => raise (HTTPException 404 ("Futures wallet for " +:+ cur +:+ " not found"))
   end) s
  = (balance_answer cur (default [] (_futures_wallets_cache (globals s))), s).
Proof.
  rewrite run_bind. unfold lift, balance_answer.
  by destruct (find_balance _ _) as [[r|]|e].
Qed.

Lemma get_futures_balance_cached currency s :
  wallets_refresh_due s = false →
  get_futures_balance currency s
  = (balance_answer (balance_currency currency)
       (default [] (_futures_wallets_cache (globals s))), s).
Proof.
  intros Hd. unfold get_futures_balance. fold (balance_currency currency).
  rewrite run_bind. simpl. rewrite run_bind. simpl. rewrite run_bind.
  fold (wallets_refresh_due s). rewrite Hd. simpl. apply balance_lookup_run.
Qed.

(** X4.  [GET /balance].  The currency is upper-cased and USD is read as USDT.
    While the cached wallets are non-empty and at most 30 seconds old, or
    when the credentials are not configured, the answer is looked up in the
    cache and nothing is requested.  Otherwise the wallets are fetched: an
    answer of the exchange with an error status is reported as HTTP 502, a
    transport failure or an undecodable body as HTTP 500, both leaving the
    cache as it was; a decoded answer replaces the cache and is the list the
    balance is looked up in.  A currency without a wallet is a 404. *)
Theorem get_futures_balance_answers currency s :
  let cur := balance_currency currency in
  let from_cache :=
    (balance_answer cur (default [] (_futures_wallets_cache (globals s))), s) in
  get_futures_balance currency s =
    if negb (wallets_refresh_due s) || negb has_credentials then from_cache
    else
      match answer (length (net_log s)) (wallets_request s) with
      | Unreachable =>
          (Raise (HTTPException 500 "Internal error while fetching balance"), wallets_asked s)
      | Cancel => (Raise CancelledError, wallets_asked s)
      | Reply status _ body =>
          if is_success status then
            match body with
            | Some data =>
                (balance_answer cur (match data with JArr l => l | _ => [data] end),
                 wallets_fetched data s)
            | None =>
                (Raise (HTTPException 500 "Internal error while fetching balance"),
                 wallets_asked s)
            end
          else
            (Raise (HTTPException 502 "Failed to fetch wallets from CoinDCX"), wallets_asked s)
      end.
Proof.
  intros cur from_cache. unfold get_futures_balance. fold (balance_currency currency).
  fold cur. rewrite run_bind. simpl. rewrite run_bind. simpl. rewrite run_bind.
  fold (wallets_refresh_due s).
  destruct (wallets_refresh_due s); simpl.
  - unfold try_except. rewrite run_bind, fetch_futures_wallets_run.
    destruct has_credentials; simpl.
    + destruct (answer _ _) as [| |status text [data|]]; simpl; try done.
      * destruct (is_success status); simpl; [|done].
        apply (balance_lookup_run cur (wallets_fetched data s)).
      * by destruct (is_success status).
    + apply balance_lookup_run.
  - apply balance_lookup_run.
Qed.

(** X5.  [GET /wallets] feeds [GET /balance].  With credentials configured,
    [get_futures_wallets] always asks the exchange, maps a failure to 502 or
    500 like [get_futures_balance], and on success returns the decoded
    answer and caches it; a balance request made up to 30 seconds later is
    then answered from that answer without another request (unless it was
    the empty list). *)
Theorem get_futures_wallets_feeds_balance s :
  has_credentials = true →
  (∀ e s', get_futures_wallets s = (Raise e, s') →
     globals s' = globals s ∧
     (e = CancelledError ∨ e = HTTPException 502 "Failed to fetch wallets from CoinDCX"
      ∨ e = HTTPException 500 "Internal error while fetching wallets")) ∧
  (∀ data s', get_futures_wallets s = (Ok data, s') →
     s' = wallets_fetched data s ∧
     ∀ currency (elapsed : Q),
       data ≠ JArr [] → (0 <= elapsed <= 30)%Q →
       let later := Rt (globals s') (now s' + elapsed) (net_log s') in
       get_futures_balance currency later
       = (balance_answer (balance_currency currency)
            (match data with JArr l => l | _ => [data] end), later)).
Proof.
  intros Hc. unfold get_futures_wallets, try_except.
  rewrite fetch_futures_wallets_run, Hc. split.
  - intros e s'.
    destruct (answer _ _) as [| |status text [data|]]; simpl.
    + intros [= <- <-]. auto.
    + intros [= <- <-]. auto.
    + destruct (is_success status); simpl; intros [= <- <-]; auto.
    + destruct (is_success status); simpl; intros [= <- <-]; auto.
  - intros data s'.
    destruct (answer _ _) as [| |status text [data'|]]; simpl; try done.
    2: { by destruct (is_success status). }
    destruct (is_success status); simpl; [|done].
    intros [= -> <-]. split; [done|].
    intros currency elapsed Hd He.
    rewrite get_futures_balance_cached; [done|].
    unfold wallets_refresh_due, wallets_fetched. simpl.
    apply orb_false_iff. split.
    + destruct data as [| | | |[|x l]|]; done.
    + apply q_ltb_ge. lra.
Qed.

End Wallets.

(** ** WebSocket connections *)

Section Sockets.
Context {W : World}.
Import Trading Endpoints.

#[global] Instance socket_frame_preorder ws : PreOrder (socket_frame ws).
Proof.
  split.
  - intros s. split; [by repeat split|]. by intros ws' _.
  - intros s1 s2 s3 [(? & ? & H1) B1] [(? & ? & H2) B2]. split.
    + repeat split; [congruence..|]. intros c m. by rewrite H2, H1.
    + intros ws' Hne. destruct (B1 ws' Hne) as [A1 C1]. destruct (B2 ws' Hne) as [A2 C2].
      split; [by rewrite A2, A1 | by rewrite C2, C1].
Qed.

Lemma elem_of_union_singleton_ne (c : gset nat) (ws ws' : nat) :
  ws' ≠ ws → ws' ∈ c ∪ {[ws]} ↔ ws' ∈ c.
Proof.
  intros Hne. rewrite elem_of_union, elem_of_singleton.
  split; [by intros [|]|by left].
Qed.

Lemma socket_frame_set ws (s : rt store) c m :
  (∀ ws', ws' ≠ ws → (ws' ∈ c ↔ ws' ∈ WS_CONNECTIONS (globals s))
                     ∧ m !! ws' = WS_SUBSCRIPTIONS (globals s) !! ws') →
  socket_frame ws s (Rt (set_ws c m (globals s)) (now s) (net_log s)).
Proof. intros H. split; [by repeat split|]. exact H. Qed.

Lemma ws_message_frame ws m : keeps (socket_frame ws) (ws_message ws m).
Proof.
  intros s r s'. unfold ws_message. rewrite run_bind. unfold lift at 1.
  destruct (py_get "action" m) as [action|e]; [|intros [= <- <-]; reflexivity].
  rewrite run_bind. unfold lift at 1.
  destruct (_ ≫= _) as [symbol|e]; [|intros [= <- <-]; reflexivity].
  rewrite run_bind. simpl.
  destruct action as [| | |a| |]; try (intros [= <- <-]; reflexivity).
  destruct (String.eqb a "subscribe"); [|destruct (String.eqb a "unsubscribe")].
  - destruct (WS_SUBSCRIPTIONS (globals s) !! ws) eqn:E; intros [= <- <-]; [|reflexivity].
    apply socket_frame_set. intros ws' Hne. split; [done|].
    by rewrite lookup_insert_ne.
  - destruct (WS_SUBSCRIPTIONS (globals s) !! ws) eqn:E; intros [= <- <-]; [|reflexivity].
    apply socket_frame_set. intros ws' Hne. split; [done|].
    by rewrite lookup_insert_ne.
  - intros [= <- <-]; reflexivity.
Qed.

Lemma ws_receive_loop_frame ws events : keeps (socket_frame ws) (ws_receive_loop ws events).
Proof.
  induction events as [|[m| | |] events IH]; intros s; simpl.
  - apply keeps_at_ret. apply _.
  - apply keeps_at_bind; [apply _|apply ws_message_frame|]. intros _ s1 _. apply IH.
  - apply keeps_at_raise. apply _.
  - apply keeps_at_raise. apply _.
  - apply keeps_at_raise. apply _.
Qed.

Lemma ws_receive_loop_result ws events s r s' :
  ws_receive_loop ws events s = (r, s') →
  r ≠ Ok Returned ∧
  (r = Ok Looping → forallb is_Message events = true).
Proof.
  revert s. induction events as [|[m| | |] events IH]; intros s; simpl.
  - by intros [= <- <-].
  - rewrite run_bind. destruct (ws_message ws m s) as [[[]|e] s1]; [apply IH|].
    by intros [= <- <-].
  - by intros [= <- <-].
  - by intros [= <- <-].
  - by intros [= <- <-].
Qed.

(** X6.  A connection of [/ws/price] always cleans up after itself.  The
    handler ends as soon as a frame is not a JSON document it can read, the
    client disconnects or the task is cancelled; it ends by returning, or by
    passing the cancellation on, never with another exception.  When it has
    ended, its socket is neither among the connections nor among the
    subscriptions.  In every case the registrations of the other sockets,
    and everything in the module but the socket registry, are as before. *)
Theorem ws_price_endpoint_cleans_up ws events s r s' :
  ws_price_endpoint ws events s = (r, s') →
  (r = Ok Looping ∨ r = Ok Returned ∨ r = Raise CancelledError) ∧
  (forallb is_Message events = false → r ≠ Ok Looping) ∧
  (r ≠ Ok Looping →
   (ws ∉ WS_CONNECTIONS (globals s')) ∧ WS_SUBSCRIPTIONS (globals s') !! ws = None) ∧
  socket_frame ws s s'.
Proof.
  unfold ws_price_endpoint. rewrite run_bind. simpl. rewrite run_bind. simpl.
  set (s0 := Rt (set_ws _ _ (globals s)) (now s) (net_log s)).
  assert (socket_frame ws s s0) as H0.
  { apply socket_frame_set. intros ws' Hne. split; [by apply elem_of_union_singleton_ne|].
    by rewrite lookup_insert_ne. }
  unfold ws_serve.
  destruct (ws_receive_loop ws events s0) as [r1 s1] eqn:Hloop.
  pose proof (ws_receive_loop_frame _ _ _ _ _ Hloop) as H1.
  apply ws_receive_loop_result in Hloop as [Hnr Hmsg].
  assert (∀ s2, (ws_cleanup ws s1).2 = s2 →
            (ws ∉ WS_CONNECTIONS (globals s2)) ∧ WS_SUBSCRIPTIONS (globals s2) !! ws = None
            ∧ socket_frame ws s s2) as Hclean.
  { intros s2 <-. simpl.
    split; [rewrite elem_of_difference, elem_of_singleton; by intros [_ []]|].
    split; [apply lookup_delete_eq|].
    etrans; [exact H0|]. etrans; [exact H1|].
    apply socket_frame_set. intros ws' Hne. split.
    - rewrite elem_of_difference, elem_of_singleton. split; [by intros []|done].
    - by rewrite lookup_delete_ne. }
  destruct r1 as [[|]|e].
  - done.
  - intros [= <- <-]. split; [auto|]. split.
    + intros Hf. rewrite Hmsg in Hf by done. done.
    + split; [done|]. by etrans.
  - rewrite run_bind. simpl.
    destruct (Hclean _ eq_refl) as (A & B & C). simpl in *.
    destruct e; simpl; intros [= <- <-]; (split; [auto|]); (split; [done|]); done.
Qed.

Lemma frame_symbol a symbol :
  (s ← py_get "symbol" (JObj [("action", a); ("symbol", JStr symbol)]);
   py_upper (py_or s (JStr ""))) = Ok (upper symbol).
Proof. by destruct symbol. Qed.

Lemma frame_action a symbol :
  py_get "action" (JObj [("action", a); ("symbol", symbol)]) = Ok a.
Proof. reflexivity. Qed.

Lemma ws_frame_doc a : ∃ doc, ws_frame a = Message doc.
Proof. destruct a; eauto. Qed.

Lemma ws_message_frame_run ws a (s : rt store) subs doc :
  ws_frame a = Message doc →
  WS_SUBSCRIPTIONS (globals s) !! ws = Some subs →
  ws_message ws doc s
  = (Ok tt, Rt (set_ws (WS_CONNECTIONS (globals s))
                  (<[ws := ws_apply subs a]> (WS_SUBSCRIPTIONS (globals s))) (globals s))
               (now s) (net_log s)).
Proof.
  intros Hd Hs. destruct a as [symbol|symbol]; injection Hd as <-; unfold ws_message;
    rewrite frame_symbol, frame_action, !run_bind; unfold lift;
    rewrite !run_bind; simpl; by rewrite Hs.
Qed.

(** X7.  The subscriptions of a connection.  While a client sends well-formed
    frames, its handler stays in its loop with the socket registered, and
    the set of symbols it is subscribed to is the result of its requests in
    order, starting from the empty set, each symbol being upper-cased: a
    symbol is subscribed exactly when its last request, in any letter case,
    was a subscription. *)
Theorem ws_price_endpoint_subscriptions ws actions s :
  ∃ s',
    ws_price_endpoint ws (ws_frame <$> actions) s = (Ok Looping, s') ∧
    ws ∈ WS_CONNECTIONS (globals s') ∧
    WS_SUBSCRIPTIONS (globals s') !! ws = Some (foldl ws_apply ∅ actions) ∧
    socket_frame ws s s'.
Proof.
  unfold ws_price_endpoint. rewrite run_bind. simpl. rewrite run_bind. simpl.
  set (s0 := Rt (set_ws _ _ (globals s)) (now s) (net_log s)).
  assert (socket_frame ws s s0) as H0.
  { apply socket_frame_set. intros ws' Hne. split; [by apply elem_of_union_singleton_ne|].
    by rewrite lookup_insert_ne. }
  assert (ws ∈ WS_CONNECTIONS (globals s0)) as Hc
    by (simpl; apply elem_of_union_r; by apply elem_of_singleton).
  assert (WS_SUBSCRIPTIONS (globals s0) !! ws = Some ∅) as Hs
    by (simpl; apply lookup_insert_eq).
  clearbody s0. unfold ws_serve.
  cut (∀ (s0 : rt store) subs,
         ws ∈ WS_CONNECTIONS (globals s0) →
         WS_SUBSCRIPTIONS (globals s0) !! ws = Some subs →
         ∃ s', ws_receive_loop ws (ws_frame <$> actions) s0 = (Ok Looping, s') ∧
               ws ∈ WS_CONNECTIONS (globals s') ∧
               WS_SUBSCRIPTIONS (globals s') !! ws = Some (foldl ws_apply subs actions) ∧
               socket_frame ws s0 s').
  { intros Hcut. destruct (Hcut s0 ∅ Hc Hs) as (s' & -> & A & B & C).
    exists s'. split; [done|]. split; [done|]. split; [done|]. by etrans. }
  clear. induction actions as [|a actions IH]; intros s0 subs Hc Hs.
  - exists s0. split; [done|]. split; [done|]. split; [done|]. reflexivity.
  - rewrite fmap_cons. destruct (ws_frame_doc a) as [doc Hd]. rewrite Hd.
    cbn [ws_receive_loop]. rewrite run_bind, (ws_message_frame_run _ _ _ _ _ Hd Hs).
    set (s1 := Rt _ _ _).
    destruct (IH s1 (ws_apply subs a)) as (s' & -> & A & B & C).
    + done.
    + apply lookup_insert_eq.
    + exists s'. split; [done|]. split; [done|]. split; [done|].
      etrans; [|exact C]. apply socket_frame_set. intros ws' Hne. split; [done|].
      by rewrite lookup_insert_ne.
Qed.

End Sockets.

(** ** Submission of an order *)

Section Submission.
Context {W : World}.
Import Trading.

Lemma submit_run h total_quantity s r s' :
  submit h total_quantity s = (r, s') →
  globals s' = globals s ∧ now s' = now s ∧
  (s' = s ∨ net_log s' = POST COINDCX_ORDER_URL (order_payload h total_quantity) :: net_log s) ∧
  ∀ res, r = Ok res →
    ∃ status text, res = Sent (order_payload h total_quantity) status text ∧
    net_log s' = POST COINDCX_ORDER_URL (order_payload h total_quantity) :: net_log s.
Proof.
  unfold submit. destruct COINDCX_API_SECRET.
  - rewrite run_bind. unfold perform at 1.
    destruct (answer _ _) as [| |status text body]; intros [= <- <-]; simpl;
      (split; [done|]); (split; [done|]); (split; [by right|]); try done.
    intros res [= <-]. eauto.
  - intros [= <- <-]. split; [done|]. split; [done|]. split; [by left|]. done.
Qed.

Lemma gather_rejection ref s rej s1 :
  gather ref s = (Ok (inl rej), s1) → sent rej = false.
Proof.
  unfold gather. rewrite run_bind.
  destruct (order_head ref s) as [[h|e] s0]; [|done].
  rewrite run_bind. destruct (wallet_step s0) as [[[wb|]|e] s2]; [| |done].
  - rewrite run_bind.
    destruct (get_active_instruments _ s2) as [[act|e] s3]; [|done].
    destruct (negb _); [by intros [= <- <-]|].
    rewrite run_bind.
    destruct (get_instrument_details _ _ s3) as [[inst|e] s4]; [|done].
    rewrite run_bind. unfold lift at 1.
    destruct (read_instrument inst) as [fig|e]; [|done].
    rewrite run_bind.
    by destruct (_get_usdt_inr_rate s4) as [[rate|e] s5].
  - by intros [= <- <-].
Qed.

Lemma size_order_rejection i rej : size_order i = Ok (inl rej) → sent rej = false.
Proof.
  rewrite size_order_run. destruct (contracts_step_of i); [|done].
  repeat (destruct (q_ltb _ _); [by intros [= <-]|]). done.
Qed.

(** X8.  A call of [place_order_on_coindcx] submits at most once.  When it
    returns the dict of a submission, exactly that payload was posted to the
    order endpoint, once; when it returns a rejection, nothing was posted;
    when it raises, at most one post was attempted.  The parameters
    [attempts] and [backoff_sec] of the source are not used: there is no
    retry. *)
Theorem place_order_submits_at_most_once ref s r s' :
  place_order_on_coindcx ref s = (r, s') →
  match r with
  | Ok (Sent payload _ _) => order_posts (net_log s') = payload :: order_posts (net_log s)
  | Ok _ => order_posts (net_log s') = order_posts (net_log s)
  | Raise _ =>
      order_posts (net_log s') = order_posts (net_log s)
      ∨ ∃ payload, order_posts (net_log s') = payload :: order_posts (net_log s)
  end.
Proof.
  unfold place_order_on_coindcx. rewrite run_bind.
  destruct (gather ref s) as [[[rej|i]|e] s1] eqn:Hg.
  - apply gather_rejection in Hg as Hr. apply gather_posts in Hg.
    intros [= <- <-]. by destruct rej.
  - apply gather_posts in Hg. unfold size_and_submit.
    destruct (size_order i) as [[rej|tq]|e] eqn:Hs.
    + apply size_order_rejection in Hs. intros [= <- <-]. by destruct rej.
    + intros H. apply submit_run in H as (_ & _ & Hl & Hres).
      destruct r as [res|e].
      * destruct (Hres res eq_refl) as (status & text & -> & ->). simpl.
        by rewrite ?String.eqb_refl, Hg.
      * destruct Hl as [-> | ->]; [by left|]. right. simpl.
        rewrite ?String.eqb_refl, Hg. eauto.
    + intros [= <- <-]. by left.
  - apply gather_posts in Hg. intros [= <- <-]. by left.
Qed.

Lemma wallet_step_without_credentials s :
  has_credentials = false →
  wallets_missing (_futures_wallets_cache (globals s)) = true →
  wallet_step s = (Ok None, s).
Proof.
  intros Hc Hm. unfold wallet_step, _get_inr_futures_wallet.
  rewrite run_bind. rewrite run_bind. simpl. rewrite run_bind. simpl.
  rewrite Hm. simpl. unfold mbind, M_bind, bind.
  rewrite fetch_futures_wallets_run, Hc. simpl.
  by destruct (_futures_wallets_cache (globals s)) as [[|w l]|].
Qed.

(** X9.  Without API credentials no order leaves the program.  When the key or
    the secret is not configured and no wallets are cached, the wallets are
    not even asked for: an order that has a price is answered with
    [no_inr_futures_wallet], and the call has made no request at all. *)
Theorem place_order_without_credentials ref s h s1 :
  has_credentials = false →
  wallets_missing (_futures_wallets_cache (globals s)) = true →
  order_head ref s = (Ok h, s1) →
  place_order_on_coindcx ref s = (Ok no_inr_futures_wallet, s1) ∧
  net_log s1 = net_log s.
Proof.
  intros Hc Hm Hh. pose proof Hh as Hrun.
  apply order_head_run in Hrun as (Hnow & Hlog & _ & _ & o & Ho & Hq).
  split; [|done].
  assert (wallets_missing (_futures_wallets_cache (globals s1)) = true) as Hm1.
  { revert Hh. unfold order_head. rewrite run_bind. simpl. rewrite Ho.
    destruct (opt_or _ _) as [price|]; [|done].
    destruct (q_is_zero price); [done|].
    rewrite !run_bind. simpl. by intros [= _ <-]. }
  unfold place_order_on_coindcx, gather. rewrite !run_bind, Hh.
  by rewrite run_bind, (wallet_step_without_credentials _ Hc Hm1).
Qed.

End Submission.

(** ** Active instruments and instrument details *)

Section Instruments.
Context {W : World}.
Import Trading.

Lemma fetch_active_instruments_failed mc s :
  fetch_failed (answer (length (net_log s)) (instruments_request mc)) = true →
  ∃ e, _fetch_active_instruments (upper mc) s
       = (Raise e, Rt (globals s) (now s) (instruments_request mc :: net_log s))
       ∧ is_Exception e = true.
Proof.
  intros Hf. unfold _fetch_active_instruments, httpx_get_json.
  rewrite !run_bind. unfold perform at 1.
  rewrite upper_idempotent.
  fold (instruments_request mc). simpl.
  destruct (answer _ _) as [| |status text [data|]]; simpl in *; try done.
  - by eexists.
  - destruct (is_success status); [done|]. by eexists.
  - destruct (is_success status); by eexists.
Qed.

Lemma get_active_instruments_run mc s :
  get_active_instruments mc s =
    if instruments_refresh_due mc s then
      match _fetch_active_instruments (upper mc) s with
      | (Raise e, s1) =>
          if is_Exception e
          then (Ok (default ∅ (_active_instruments_cache (globals s1) !! upper mc)), s1)
          else (Raise e, s1)
      | r => r
      end
    else (Ok (default ∅ (_active_instruments_cache (globals s) !! upper mc)), s).
Proof.
  unfold get_active_instruments, instruments_refresh_due.
  rewrite run_bind. simpl. rewrite run_bind. simpl.
  destruct (_ || _); [|done].
  unfold try_except.
  destruct (_fetch_active_instruments (upper mc) s) as [[x|e] s1]; [done|].
  by destruct (is_Exception e).
Qed.

(** X10.  The set of active instruments is served stale rather than not at all.
    [get_active_instruments] answers from its cache, without a request,
    while the cached set is non-empty and at most 60 seconds old.  When it
    has to ask and gets no usable answer, it returns the cached set however
    old it is, or the empty set if there is none, and leaves the cache as it
    was.  It never raises an exception other than the cancellation of its
    task. *)
Theorem get_active_instruments_serves_stale mc s :
  let cached := default ∅ (_active_instruments_cache (globals s) !! upper mc) in
  (instruments_refresh_due mc s = false →
   get_active_instruments mc s = (Ok cached, s)) ∧
  (instruments_refresh_due mc s = true →
   fetch_failed (answer (length (net_log s)) (instruments_request mc)) = true →
   get_active_instruments mc s
   = (Ok cached, Rt (globals s) (now s) (instruments_request mc :: net_log s))) ∧
  (∀ e s', get_active_instruments mc s = (Raise e, s') → e = CancelledError).
Proof.
  intros cached. rewrite get_active_instruments_run. split; [|split].
  - by intros ->.
  - intros -> Hf.
    destruct (fetch_active_instruments_failed _ _ Hf) as (e & -> & ->). done.
  - intros e s'. destruct (instruments_refresh_due mc s); [|done].
    destruct (_fetch_active_instruments (upper mc) s) as [[x|e1] s1]; [done|].
    destruct e1; simpl; by intros [= <- <-].
Qed.

(** X11.  An order is rejected when the set of active instruments is not to be
    had.  If the order has a price and a wallet, nothing is cached for INR
    and the request for the active instruments gets no usable answer, then
    [place_order_on_coindcx] returns [instrument_not_active] with an empty
    sample: the instrument details are not asked for and nothing is
    posted. *)
Theorem order_rejected_without_active_instruments ref s h s1 wallet_balance s2 :
  order_head ref s = (Ok h, s1) →
  wallet_step s1 = (Ok (Some wallet_balance), s2) →
  _active_instruments_cache (globals s2) !! "INR" = None →
  fetch_failed (answer (length (net_log s2)) (instruments_request "INR")) = true →
  place_order_on_coindcx ref s
  = (Ok (instrument_not_active (L.pair h) (L.symbol h) "INR" []),
     Rt (globals s2) (now s2) (instruments_request "INR" :: net_log s2)).
Proof.
  intros Hh Hw Hc Hf.
  unfold place_order_on_coindcx, gather. rewrite !run_bind, Hh.
  rewrite run_bind, Hw. rewrite run_bind.
  apply order_head_run in Hh as (_ & _ & _ & -> & _).
  rewrite get_active_instruments_run.
  assert (instruments_refresh_due "INR" s2 = true) as ->.
  { unfold instruments_refresh_due. change (upper "INR") with "INR". by rewrite Hc. }
  destruct (fetch_active_instruments_failed _ _ Hf) as (e & He & Hex).
  change (upper "INR") with "INR" in *. rewrite He, Hex. simpl. rewrite Hc. simpl.
  rewrite bool_decide_eq_false_2 by apply not_elem_of_empty. simpl.
  by rewrite elements_empty.
Qed.

End Instruments.

Section Details.
Context {W : World}.
Import Trading.

Lemma refresh_ticker_cache_only_ticker s r s' :
  refresh_ticker_cache s = (r, s') →
  ∃ c t, globals s' = set_ticker c t (globals s) ∧ now s' = now s.
Proof.
  rewrite refresh_ticker_cache_run, original_refresh_run.
  set (s1 := Rt _ _ _).
  assert (∃ c t, globals s1 = set_ticker c t (globals s) ∧ now s1 = now s) as (c & t & Hg & Hn).
  { unfold s1. simpl. destruct (fetched_tickers _) as [c|]; [by eexists _, _|].
    exists (_ticker_cache (globals s)), (_ticker_cache_updated_at (globals s)).
    by destruct (globals s). }
  intros H. exists c, t.
  destruct (answer _ _); simpl in H.
  - apply broadcast_globals in H as [-> ->]. done.
  - by injection H as <- <-.
  - apply broadcast_globals in H as [-> ->]. done.
Qed.

Lemma get_usdt_inr_rate_only_ticker s r s' :
  _get_usdt_inr_rate s = (r, s') →
  ∃ c t, globals s' = set_ticker c t (globals s) ∧ now s' = now s.
Proof.
  rewrite get_usdt_inr_rate_run.
  destruct (rate_refresh_due s).
  - destruct (refresh_ticker_cache s) as [[[]|e] s1] eqn:Hr;
      apply refresh_ticker_cache_only_ticker in Hr; by intros [= <- <-].
  - intros [= <- <-]. exists (_ticker_cache (globals s)), (_ticker_cache_updated_at (globals s)).
    by destruct (globals s).
Qed.

Lemma get_instrument_details_missing pair mc s inst s' :
  get_instrument_details pair mc s = (Ok inst, s') →
  dict_missing (_instrument_cache (globals s') !! (pair, upper mc)) = true →
  inst = [].
Proof.
  unfold get_instrument_details. rewrite run_bind. simpl. rewrite run_bind. simpl.
  destruct (_ || _).
  - unfold try_except, _fetch_instrument_details, httpx_get_json.
    rewrite !run_bind. unfold perform at 1. rewrite upper_idempotent. simpl.
    assert (∀ (s1 : rt store) e,
      (if is_Exception e
       then (g' ← get_globals;
             mret (default [] (_instrument_cache g' !! (pair, upper mc)))) s1
       else (Raise e, s1)) = (Ok inst, s') →
      dict_missing (_instrument_cache (globals s') !! (pair, upper mc)) = true →
      inst = []) as Hfail.
    { intros s1 e. destruct (is_Exception e); [|done].
      rewrite run_bind. simpl. intros [= <- <-]. simpl.
      by destruct (_instrument_cache (globals s1) !! (pair, upper mc)) as [[|x l]|]. }
    destruct (answer _ _) as [| |status text [data|]]; simpl.
    + apply (Hfail _ (PyError "RequestError")).
    + done.
    + destruct (is_success status); simpl; [|apply (Hfail _ (PyError "HTTPStatusError"))].
      intros [= <- <-]. simpl. rewrite lookup_insert_eq.
      by destruct (match _ with JObj kv => kv | _ => [] end).
    + destruct (is_success status); simpl;
        [apply (Hfail _ (PyError "JSONDecodeError"))|apply (Hfail _ (PyError "HTTPStatusError"))].
  - intros [= <- <-].
    by destruct (_instrument_cache (globals s) !! (pair, upper mc)) as [[|x l]|].
Qed.

(** X12.  An order is sized with made-up figures when the details of its
    instrument are not to be had.  If, when the fetches of
    [place_order_on_coindcx] are through, the instrument cache holds nothing
    for the pair (the request failed, or the answer was not a dict), the
    sizing runs with a contract value, an increment and a minimum of 1 and a
    maximum of 10^18. *)
Theorem missing_instrument_details_default_to_one ref s i s' :
  gather ref s = (Ok (inr i), s') →
  dict_missing (_instrument_cache (globals s') !! (L.pair (L.hd i), "INR")) = true →
  L.inst i = default_instrument.
Proof.
  unfold gather. rewrite run_bind.
  destruct (order_head ref s) as [[h|e] s1] eqn:Hh; [|done].
  apply order_head_run in Hh as (_ & _ & _ & Hccy & _).
  rewrite run_bind. destruct (wallet_step s1) as [[[wb|]|e] s2]; [|done|done].
  rewrite run_bind. destruct (get_active_instruments _ s2) as [[act|e] s3]; [|done].
  destruct (negb _); [done|].
  rewrite run_bind.
  destruct (get_instrument_details _ _ s3) as [[inst|e] s4] eqn:Hd; [|done].
  rewrite run_bind. unfold lift at 1.
  destruct (read_instrument inst) as [fig|e] eqn:Hfig; [|done].
  rewrite run_bind.
  destruct (_get_usdt_inr_rate s4) as [[rate|e] s5] eqn:Hr; [|done].
  intros [= <- <-]. simpl.
  apply get_usdt_inr_rate_only_ticker in Hr as (c & t & -> & _). simpl.
  intros Hm. rewrite Hccy in Hd.
  apply get_instrument_details_missing in Hd; [|done].
  subst inst. by injection Hfig as <-.
Qed.

End Details.

(** ** Client order id and budget *)

Section Tagging.
Context {W : World}.
Import Trading.

Lemma order_head_client_order_id ref s h s1 o :
  order_head ref s = (Ok h, s1) →
  _orders (globals s) !! ref = Some o →
  L.client_order_id h = client_order_id_of o (now s).
Proof.
  unfold order_head. rewrite run_bind. simpl. intros H Ho. rewrite Ho in H.
  destruct (opt_or _ _) as [price|]; [|done].
  destruct (q_is_zero price); [done|].
  rewrite !run_bind in H. simpl in H. by injection H as <- _.
Qed.

(** X13.  Every submitted order carries the client order id that is recorded in
    the queue.  When [place_order_on_coindcx] has submitted the queued order
    at [ref], the [client_order_id] of the payload is the order's local id
    and the time of the call in milliseconds, the same string is the
    [last_client_order_id] of the queued order afterwards, and nothing else
    in the queue has changed. *)
Theorem submitted_order_is_tagged ref s payload status text s' :
  place_order_on_coindcx ref s = (Ok (Sent payload status text), s') →
  ∃ o,
    _orders (globals s) !! ref = Some o ∧
    payload_client_order_id payload = Some (client_order_id_of o (now s)) ∧
    _orders (globals s')
    = <[ref := set_last_client_order_id (client_order_id_of o (now s)) o]>
        (_orders (globals s)).
Proof.
  intros H. pose proof H as Hsent.
  apply place_order_sent in Hsent as (i & s1 & tq & Hg & _ & ->).
  pose proof Hg as Hrun. apply gather_run in Hrun.
  destruct (order_head ref s) as [[h|e] s0] eqn:Hh; [|by destruct Hrun].
  destruct Hrun as [Hf Hhd]. specialize (Hhd i eq_refl).
  pose proof Hh as Hh'.
  apply order_head_run in Hh' as (_ & _ & _ & _ & o & Ho & Hq).
  pose proof (order_head_client_order_id _ _ _ _ _ Hh Ho) as Hcid.
  exists o. split; [done|]. split; [by rewrite Hhd, <- Hcid|].
  revert H. unfold place_order_on_coindcx. rewrite run_bind, Hg.
  unfold size_and_submit. destruct (size_order i) as [[rej|tq']|e]; [| |done].
  - intros [= -> <-]. rewrite (frame_orders _ _ Hf), Hq. by rewrite Hcid.
  - intros (Hgl & _)%submit_run. rewrite Hgl, (frame_orders _ _ Hf), Hq. by rewrite Hcid.
Qed.

End Tagging.

Section Budget.
Context {W : World}.
Import Trading.



End Budget.

(** ** The ticker loop and the keys of its cache *)

Section TickerLoop.
Context {W : World}.
Import Trading.

Lemma sleep_run d (s : rt store) r s' :
  sleep d s = (r, s') →
  (r = Raise CancelledError ∧ now s' = now s)
  ∨ (r = Ok tt ∧ now s' = (now s + d)%Q ∧ globals s' = globals s).
Proof.
  unfold sleep, perform.
  destruct (answer _ _); intros [= <- <-]; auto.
Qed.

Lemma ticker_cycles_run n : ∀ s r s',
  ticker_cycles n s = (r, s') →
  (r = Ok Looping
   ∧ (now s' == now s + inject_Z (Z.of_nat n) * TICKER_REFRESH_INTERVAL)%Q)
  ∨ r = Raise CancelledError
  ∨ r = Raise (PyError "WebSocketDisconnect").
Proof.
  induction n as [|n IH]; intros s r s'.
  - simpl. intros [= <- <-]. left. split; [done|]. simpl. ring.
  - cbn [ticker_cycles]. rewrite run_bind.
    destruct (refresh_ticker_cache s) as [[[]|e] s1] eqn:Hr.
    + apply framed_refresh_ticker_cache in Hr as [_ _ _ Hn _].
      rewrite run_bind.
      destruct (sleep TICKER_REFRESH_INTERVAL s1) as [[[]|e] s2] eqn:Hs;
        apply sleep_run in Hs as [[He Hn2]|(He & Hn2 & _)]; try done.
      * intros H. apply IH in H as [[-> Hnow]|H]; [|by right].
        left. split; [done|]. rewrite Hnow, Hn2, Hn.
        rewrite Nat2Z.inj_succ, <- Z.add_1_r, inject_Z_plus.
        change (inject_Z 1) with 1%Q. ring.
      * injection He as ->. intros [= <- <-]. auto.
    + apply refresh_ticker_cache_raises in Hr as [->| ->]; intros [= <- <-]; auto.
Qed.

Lemma ws_send_unfailing (ws : nat) message (s : rt store) e s' :
  (∀ k ws m, answer k (WS_SEND ws m) ≠ Unreachable) →
  ws_send ws message s = (Raise e, s') → e = CancelledError.
Proof.
  intros Hw. unfold ws_send. rewrite run_bind. unfold perform at 1.
  destruct (answer _ _) eqn:Ha; [by apply Hw in Ha| |]; by intros [= <- <-].
Qed.

Lemma push_symbols_unfailing ws subs :
  (∀ k ws m, answer k (WS_SEND ws m) ≠ Unreachable) →
  ∀ s e s', push_symbols ws subs s = (Raise e, s') → e = CancelledError.
Proof.
  intros Hw. induction subs as [|x subs IH]; intros s e s'; simpl; [done|].
  rewrite run_bind. simpl.
  destruct (_ticker_cache (globals s) !! x); [|apply IH].
  rewrite run_bind. simpl. rewrite run_bind.
  destruct (ws_send _ _ _) as [[[]|e1] s1] eqn:E.
  - apply IH.
  - intros [= <- <-]. by eapply ws_send_unfailing.
Qed.

Lemma push_connections_unfailing conns :
  (∀ k ws m, answer k (WS_SEND ws m) ≠ Unreachable) →
  ∀ s e s', push_connections conns s = (Raise e, s') → e = CancelledError.
Proof.
  intros Hw. induction conns as [|ws conns IH]; intros s e s'; simpl; [done|].
  rewrite run_bind. simpl. rewrite run_bind.
  destruct (push_symbols _ _ _) as [[[]|e1] s1] eqn:E.
  - apply IH.
  - intros [= <- <-]. by eapply push_symbols_unfailing.
Qed.

Lemma refresh_ticker_cache_unfailing s e s' :
  (∀ k ws m, answer k (WS_SEND ws m) ≠ Unreachable) →
  refresh_ticker_cache s = (Raise e, s') → e = CancelledError.
Proof.
  intros Hw. rewrite refresh_ticker_cache_run.
  destruct (_original_refresh s) as [[[]|e1] s1] eqn:E.
  - unfold _broadcast_price_updates. rewrite run_bind. simpl.
    destruct (elements _) as [|ws conns]; [done|].
    by apply (push_connections_unfailing (ws :: conns)).
  - intros [= <- <-]. by apply original_refresh_no_exception in E as [|[= ->]].
Qed.

Lemma ticker_cycles_unfailing n :
  (∀ k ws m, answer k (WS_SEND ws m) ≠ Unreachable) →
  ∀ s e s', ticker_cycles n s = (Raise e, s') → e = CancelledError.
Proof.
  intros Hw. induction n as [|n IH]; intros s e s'; [done|].
  cbn [ticker_cycles]. rewrite run_bind.
  destruct (refresh_ticker_cache s) as [[[]|e1] s1] eqn:Hr.
  - rewrite run_bind.
    destruct (sleep TICKER_REFRESH_INTERVAL s1) as [[[]|e2] s2] eqn:Hs.
    + apply IH.
    + apply sleep_run in Hs as [[[= ->] _]|[[=] _]]. by intros [= <- <-].
  - intros [= <- <-]. by eapply refresh_ticker_cache_unfailing.
Qed.

(** X15.  What ends the background loop of [trading.py].  Observed for [n]
    cycles, [ticker_background_loop] is either still looping, the clock
    having advanced by [n] refresh intervals, or it has returned after a
    cancellation, or it was ended by the exception of a failed WebSocket
    send.  No failure of the ticker request, no malformed answer and no
    unparsable item ends it; and where no send fails, nothing but the
    cancellation does. *)
Theorem ticker_background_loop_ends_by_cancel_or_failed_send n s r s' :
  ticker_background_loop n s = (r, s') →
  ((r = Ok Looping
    ∧ (now s' == now s + inject_Z (Z.of_nat n) * TICKER_REFRESH_INTERVAL)%Q)
   ∨ r = Ok Returned
   ∨ r = Raise (PyError "WebSocketDisconnect")) ∧
  ((∀ k ws m, answer k (WS_SEND ws m) ≠ Unreachable) →
   r = Ok Looping ∨ r = Ok Returned).
Proof.
  unfold ticker_background_loop, try_cancelled.
  destruct (ticker_cycles n s) as [r1 s1] eqn:Hc.
  pose proof (ticker_cycles_run _ _ _ _ Hc) as Hrun.
  intros H. split.
  - destruct Hrun as [[-> Hn]|[-> | ->]].
    + injection H as <- <-. auto.
    + injection H as <- <-. auto.
    + injection H as <- <-. auto.
  - intros Hw. destruct r1 as [l|e].
    + destruct Hrun as [[[= ->] _]|[|]]; try done. injection H as <- <-. auto.
    + apply (ticker_cycles_unfailing _ Hw) in Hc as ->. injection H as <- <-. auto.
Qed.

End TickerLoop.

Section TickerKeys.
Context {W : World}.
Import Trading.

Lemma first_str_upper_upper ks item sym :
  first_str_upper ks item = Some sym → upper sym = sym.
Proof.
  induction ks as [|k ks IH]; simpl; [done|].
  destruct (assoc k item) as [[| | |val| |]|]; try apply IH.
  intros [= <-]. apply upper_idempotent.
Qed.

Lemma first_present_upper_upper ks t sym :
  first_present_upper ks t = Some sym → upper sym = sym.
Proof.
  induction ks as [|k ks IH]; simpl; [done|].
  destruct (assoc k t); [|apply IH].
  intros [= <-]. apply upper_idempotent.
Qed.

Lemma guess_symbol_upper item sym :
  _guess_symbol_from_item item = Some sym → upper sym = sym.
Proof.
  unfold _guess_symbol_from_item.
  destruct (first_str_upper _ item) as [s0|] eqn:E.
  - intros [= <-]. by eapply first_str_upper_upper.
  - destruct (assoc "ticker" item) as [[| | | | |t]|]; try done.
    apply first_present_upper_upper.
Qed.

Lemma new_cache_step_upper c item :
  upper_keys c → upper_keys (new_cache_step c item).
Proof.
  intros Hc. unfold new_cache_step. destruct item as [| | | | |kv]; try done.
  destruct (_guess_symbol_from_item kv) as [sym|] eqn:Hs; [|done].
  destruct (_guess_last_from_item kv) as [last|]; [|done].
  destruct (String.eqb_spec sym ""); [done|].
  intros k [v Hk]. destruct (decide (k = sym)) as [->|Hne].
  - split; [by eapply guess_symbol_upper|done].
  - rewrite lookup_insert_ne in Hk by done. apply Hc. by exists v.
Qed.

Lemma new_cache_of_upper data : upper_keys (new_cache_of data).
Proof.
  unfold new_cache_of.
  assert (∀ l c, upper_keys c → upper_keys (foldl new_cache_step c l)) as H.
  { induction l as [|x l IH]; intros c Hc; simpl; [done|].
    apply IH. by apply new_cache_step_upper. }
  apply H. intros k [v Hk]. by rewrite lookup_empty in Hk.
Qed.

(** X16.  The symbols of the ticker cache are upper-case and non-empty.  If they
    are before a refresh they are after it, whatever the exchange answers
    and however the refresh ends; the cache of a freshly started program is
    empty, so the invariant holds throughout.  This is why the lookups
    upper-case the symbol they are asked for. *)
Theorem refresh_keeps_symbols_upper_case s r s' :
  upper_keys (_ticker_cache (globals s)) →
  refresh_ticker_cache s = (r, s') →
  upper_keys (_ticker_cache (globals s')).
Proof.
  intros Hu. rewrite refresh_ticker_cache_run, original_refresh_run.
  set (s1 := Rt _ _ _).
  assert (upper_keys (_ticker_cache (globals s1))) as H1.
  { unfold s1, fetched_tickers. simpl.
    destruct (answer _ _) as [| |status text [data|]]; try done.
    destruct (is_success status && dict_nonempty (new_cache_of data)); [|done].
    simpl. apply new_cache_of_upper. }
  destruct (answer _ _); simpl; intros H.
  - apply broadcast_globals in H as [-> _]. done.
  - by injection H as <- <-.
  - apply broadcast_globals in H as [-> _]. done.
Qed.

End TickerKeys.

(** ** The cache of [ExchangeService] *)

Section ExchangeCache.
Context {W : World}.
Import ExchangeSvc.

Lemma q_leb_le a b : q_leb a b = true ↔ (a <= b)%Q.
Proof.
  unfold q_leb. destruct (a ?= b)%Q eqn:Hc.
  - apply Qeq_alt in Hc. split; [intros _; lra|done].
  - apply Qlt_alt in Hc. split; [intros _; lra|done].
  - apply Qgt_alt in Hc. split; [done|intros; lra].
Qed.

(** X17.  [ExchangeService.get_price] serves what it has returned.  After a call
    for a symbol has returned a quote, the cache holds that price and
    source under the normalized symbol, and every later request for the
    symbol, in any letter case and with any surrounding blanks, made while
    the entry is not older than the TTL, is answered with the same price and
    source without any request to the exchange. *)
Theorem get_price_serves_what_it_returned symbol s q s' :
  symbol ≠ "" →
  get_price symbol s = (Ok q, s') →
  ∃ ent,
    _cache (globals s') !! _normalize symbol = Some ent ∧
    price ent = quote_price q ∧ source ent = quote_source q ∧
    ∀ symbol' t,
      symbol' ≠ "" → _normalize symbol' = _normalize symbol →
      (t - ts ent <= _cache_ttl (globals s'))%Q →
      let later := Rt (globals s') t (net_log s') in
      get_price symbol' later
      = (Ok {| quote_symbol := symbol'; quote_price := quote_price q;
               quote_source := quote_source q;
               quote_ts := py_int (ts ent * 1000) |}, later).
Proof.
  intros Hs Hrun.
  assert (∃ ent, _cache (globals s') !! _normalize symbol = Some ent ∧
                 price ent = quote_price q ∧ source ent = quote_source q)
    as (ent & Hc & Hp & Hsrc).
  { destruct (_cache (globals s) !! _normalize symbol) as [ent|] eqn:Hc.
    - destruct (fresh s ent) eqn:Hf.
      + rewrite (get_price_fresh _ _ _ Hs Hc Hf) in Hrun.
        injection Hrun as <- <-. by exists ent.
      + destruct (get_price_stale symbol s Hs) as (q0 & s0 & Hq & _ & Hc0 & _);
          [by rewrite Hc|].
        rewrite Hq in Hrun. injection Hrun as <- <-. by eexists.
    - destruct (get_price_stale symbol s Hs) as (q0 & s0 & Hq & _ & Hc0 & _);
        [by rewrite Hc|].
      rewrite Hq in Hrun. injection Hrun as <- <-. by eexists. }
  exists ent. split; [done|]. split; [done|]. split; [done|].
  intros symbol' t Hs' Hn Ht later.
  rewrite (get_price_fresh symbol' later ent Hs').
  - by rewrite Hp, Hsrc.
  - by rewrite Hn.
  - unfold fresh. by apply q_leb_le.
Qed.

Lemma round_half_even_between (y : Q) (a b : Z) :
  (inject_Z a <= y)%Q → (y <= inject_Z b)%Q →
  a ≤ round_half_even y ≤ b.
Proof.
  intros Ha Hb. destruct (round_half_even_near y) as [Hlo Hhi].
  set (r := round_half_even y) in *.
  assert (inject_Z (a + -1) < inject_Z r)%Q as H1.
  { rewrite inject_Z_plus. change (inject_Z (-1)) with (-1 # 1). lra. }
  assert (inject_Z r < inject_Z (b + 1))%Q as H2.
  { rewrite inject_Z_plus. change (inject_Z 1) with 1%Q. lra. }
  rewrite <- Zlt_Qlt in H1, H2. lia.
Qed.

(** X18.  The price [ExchangeService.get_price] makes up.  When there is no
    fresh entry and neither the ticker list nor any candidate endpoint
    yields a price, the call still returns a quote: its source is
    ["fallback"] and its price a number with two decimals between 95% and
    105% of 60000, if the normalized symbol contains BTC, or of 2000. *)
Theorem fallback_price_within_five_percent symbol s s1 s2 :
  let key := _normalize symbol in
  let base : Q := if contains "BTC" key then 60000%Q else 2000%Q in
  symbol ≠ "" →
  match _cache (globals s) !! key with
  | Some ent => fresh s ent = false
  | None => True
  end →
  try_bulk key s = (Ok None, s1) →
  try_candidates (candidate_paths key) s1 = (Ok None, s2) →
  ∃ q s',
    get_price symbol s = (Ok q, s') ∧
    quote_source q = "fallback" ∧
    ((95 # 100) * base <= quote_price q <= (105 # 100) * base)%Q ∧
    ∃ cents : Z, (quote_price q == inject_Z cents / 100)%Q.
Proof.
  intros key base Hs Hc Hb Hcand.
  destruct (get_price_stale symbol s Hs Hc) as (q & s' & Hq & _ & _ & Hf).
  specialize (Hf _ _ Hb Hcand). exists q, s'. split; [done|].
  subst q. simpl. split; [done|].
  unfold fallback_price, round_digits. fold key.
  change (inject_Z (10 ^ Z.of_nat 2)) with 100%Q.
  pose proof (Qfloor_le (now s)) as Hlo. pose proof (Qlt_floor (now s)) as Hhi.
  rewrite inject_Z_plus in Hhi. change (inject_Z 1) with 1%Q in Hhi.
  assert (0 <= q_frac (now s) ∧ q_frac (now s) < 1)%Q as [Hf0 Hf1]
    by (unfold q_frac; split; lra).
  set (f := q_frac (now s)) in *.
  split; [|eexists; reflexivity].
  destruct (contains "BTC" key).
  - destruct (round_half_even_between (60000 * ((95 # 100) + f * (1 # 10)) * 100)
                5700000 6300000) as [H1 H2].
    + change (inject_Z 5700000) with 5700000%Q. lra.
    + change (inject_Z 6300000) with 6300000%Q. lra.
    + rewrite Zle_Qle in H1, H2.
      change (inject_Z 5700000) with 5700000%Q in H1.
      change (inject_Z 6300000) with 6300000%Q in H2.
      set (r := inject_Z (round_half_even _)) in *.
      unfold base. split.
      * apply Qle_shift_div_l; lra.
      * apply Qle_shift_div_r; lra.
  - destruct (round_half_even_between (2000 * ((95 # 100) + f * (1 # 10)) * 100)
                190000 210000) as [H1 H2].
    + change (inject_Z 190000) with 190000%Q. lra.
    + change (inject_Z 210000) with 210000%Q. lra.
    + rewrite Zle_Qle in H1, H2.
      change (inject_Z 190000) with 190000%Q in H1.
      change (inject_Z 210000) with 210000%Q in H2.
      set (r := inject_Z (round_half_even _)) in *.
      unfold base. split.
      * apply Qle_shift_div_l; lra.
      * apply Qle_shift_div_r; lra.
Qed.

End ExchangeCache.

(** ** The registry and the pushes of [PriceBroadcaster] *)

Section RegistryFacts.
Import Broadcaster Registry.

(** X19.  The registry of [PriceBroadcaster].  A subscription is recorded under
    the upper-cased symbol and registers a socket that was not registered;
    cancelling it, in any letter case, removes it again and leaves the
    socket registered; cancelling on a socket that is not registered does
    nothing.  Registering a socket that is registered keeps what it is
    subscribed to, and unregistering a socket forgets it.  None of these
    touches another socket or the prices. *)
Theorem registry_subscriptions_round_trip ws symbol (self : PriceBroadcaster) :
  let before := default ∅ (_subscriptions self !! ws) in
  _subscriptions (subscribe ws symbol self) !! ws = Some (before ∪ {[upper symbol]}) ∧
  (∀ symbol', upper symbol' = upper symbol →
     _subscriptions (unsubscribe ws symbol' (subscribe ws symbol self)) !! ws
     = Some (before ∖ {[upper symbol]})) ∧
  (_subscriptions self !! ws = None → unsubscribe ws symbol self = self) ∧
  (∀ (s : rt PriceBroadcaster),
     globals s = self → is_Some (_subscriptions self !! ws) → register ws s = (Ok tt, s)) ∧
  (∀ (s : rt PriceBroadcaster) s',
     globals s = self → unregister ws s = (Ok tt, s') →
     _subscriptions (globals s') !! ws = None) ∧
  (∀ ws', ws' ≠ ws →
     _subscriptions (subscribe ws symbol self) !! ws' = _subscriptions self !! ws' ∧
     _subscriptions (unsubscribe ws symbol self) !! ws' = _subscriptions self !! ws') ∧
  tickers (subscribe ws symbol self) = tickers self ∧
  tickers (unsubscribe ws symbol self) = tickers self.
Proof.
  intros before. unfold subscribe, unsubscribe. simpl.
  split; [apply lookup_insert_eq|].
  split.
  { intros symbol' ->. rewrite lookup_insert_eq. simpl. rewrite lookup_insert_eq.
    f_equal. apply set_eq. intros x.
    rewrite !elem_of_difference, elem_of_union. tauto. }
  split; [by intros ->|].
  split.
  { intros s <- [subs Hs]. unfold register. rewrite run_bind. simpl.
    rewrite Hs. simpl. rewrite insert_id by done. by destruct s as [[] ? ?]. }
  split.
  { intros s s' <-. unfold unregister. rewrite run_bind. simpl.
    intros [= <-]. simpl. apply lookup_delete_eq. }
  split.
  { intros ws' Hne. split; [by rewrite lookup_insert_ne|].
    destruct (_subscriptions self !! ws); [|done]. simpl. by rewrite lookup_insert_ne. }
  split; [done|]. by destruct (_subscriptions self !! ws).
Qed.

End RegistryFacts.

Section PushUpdates.
Context {W : World}.
Import Broadcaster.

Lemma send_subscribed_run ws subs : ∀ (s : rt PriceBroadcaster) r s',
  send_subscribed ws subs s = (r, s') →
  globals s' = globals s ∧ now s' = now s ∧
  (r = Ok tt ∨ r = Raise CancelledError ∨ r = Raise (PyError "WebSocketDisconnect")).
Proof.
  induction subs as [|sym subs IH]; intros s r s'; simpl.
  - intros [= <- <-]. auto.
  - rewrite run_bind. simpl.
    destruct (tickers (globals s) !! sym); [|apply IH].
    rewrite run_bind. unfold ws_send at 1. rewrite run_bind. unfold perform at 1.
    destruct (answer _ _); simpl.
    + intros [= <- <-]. auto.
    + intros [= <- <-]. auto.
    + intros H. apply IH in H as (Hg & Hn & Hr). auto.
Qed.

Lemma send_subscribed_unfailing ws subs :
  (∀ k ws m, answer k (WS_SEND ws m) ≠ Unreachable) →
  ∀ (s : rt PriceBroadcaster) r s',
    send_subscribed ws subs s = (r, s') → r = Ok tt ∨ r = Raise CancelledError.
Proof.
  intros Hw. induction subs as [|sym subs IH]; intros s r s'; simpl.
  - intros [= <- <-]. auto.
  - rewrite run_bind. simpl.
    destruct (tickers (globals s) !! sym); [|apply IH].
    rewrite run_bind. unfold ws_send at 1. rewrite run_bind. unfold perform at 1.
    destruct (answer _ _) eqn:Ha; simpl.
    + by apply Hw in Ha.
    + intros [= <- <-]. auto.
    + apply IH.
Qed.

Lemma send_subscribed_dead ws subs :
  (∀ k m, answer k (WS_SEND ws m) = Unreachable) →
  ∀ (s : rt PriceBroadcaster),
    Exists (λ sym, is_Some (tickers (globals s) !! sym)) subs →
    ∃ s', send_subscribed ws subs s = (Raise (PyError "WebSocketDisconnect"), s').
Proof.
  intros Hw. induction subs as [|sym subs IH]; intros s Hex; [by inversion Hex|].
  simpl. rewrite run_bind. simpl.
  destruct (tickers (globals s) !! sym) as [price|] eqn:Hp.
  - rewrite run_bind. unfold ws_send at 1. rewrite run_bind. unfold perform at 1.
    rewrite Hw. simpl. eauto.
  - apply IH. inversion Hex as [? ? [? H]|]; subst; [congruence|done].
Qed.

(** What the loop of [_push_updates] collects in [to_remove]. *)
Lemma push_each_run conns : ∀ to_remove (s : rt PriceBroadcaster) r s',
  push_each conns to_remove s = (r, s') →
  globals s' = globals s ∧ now s' = now s ∧
  match r with
  | Ok l =>
      ∃ failed, l = to_remove ++ failed ∧ failed ⊆ conns.*1 ∧
        ((∀ k ws m, answer k (WS_SEND ws m) ≠ Unreachable) → failed = []) ∧
        (∀ ws subs,
           (ws, subs) ∈ conns →
           (∀ k m, answer k (WS_SEND ws m) = Unreachable) →
           Exists (λ sym, is_Some (tickers (globals s) !! sym)) (elements subs) →
           ws ∈ failed)
  | Raise e => e = CancelledError
  end.
Proof.
  induction conns as [|[ws subs] conns IH]; intros to_remove s r s'; simpl.
  - intros [= <- <-]. split; [done|]. split; [done|]. exists [].
    rewrite app_nil_r. repeat split; try done. intros ws subs Hin. by apply elem_of_nil in Hin.
  - rewrite run_bind. unfold try_except at 1. rewrite run_bind.
    destruct (send_subscribed ws (elements subs) s) as [r1 s1] eqn:Hs.
    pose proof (send_subscribed_run _ _ _ _ _ Hs) as (Hg & Hn & Hr).
    destruct Hr as [-> | [-> | ->]]; simpl.
    + intros H. apply IH in H as (Hg' & Hn' & H).
      split; [congruence|]. split; [congruence|].
      destruct r as [l|e]; [|done].
      destruct H as (failed & -> & Hsub & Hnone & Hdead).
      exists failed. split; [done|].
      split; [intros x Hx; apply elem_of_cons; right; by apply Hsub|]. split; [done|].
      intros ws' subs' Hin Hw Hex. apply elem_of_cons in Hin as [[= -> ->]|Hin].
      * destruct (send_subscribed_dead _ _ Hw s Hex) as [s2 H2]. congruence.
      * rewrite Hg in Hdead. by eapply Hdead.
    + intros [= <- <-]. done.
    + intros H. apply IH in H as (Hg' & Hn' & H).
      split; [congruence|]. split; [congruence|].
      destruct r as [l|e]; [|done].
      destruct H as (failed & -> & Hsub & Hnone & Hdead).
      exists (ws :: failed). split; [by rewrite <- app_assoc|].
      split; [intros x [->|Hx]%elem_of_cons; apply elem_of_cons; [by left|right; by apply Hsub]|].
      split.
      * intros Hw. apply (send_subscribed_unfailing _ _ Hw) in Hs as [|]; done.
      * intros ws' subs' Hin Hw Hex. apply elem_of_cons in Hin as [[= -> ->]|Hin].
        -- apply elem_of_cons. by left.
        -- apply elem_of_cons. right. rewrite Hg in Hdead. by eapply Hdead.
Qed.

Lemma lookup_foldl_delete (m : gmap nat (gset string)) l ws :
  foldl (λ m ws, delete ws m) m l !! ws = if bool_decide (ws ∈ l) then None else m !! ws.
Proof.
  revert m. induction l as [|x l IH]; intros m; simpl; [done|].
  rewrite IH. destruct (decide (ws = x)) as [->|Hne].
  - rewrite lookup_delete_eq. rewrite (bool_decide_eq_true_2 (x ∈ x :: l)) by by left.
    by destruct (bool_decide _).
  - rewrite lookup_delete_ne by done.
    destruct (decide (ws ∈ l)) as [Hin|Hnin].
    + rewrite !bool_decide_eq_true_2; [done|by right|done].
    + rewrite !bool_decide_eq_false_2; [done| |done].
      intros [?|?]%elem_of_cons; done.
Qed.

(** X20.  [_push_updates] drops the sockets it cannot send to, and only those.
    It returns unless its task is cancelled, leaving prices and symbols as
    they were; the sockets registered afterwards were registered before,
    with the same subscriptions.  Where no send fails nothing is dropped;
    and a socket on which every send fails is dropped as soon as it is
    subscribed to a symbol that has a price. *)
Theorem push_updates_drops_dead_sockets s r s' :
  _push_updates s = (r, s') →
  (r = Ok tt ∨ r = Raise CancelledError) ∧
  tickers (globals s') = tickers (globals s) ∧
  symbols_cache (globals s') = symbols_cache (globals s) ∧
  (∀ ws subs, _subscriptions (globals s') !! ws = Some subs →
              _subscriptions (globals s) !! ws = Some subs) ∧
  ((∀ k ws m, answer k (WS_SEND ws m) ≠ Unreachable) →
   _subscriptions (globals s') = _subscriptions (globals s)) ∧
  (∀ ws subs sym,
     r = Ok tt →
     _subscriptions (globals s) !! ws = Some subs →
     sym ∈ subs → is_Some (tickers (globals s) !! sym) →
     (∀ k m, answer k (WS_SEND ws m) = Unreachable) →
     _subscriptions (globals s') !! ws = None).
Proof.
  unfold _push_updates. rewrite run_bind. simpl. rewrite run_bind.
  destruct (push_each _ [] s) as [[l|e] s1] eqn:Hp;
    apply push_each_run in Hp as (Hg & Hn & Hp).
  - destruct Hp as (failed & -> & Hsub & Hnone & Hdead). simpl in *.
    rewrite run_bind. simpl. intros [= <- <-]. simpl. rewrite Hg.
    split; [auto|]. split; [done|]. split; [done|].
    split; [|split].
    + intros ws subs. rewrite lookup_foldl_delete. by destruct (bool_decide _).
    + intros Hw. by rewrite (Hnone Hw).
    + intros ws subs sym _ Hs Hsym Hprice Hw. rewrite lookup_foldl_delete.
      rewrite bool_decide_eq_true_2; [done|].
      apply (Hdead ws subs); [by apply elem_of_map_to_list|done|].
      apply Exists_exists. exists sym. split; [by apply elem_of_elements|done].
  - subst e. intros [= <- <-]. rewrite Hg.
    split; [auto|]. split; [done|]. split; [done|].
    split; [done|]. split; [done|]. by intros ws subs sym [=].
Qed.

End PushUpdates.

Section PollOnce.
Context {W : World}.
Import Broadcaster.

Lemma parse_items_symbols items : ∀ new_tickers symbols parsed,
  parse_items items new_tickers symbols = Ok parsed →
  (∀ k, k ∈ symbols ↔ is_Some (new_tickers !! k)) →
  ∀ k, k ∈ parsed.2 ↔ is_Some (parsed.1 !! k).
Proof.
  induction items as [|item items IH]; intros new_tickers symbols parsed; simpl.
  - by intros [= <-].
  - destruct (py_get "market" item) as [m|e]; [|done]. simpl.
    destruct (py_get "last_price" item) as [lp|e]; [|done]. simpl.
    destruct (truthy m && _); [|apply IH].
    destruct (py_upper m) as [sym|e]; [|done]. simpl.
    destruct (price_val_of lp) as [price_val|e]; [|done]. simpl.
    intros H Hinv. eapply IH; [exact H|].
    intros k. rewrite elem_of_app, list_elem_of_singleton, Hinv.
    destruct (decide (k = sym)) as [->|Hne].
    + rewrite lookup_insert_eq. split; [by eexists|by right].
    + rewrite lookup_insert_ne by done. split; [by intros [|]|by left].
Qed.

(** X21.  A cycle of [PriceBroadcaster] replaces the prices as a whole or not
    at all.  After [poll_once], either prices and symbols are what they
    were (the request failed, or the answer was not a list of dicts, or
    some last price was not a number: a single bad item discards the whole
    answer), or they are exactly what the answer yields, the list of
    symbols naming the symbols that have a price.  The cycle raises nothing
    but the cancellation of its task. *)
Theorem poll_once_replaces_all_or_nothing s r s' :
  poll_once s = (r, s') →
  (r = Ok tt ∨ r = Raise CancelledError) ∧
  ((tickers (globals s') = tickers (globals s)
    ∧ symbols_cache (globals s') = symbols_cache (globals s))
   ∨ (∃ status text data items,
        answer (length (net_log s)) (GET (COINDCX_PUBLIC_URL +:+ "/exchange/ticker") [] None)
        = Reply status text (Some data) ∧
        is_success status = true ∧
        py_iter data = Ok items ∧
        parse_items items ∅ [] = Ok (tickers (globals s'), symbols_cache (globals s')) ∧
        ∀ k, k ∈ symbols_cache (globals s') ↔ is_Some (tickers (globals s') !! k))).
Proof.
  unfold poll_once, try_except, httpx_get_json.
  rewrite !run_bind. unfold perform at 1. simpl.
  set (s0 := Rt (globals s) (now s) _).
  destruct (answer _ _) as [| |status text [data|]] eqn:Ha; simpl.
  - intros [= <- <-]. auto.
  - intros [= <- <-]. auto.
  - destruct (is_success status) eqn:Hok; simpl; [|intros [= <- <-]; auto].
    rewrite run_bind. unfold lift at 1.
    destruct (py_iter data) as [items|e] eqn:Hit; simpl.
    2: { destruct e; simpl; intros [= <- <-]; auto. }
    rewrite run_bind. unfold lift at 1.
    destruct (parse_items items ∅ []) as [parsed|e] eqn:Hparse; simpl.
    2: { destruct e; simpl; intros [= <- <-]; auto. }
    rewrite run_bind. simpl. rewrite run_bind. simpl.
    set (s1 := Rt (set_tickers _ _ _) _ _).
    destruct (_push_updates s1) as [r1 s2] eqn:Hpush.
    assert ((r1 = Ok tt ∨ r1 = Raise CancelledError)
            ∧ tickers (globals s2) = parsed.1 ∧ symbols_cache (globals s2) = parsed.2)
      as (Hr1 & Ht & Hsy).
    { revert Hpush. unfold _push_updates. rewrite run_bind. simpl. rewrite run_bind.
      destruct (push_each _ [] s1) as [[l|e] s1'] eqn:Hp;
        apply push_each_run in Hp as (Hg & Hn & Hp).
      - rewrite run_bind. simpl. intros [= <- <-]. simpl. rewrite Hg. auto.
      - subst e. intros [= <- <-]. rewrite Hg. auto. }
    intros H.
    assert (s' = s2 ∧ (r = Ok tt ∨ r = Raise CancelledError)) as [-> Hr].
    { destruct Hr1 as [-> | ->]; simpl in H; injection H as <- <-; auto. }
    split; [done|]. right. exists status, text, data, items.
    split; [done|]. split; [done|]. split; [done|].
    rewrite Ht, Hsy. split; [by destruct parsed|].
    eapply parse_items_symbols; [exact Hparse|].
    intros k. rewrite lookup_empty. split; [by intros ?%elem_of_nil|by intros []].
  - destruct (is_success status); simpl; intros [= <- <-]; auto.
Qed.

End PollOnce.

(** ** The routes of the persisted orders *)

Section OrderRoutesFacts.
Import UserOrders OrderRoutes.

Lemma query_order_other db order_id user o :
  db !! order_id = Some o → user_id o ≠ User_id user →
  query_order db order_id user = None.
Proof.
  intros Ho Hne. unfold query_order. rewrite Ho.
  by destruct (Z.eqb_spec (user_id o) (User_id user)).
Qed.

Lemma get_order_run order_id user st :
  get_order order_id user st =
    match query_order (globals st) order_id user with
    | Some o => (Ok o, st)
    | None => (Raise (HTTPException 404 "Order not found"), st)
    end.
Proof.
  unfold get_order. rewrite run_bind. simpl.
  by destruct (query_order _ _ _).
Qed.

(** X22.  The orders of another user are out of reach.  Reading, updating and
    deleting an order that belongs to somebody else are answered like an
    order that does not exist, with 404 "Order not found", whatever its
    status, and leave the table as it was; and clearing one's own queue
    never removes or changes it. *)
Theorem orders_of_other_users_are_out_of_reach order_id u user st o :
  globals st !! order_id = Some o →
  user_id o ≠ User_id user →
  get_order order_id user st = (Raise (HTTPException 404 "Order not found"), st) ∧
  update_order order_id u user st = (Raise (HTTPException 404 "Order not found"), st) ∧
  delete_order order_id user st = (Raise (HTTPException 404 "Order not found"), st) ∧
  ∀ r st', clear_queue user st = (r, st') → globals st' !! order_id = Some o.
Proof.
  intros Ho Hne. pose proof (query_order_other _ _ _ _ Ho Hne) as Hq.
  split; [by rewrite get_order_run, Hq|].
  split; [by apply update_order_not_found|].
  split.
  - unfold delete_order. rewrite run_bind. simpl. by rewrite Hq.
  - intros r st'. unfold clear_queue. rewrite run_bind. simpl. rewrite run_bind. simpl.
    intros [= _ <-]. simpl. apply map_lookup_filter_Some. split; [done|]. simpl.
    unfold queued_of. by destruct (Z.eqb_spec (user_id o) (User_id user)).
Qed.

(** X23.  [clear_queue] deletes the caller's queued orders and nothing else.  It
    always succeeds; afterwards the table holds exactly the rows that were
    not queued orders of the caller, unchanged, and the count it reports is
    the number of rows that are gone. *)
Theorem clear_queue_deletes_own_queued_orders user st :
  ∃ message deleted_count st',
    clear_queue user st = (Ok (message, deleted_count), st') ∧
    message = "Cleared " +:+ pretty deleted_count +:+ " queued orders" ∧
    (∀ k o, globals st' !! k = Some o
            ↔ globals st !! k = Some o ∧ queued_of user o = false) ∧
    Z.of_nat (size (globals st)) = deleted_count + Z.of_nat (size (globals st')) ∧
    now st' = now st ∧ net_log st' = net_log st.
Proof.
  unfold clear_queue. rewrite run_bind. simpl. rewrite run_bind. simpl.
  eexists _, _, _. split; [reflexivity|]. simpl. split; [done|]. split; [|split; [|done]].
  - intros k o. by rewrite map_lookup_filter_Some.
  - set (P := λ kv : Z * Order, queued_of user kv.2 = true).
    rewrite <- (map_filter_union_complement P (globals st)) at 1.
    rewrite map_size_disj_union by apply map_disjoint_filter_complement.
    rewrite Nat2Z.inj_add. f_equal. f_equal. f_equal.
    apply map_filter_ext. intros k o _. unfold P. simpl.
    by destruct (queued_of user o).
Qed.

Section WithDatabase.
Variable next_key : table → Z.
Hypothesis next_key_fresh : ∀ db, db !! next_key db = None.

Lemma insert_row_run order_data user utcnow db :
  insert_row next_key order_data user utcnow db
  = Ok (<[next_key db := new_row (next_key db) order_data user utcnow]> db,
        new_row (next_key db) order_data user utcnow).
Proof. unfold insert_row. by rewrite next_key_fresh. Qed.

(** X24.  [create_order] checks the leverage and queues the order.  A leverage
    above the caller's maximum is answered with a 400 and stores nothing.
    Otherwise the table gets one new row, under a key that was free, and
    every other row is as before: the row belongs to the caller, is QUEUED,
    has the symbol upper-cased and the other fields as requested, was
    created now and has no execution data; reading it back by its id gives
    the same row. *)
Theorem create_order_checks_leverage_and_queues order_data user st :
  if max_leverage user <? OrderCreate.leverage order_data then
    ∃ detail,
      create_order next_key order_data user st = (Raise (HTTPException 400 detail), st)
  else
    ∃ row,
      create_order next_key order_data user st
      = (Ok row, stores st (<[id row := row]> (globals st))) ∧
      globals st !! id row = None ∧
      row = new_row (id row) order_data user (now st) ∧
      user_id row = User_id user ∧ status row = QUEUED ∧
      symbol row = upper (OrderCreate.symbol order_data) ∧
      quantity row = OrderCreate.quantity order_data ∧
      leverage row = OrderCreate.leverage order_data ∧
      created_at row = now st ∧ executed_at row = None ∧
      get_order (id row) user (stores st (<[id row := row]> (globals st)))
      = (Ok row, stores st (<[id row := row]> (globals st))).
Proof.
  unfold create_order. destruct (max_leverage user <? _); [by eexists|].
  rewrite run_bind. simpl. rewrite run_bind. simpl. rewrite run_bind. unfold lift.
  rewrite insert_row_run. simpl. rewrite run_bind. simpl.
  exists (new_row (next_key (globals st)) order_data user (now st)).
  split; [reflexivity|]. simpl. split; [apply next_key_fresh|].
  repeat (split; [done|]).
  rewrite get_order_run. unfold query_order, stores. simpl.
  rewrite lookup_insert_eq. simpl. by rewrite Z.eqb_refl.
Qed.

Lemma check_bulk_rejects orders user :
  forallb (λ o, negb (max_leverage user <? OrderCreate.leverage o)) orders = false →
  ∃ detail, check_bulk orders user = Raise (HTTPException 400 detail).
Proof.
  induction orders as [|o orders IH]; simpl; [done|].
  destruct (max_leverage user <? OrderCreate.leverage o); simpl; [by eexists|].
  exact IH.
Qed.

Lemma check_bulk_accepts orders user :
  forallb (λ o, negb (max_leverage user <? OrderCreate.leverage o)) orders = true →
  check_bulk orders user = Ok tt.
Proof.
  induction orders as [|o orders IH]; simpl; [done|].
  destruct (max_leverage user <? OrderCreate.leverage o); simpl; [done|].
  exact IH.
Qed.

Lemma insert_rows_run orders user utcnow : ∀ db created,
  ∃ db' rows,
    insert_rows next_key orders user utcnow db created = Ok (db', created ++ rows) ∧
    Forall2 (λ row o, row = new_row (id row) o user utcnow) rows orders ∧
    NoDup (id <$> rows) ∧
    (∀ row, row ∈ rows → db !! id row = None ∧ db' !! id row = Some row) ∧
    (∀ k, k ∉ (id <$> rows) → db' !! k = db !! k).
Proof.
  induction orders as [|o orders IH]; intros db created; simpl.
  - exists db, []. rewrite app_nil_r. split; [done|]. split; [constructor|].
    split; [constructor|]. split; [|done].
    intros r Hr. by apply elem_of_nil in Hr.
  - rewrite insert_row_run. simpl.
    set (pk := next_key db). set (row := new_row pk o user utcnow).
    destruct (IH (<[pk := row]> db) (created ++ [row])) as (db' & rows & -> & Hf & Hnd & Hin & Hout).
    assert (pk ∉ (id <$> rows)) as Hpk.
    { intros [r [Hr Hrin]]%list_elem_of_fmap. destruct (Hin r Hrin) as [Hnone _].
      rewrite <- Hr, lookup_insert_eq in Hnone. done. }
    exists db', (row :: rows). split; [by rewrite <- app_assoc|].
    split; [by constructor|]. split; [by constructor|]. split.
    + intros r [->|Hr]%elem_of_cons.
      * split; [apply next_key_fresh|]. rewrite Hout by done. apply lookup_insert_eq.
      * destruct (Hin r Hr) as [Hnone Hsome]. split; [|done].
        destruct (decide (id r = pk)) as [Heq|Hne].
        -- rewrite Heq, lookup_insert_eq in Hnone. done.
        -- by rewrite lookup_insert_ne in Hnone.
    + intros k Hk. apply not_elem_of_cons in Hk as [Hne Hk].
      rewrite Hout by done. by rewrite lookup_insert_ne.
Qed.

(** X25.  [create_bulk_orders] stores all the orders or none.  If the leverage of
    any order of the request exceeds the caller's maximum, the answer is a
    400 and the table is as it was, also for the orders that come before
    the offending one.  Otherwise each order gets a row of its own, under a
    key that was free, queued for the caller, in the order of the request,
    and the other rows are untouched. *)
Theorem create_bulk_orders_stores_all_or_none orders user st :
  if forallb (λ o, negb (max_leverage user <? OrderCreate.leverage o)) orders then
    ∃ rows st',
      create_bulk_orders next_key orders user st = (Ok rows, st') ∧
      Forall2 (λ row o, row = new_row (id row) o user (now st)) rows orders ∧
      NoDup (id <$> rows) ∧
      (∀ row, row ∈ rows →
              globals st !! id row = None ∧ globals st' !! id row = Some row) ∧
      (∀ k, k ∉ (id <$> rows) → globals st' !! k = globals st !! k)
  else
    ∃ detail,
      create_bulk_orders next_key orders user st = (Raise (HTTPException 400 detail), st).
Proof.
  unfold create_bulk_orders. rewrite run_bind. unfold lift at 1.
  destruct (forallb _ orders) eqn:Hall.
  - rewrite (check_bulk_accepts _ _ Hall).
    rewrite run_bind. simpl. rewrite run_bind. simpl. rewrite run_bind. unfold lift.
    destruct (insert_rows_run orders user (now st) (globals st) [])
      as (db' & rows & -> & Hf & Hnd & Hin & Hout).
    simpl. rewrite run_bind. simpl. by eexists rows, _.
  - destruct (check_bulk_rejects _ _ Hall) as [detail ->]. by eexists.
Qed.

End WithDatabase.

(** X26.  What [update_order] and [delete_order] store is what [get_order] reads.
    After an update that succeeded, reading the order gives the row the
    update returned; after a delete that succeeded, reading, updating or
    deleting the order is answered with 404.  In both cases every other row
    is as before. *)
Theorem get_order_reads_back order_id u user st :
  (∀ o' st', update_order order_id u user st = (Ok o', st') →
     get_order order_id user st' = (Ok o', st') ∧
     ∀ k, k ≠ order_id → globals st' !! k = globals st !! k) ∧
  (∀ r st', delete_order order_id user st = (Ok r, st') →
     get_order order_id user st' = (Raise (HTTPException 404 "Order not found"), st') ∧
     update_order order_id u user st' = (Raise (HTTPException 404 "Order not found"), st') ∧
     delete_order order_id user st' = (Raise (HTTPException 404 "Order not found"), st') ∧
     ∀ k, k ≠ order_id → globals st' !! k = globals st !! k).
Proof.
  split.
  - intros o' st'.
    destruct (query_order (globals st) order_id user) as [o|] eqn:Hq;
      [|by rewrite update_order_not_found].
    destruct (is_QUEUED (status o)) eqn:Hs;
      [|by rewrite (update_order_not_queued _ _ _ _ _ Hq Hs)].
    rewrite (update_order_queued _ _ _ _ _ Hq Hs).
    destruct (leverage_allowed u user); [|done].
    intros [= <- <-]. unfold stores. simpl. split.
    + rewrite get_order_run. unfold query_order. simpl. rewrite lookup_insert_eq. simpl.
      unfold query_order in Hq. destruct (globals st !! order_id) as [o0|]; [|done].
      destruct (Z.eqb_spec (user_id o0) (User_id user)) as [He|]; [|done].
      injection Hq as <-. by rewrite (proj2 (Z.eqb_eq _ _) He).
    + intros k Hne. by rewrite lookup_insert_ne.
  - intros r st'. unfold delete_order at 1. rewrite run_bind. simpl.
    destruct (query_order (globals st) order_id user) as [o|] eqn:Hq; [|done].
    destruct (negb _); [done|].
    rewrite run_bind. simpl. intros [= _ <-].
    assert (query_order (delete order_id (globals st)) order_id user = None) as Hnone.
    { unfold query_order. by rewrite lookup_delete_eq. }
    split; [by rewrite get_order_run; simpl; rewrite Hnone|].
    split; [by apply update_order_not_found|].
    split.
    + unfold delete_order. rewrite run_bind. simpl. by rewrite Hnone.
    + intros k Hne. simpl. by rewrite lookup_delete_ne.
Qed.

End OrderRoutesFacts.

(** ** The price of an order; the loop of [PriceBroadcaster] *)

Section Payload.
Context {W : World}.
Import Trading.

Lemma order_head_fields ref s h s1 o :
  order_head ref s = (Ok h, s1) →
  _orders (globals s) !! ref = Some o →
  opt_or (limit_price (data o)) (_ticker_cache (globals s) !! upper (symbol (data o)))
  = Some (L.price h) ∧
  q_is_zero (L.price h) = false ∧
  L.symbol h = upper (symbol (data o)) ∧
  L.pair h = "B-" +:+ replace "USD" "" (replace "INR" "" (replace "USDT" "" (L.symbol h)))
             +:+ "_USDT" ∧
  L.side h = (if String.eqb (side (data o)) "BUY" then "buy" else "sell") ∧
  L.api_order_type h
  = (if String.eqb (order_type (data o)) "limit" then "limit_order" else "market_order") ∧
  L.leverage h = (if leverage (data o) =? 0 then 1 else leverage (data o)) ∧
  L.timestamp_ms h = py_int (now s * 1000).
Proof.
  unfold order_head. rewrite run_bind. simpl. intros H Ho. rewrite Ho in H.
  destruct (opt_or _ _) as [price|]; [|done].
  destruct (q_is_zero price) eqn:Hz; [done|].
  rewrite !run_bind in H. simpl in H. by injection H as <- _.
Qed.

(** X27.  An order without a price is refused before anything happens.  If the
    queued order has no limit price (or a limit price of 0) and the ticker
    cache has no price (or the price 0) for its upper-cased symbol,
    [place_order_on_coindcx] raises HTTP 400 "No price available for ..."
    and leaves everything as it was: no client order id is recorded and
    nothing is requested. *)
Theorem order_without_price_is_refused ref s o :
  _orders (globals s) !! ref = Some o →
  not_a_price (limit_price (data o)) = true →
  not_a_price (_ticker_cache (globals s) !! upper (symbol (data o))) = true →
  place_order_on_coindcx ref s
  = (Raise (HTTPException 400 ("No price available for " +:+ upper (symbol (data o)))), s).
Proof.
  intros Ho Hl Hc. unfold place_order_on_coindcx, gather, order_head.
  rewrite !run_bind. simpl. rewrite Ho.
  assert (match opt_or (limit_price (data o))
                  (_ticker_cache (globals s) !! upper (symbol (data o))) with
          | Some p => q_is_zero p = true
          | None => True
          end) as Hp.
  { unfold opt_or, not_a_price in *.
    destruct (limit_price (data o)) as [p|]; [rewrite Hl|];
      by destruct (_ticker_cache (globals s) !! upper (symbol (data o))). }
  destruct (opt_or _ _) as [p|]; [by rewrite Hp|done].
Qed.

(** X28.  What is submitted is read off the queued order.  In the payload of a
    submitted order the pair is "B-" and "_USDT" around the upper-cased
    symbol without USDT, INR and USD; the side is "buy" for BUY and "sell"
    for anything else; the order type is "limit_order" for limit and
    "market_order" for anything else; the leverage is the order's own
    (1 for 0), whatever the instrument allows; the margin currency is INR.
    The price is the order's limit price whenever it has one that is not 0,
    also for a market order, and otherwise the price the ticker cache held
    for the symbol when the call began. *)
Theorem submitted_payload_reflects_order ref s payload status text s' :
  place_order_on_coindcx ref s = (Ok (Sent payload status text), s') →
  ∃ o price,
    let sym := upper (symbol (data o)) in
    let order := payload_order payload in
    _orders (globals s) !! ref = Some o ∧
    dict_get "pair" order
    = JStr ("B-" +:+ replace "USD" "" (replace "INR" "" (replace "USDT" "" sym)) +:+ "_USDT") ∧
    dict_get "side" order
    = JStr (if String.eqb (side (data o)) "BUY" then "buy" else "sell") ∧
    dict_get "order_type" order
    = JStr (if String.eqb (order_type (data o)) "limit"
            then "limit_order" else "market_order") ∧
    dict_get "leverage" order
    = JNum (inject_Z (if leverage (data o) =? 0 then 1 else leverage (data o))) ∧
    dict_get "margin_currency_short_name" order = JStr "INR" ∧
    dict_get "price" order = JNum price ∧
    q_is_zero price = false ∧
    (if not_a_price (limit_price (data o))
     then _ticker_cache (globals s) !! sym = Some price
     else limit_price (data o) = Some price).
Proof.
  intros H. apply place_order_sent in H as (i & s1 & tq & Hg & _ & ->).
  apply gather_run in Hg.
  destruct (order_head ref s) as [[h|e] s0] eqn:Hh; [|by destruct Hg].
  destruct Hg as [_ Hhd]. specialize (Hhd i eq_refl).
  pose proof Hh as Hh'.
  apply order_head_run in Hh' as (_ & _ & _ & Hccy & o & Ho & _).
  destruct (order_head_fields _ _ _ _ _ Hh Ho)
    as (Hprice & Hz & Hsym & Hpair & Hside & Htype & Hlev & _).
  exists o, (L.price h). cbv zeta. rewrite Hhd.
  unfold payload_order, order_payload.
  change (dict_get "order" _) with
    (JObj [("pair", JStr (L.pair h)); ("side", JStr (L.side h));
           ("order_type", JStr (L.api_order_type h)); ("price", JNum (L.price h));
           ("total_quantity", JNum tq); ("leverage", JNum (inject_Z (L.leverage h)));
           ("time_in_force", JStr "good_till_cancel");
           ("margin_currency_short_name", JStr (L.margin_ccy h));
           ("client_order_id", JStr (L.client_order_id h))]).
  split; [done|].
  split; [change (dict_get "pair" _) with (JStr (L.pair h)); by rewrite Hpair, Hsym|].
  split; [change (dict_get "side" _) with (JStr (L.side h)); by rewrite Hside|].
  split; [change (dict_get "order_type" _) with (JStr (L.api_order_type h)); by rewrite Htype|].
  split; [change (dict_get "leverage" _) with (JNum (inject_Z (L.leverage h))); by rewrite Hlev|].
  split; [change (dict_get "margin_currency_short_name" _) with (JStr (L.margin_ccy h));
          by rewrite Hccy|].
  split; [done|]. split; [done|].
  revert Hprice. unfold opt_or, not_a_price.
  destruct (limit_price (data o)) as [p|]; [|done].
  destruct (q_is_zero p); [done|]. done.
Qed.

End Payload.

Section PollLoop.
Context {W : World}.
Import Broadcaster.

Lemma poll_once_now s r s' : poll_once s = (r, s') → now s' = now s.
Proof.
  unfold poll_once, try_except, httpx_get_json.
  rewrite !run_bind. unfold perform at 1. simpl.
  destruct (answer _ _) as [| |status text [data|]]; simpl; try by intros [= <- <-].
  2: { destruct (is_success status); simpl; by intros [= <- <-]. }
  destruct (is_success status); simpl; [|by intros [= <- <-]].
  rewrite run_bind. unfold lift at 1.
  destruct (py_iter data) as [items|e]; simpl.
  2: { destruct e; simpl; by intros [= <- <-]. }
  rewrite run_bind. unfold lift at 1.
  destruct (parse_items items ∅ []) as [parsed|e]; simpl.
  2: { destruct e; simpl; by intros [= <- <-]. }
  rewrite run_bind. simpl. rewrite run_bind. simpl.
  set (s1 := Rt _ _ _).
  destruct (_push_updates s1) as [r1 s2] eqn:Hpush.
  assert (now s2 = now s) as Hn.
  { revert Hpush. unfold _push_updates. rewrite run_bind. simpl. rewrite run_bind.
    destruct (push_each _ [] s1) as [[l|e] s1'] eqn:Hp;
      apply push_each_run in Hp as (_ & Hn & _).
    - rewrite run_bind. simpl. by intros [= <- <-].
    - by intros [= <- <-]. }
  destruct r1 as [[]|e]; simpl; [by intros [= <- <-]|].
  destruct e; simpl; by intros [= <- <-].
Qed.

(** X29.  The loop of [PriceBroadcaster] outlives the failures of its cycles.
    Observed for [n] cycles in any world, [_poll_loop] is still looping, the
    clock having advanced by [n] poll intervals, or it has returned (it was
    stopped, or cancelled in its sleep), or its task was cancelled during a
    request; no other exception ever leaves it, whatever the exchange
    answers and whichever sends fail. *)
Theorem poll_loop_outlives_failures n s r s' :
  _poll_loop n s = (r, s') →
  (r = Ok Looping ∧ (now s' == now s + inject_Z (Z.of_nat n) * POLL_INTERVAL)%Q)
  ∨ r = Ok Returned
  ∨ r = Raise CancelledError.
Proof.
  revert s. induction n as [|n IH]; intros s.
  - simpl. intros [= <- <-]. left. split; [done|]. simpl. ring.
  - cbn [_poll_loop]. rewrite run_bind. simpl.
    destruct (_running (globals s)); [|intros [= <- <-]; auto].
    rewrite run_bind.
    destruct (poll_once s) as [[[]|e] s1] eqn:Hp.
    + apply poll_once_now in Hp as Hn1.
      rewrite run_bind. unfold try_cancelled at 1. rewrite run_bind.
      unfold sleep, perform.
      destruct (answer _ _); simpl.
      * intros H. apply IH in H as [[-> Hn]|H]; [|by right]. left. split; [done|].
        rewrite Hn. simpl. rewrite Hn1.
        rewrite Nat2Z.inj_succ, <- Z.add_1_r, inject_Z_plus.
        change (inject_Z 1) with 1%Q. ring.
      * intros [= <- <-]. auto.
      * intros H. apply IH in H as [[-> Hn]|H]; [|by right]. left. split; [done|].
        rewrite Hn. simpl. rewrite Hn1.
        rewrite Nat2Z.inj_succ, <- Z.add_1_r, inject_Z_plus.
        change (inject_Z 1) with 1%Q. ring.
    + intros [= <- <-]. unfold poll_once in Hp.
      eapply try_except_swallows in Hp; [|done]. subst e. auto.
Qed.

End PollLoop.

(** ** The further properties at concrete inputs *)

Import Trading Endpoints.

(** Order 1 of the example queue is edited; there is no order 7. *)
Lemma update_order_replaces_fields_only_witness :
  update_order 7 Cases.edited_order Scenario.example_queue
  = (Raise (HTTPException 404 "Order not found"), Scenario.example_queue) ∧
  ∃ updated s',
    update_order 1 Cases.edited_order Scenario.example_queue = (Ok updated, s') ∧
    data updated = Cases.edited_order ∧ id updated = 1.
Proof.
  split.
  - apply (proj1 (update_order_replaces_fields_only 7 Cases.edited_order
                    Scenario.example_queue)).
    intros Hin. apply (bool_decide_pack _) in Hin. vm_compute in Hin. exact Hin.
  - destruct (proj2 (update_order_replaces_fields_only 1 Cases.edited_order
                       Scenario.example_queue))
      as (idx & existing & updated & s' & Hrun & _ & _ & _ & Hd & Hi & _).
    + apply (bool_decide_unpack _). vm_compute. exact I.
    + exists updated, s'. split; [exact Hrun|]. split; [exact Hd | exact Hi].
Defined.

(** The queue of a freshly started program, after a first order. *)
Lemma queue_ids_stay_unique_witness :
  unique_ids
    (globals (add_order (Scenario.market_order "BTCUSDT" 10000 10) Scenario.boot).2).
Proof.
  destruct (queue_ids_stay_unique (W:=Scenario.offline) Scenario.boot) as (Hadd & _).
  - split; constructor.
  - eapply Hadd. apply surjective_pairing.
Defined.

(** A cache with one symbol is listed as it is. *)
Lemma list_securities_lists_cache_witness :
  ∃ symbols count,
    list_securities (W:=Scenario.offline) "USD" Scenario.stale_cache
    = (Ok (symbols, count), Scenario.stale_cache) ∧
    count = length symbols ∧ NoDup symbols.
Proof.
  eexists _, _. split; [vm_compute; reflexivity|].
  destruct (list_securities_lists_cache (W:=Scenario.offline) "USD" Scenario.stale_cache
              ["BTCUSDT"] 1%nat Scenario.stale_cache)
    as (Hc & _ & _ & Hnd & _).
  - vm_compute. reflexivity.
  - split; [exact Hc | exact Hnd].
Defined.

(** The wallets fetched at start answer a balance request 20 seconds
    later. *)
Lemma get_futures_wallets_feeds_balance_witness :
  ∃ data s' reply,
    get_futures_wallets (W:=Cases.only_wallets 5000) Scenario.boot = (Ok data, s') ∧
    get_futures_balance (W:=Cases.only_wallets 5000) "inr"
      (Rt (globals s') (now s' + 20) (net_log s'))
    = (Ok reply, Rt (globals s') (now s' + 20) (net_log s')) ∧
    balance reply = 5000%Q.
Proof.
  destruct (get_futures_wallets_feeds_balance (W:=Cases.only_wallets 5000) Scenario.boot)
    as [_ Hok]; [reflexivity|].
  eexists _, _, _. split; [vm_compute; reflexivity|].
  edestruct Hok as [_ Hb]; [vm_compute; reflexivity|].
  split.
  - rewrite (Hb "inr" 20%Q); [vm_compute; reflexivity|discriminate|].
    split; discriminate.
  - reflexivity.
Defined.

(** A session that ends with the client going away. *)
Lemma ws_price_endpoint_cleans_up_witness :
  ∃ s',
    ws_price_endpoint 3 Cases.session_frames Scenario.subscribed = (Ok Returned, s') ∧
    (3%nat ∉ WS_CONNECTIONS (globals s')) ∧
    WS_SUBSCRIPTIONS (globals s') !! 1%nat = Some {[ "BTCUSDT" ]}.
Proof.
  eexists. split; [vm_compute; reflexivity|].
  edestruct (ws_price_endpoint_cleans_up 3 Cases.session_frames Scenario.subscribed)
    as (_ & _ & Hclean & _ & Hothers).
  - vm_compute. reflexivity.
  - split; [apply Hclean; discriminate|].
    destruct (Hothers 1%nat) as [_ ->]; [discriminate|]. reflexivity.
Defined.


(** The example order is submitted once. *)
Lemma place_order_submits_at_most_once_witness :
  ∃ payload s',
    place_order_on_coindcx (W:=Scenario.exchange 5000 ["B-BTC_USDT"] Scenario.btc_instrument)
      0 Scenario.example_queue = (Ok (Sent payload 200 "accepted"), s') ∧
    order_posts (net_log s') = [payload].
Proof.
  eexists _, _. split; [vm_compute; reflexivity|].
  apply (place_order_submits_at_most_once
           (W:=Scenario.exchange 5000 ["B-BTC_USDT"] Scenario.btc_instrument)
           0 Scenario.example_queue (Ok (Sent _ 200 "accepted"))).
  vm_compute. reflexivity.
Defined.

(** The example order where no credentials are configured. *)
Lemma place_order_without_credentials_witness :
  ∃ s1,
    place_order_on_coindcx (W:=Scenario.offline) 0 Scenario.example_queue
    = (Ok no_inr_futures_wallet, s1) ∧
    net_log s1 = [].
Proof.
  eexists. eapply (place_order_without_credentials (W:=Scenario.offline)
                     0 Scenario.example_queue).
  - reflexivity.
  - reflexivity.
  - vm_compute. reflexivity.
Defined.

(** Nothing cached and nothing reachable: the set is empty. *)
Lemma get_active_instruments_serves_stale_witness :
  get_active_instruments (W:=Scenario.offline) "inr" Scenario.boot
  = (Ok ∅, Rt initial_store 0 [instruments_request "inr"]).
Proof.
  apply (proj1 (proj2 (get_active_instruments_serves_stale (W:=Scenario.offline)
                         "inr" Scenario.boot))).
  - vm_compute. reflexivity.
  - reflexivity.
Defined.

(** The example order when only the wallets endpoint answers. *)
Lemma order_rejected_without_active_instruments_witness :
  ∃ h s2,
    place_order_on_coindcx (W:=Cases.only_wallets 5000) 0 Scenario.example_queue
    = (Ok (instrument_not_active (L.pair h) (L.symbol h) "INR" []),
       Rt (globals s2) (now s2) (instruments_request "INR" :: net_log s2)) ∧
    L.pair h = "B-BTC_USDT" ∧ order_posts (net_log s2) = [].
Proof.
  eexists _, _. split.
  - eapply (order_rejected_without_active_instruments (W:=Cases.only_wallets 5000)
              0 Scenario.example_queue).
    + vm_compute. reflexivity.
    + vm_compute. reflexivity.
    + vm_compute. reflexivity.
    + vm_compute. reflexivity.
  - split; vm_compute; reflexivity.
Defined.

(** The example order when the instrument details do not answer. *)
Lemma missing_instrument_details_default_to_one_witness :
  ∃ i s',
    gather (W:=Cases.without_details 5000 ["B-BTC_USDT"]) 0 Scenario.example_queue
    = (Ok (inr i), s') ∧
    L.inst i = default_instrument.
Proof.
  eexists _, _. split; [vm_compute; reflexivity|].
  eapply (missing_instrument_details_default_to_one
            (W:=Cases.without_details 5000 ["B-BTC_USDT"]) 0 Scenario.example_queue).
  - vm_compute. reflexivity.
  - vm_compute. reflexivity.
Defined.

(** The example order, placed at time 1000 for the local id 1. *)
Lemma submitted_order_is_tagged_witness :
  ∃ payload s',
    place_order_on_coindcx (W:=Scenario.exchange 5000 ["B-BTC_USDT"] Scenario.btc_instrument)
      0 Scenario.example_queue = (Ok (Sent payload 200 "accepted"), s') ∧
    payload_client_order_id payload = Some "1-1000000" ∧
    last_client_order_id <$> _orders (globals s') = [Some "1-1000000"].
Proof.
  eexists _, _. split; [vm_compute; reflexivity|].
  edestruct (submitted_order_is_tagged
               (W:=Scenario.exchange 5000 ["B-BTC_USDT"] Scenario.btc_instrument)
               0 Scenario.example_queue) as (o & Ho & Hp & Hq).
  { vm_compute. reflexivity. }
  vm_compute in Ho. injection Ho as <-.
  split; [rewrite Hp; vm_compute; reflexivity|].
  rewrite Hq. vm_compute. reflexivity.
Defined.


(** Two cycles with a subscriber whose socket takes every send. *)
Lemma ticker_background_loop_ends_by_cancel_or_failed_send_witness :
  ∃ s',
    ticker_background_loop (W:=Scenario.feeding Scenario.btc_feed false) 2
      Scenario.subscribed = (Ok Looping, s') ∧
    (now s' == 1020)%Q.
Proof.
  eexists. split; [vm_compute; reflexivity|].
  edestruct (ticker_background_loop_ends_by_cancel_or_failed_send
               (W:=Scenario.feeding Scenario.btc_feed false) 2 Scenario.subscribed)
    as [[[_ Hn]|[H|H]] _].
  - vm_compute. reflexivity.
  - rewrite Hn. reflexivity.
  - discriminate H.
  - discriminate H.
Defined.

(** A first refresh from a feed with a lower-case market. *)
Lemma refresh_keeps_symbols_upper_case_witness :
  upper_keys
    (_ticker_cache
       (globals (refresh_ticker_cache
                   (W:=Scenario.feeding
                         (JArr [JObj [("market", JStr "ethusdt"); ("last_price", JNum 2000)]])
                         false)
                   Scenario.boot).2)).
Proof.
  eapply (refresh_keeps_symbols_upper_case
            (W:=Scenario.feeding
                  (JArr [JObj [("market", JStr "ethusdt"); ("last_price", JNum 2000)]]) false)
            Scenario.boot).
  - intros k [v Hk]. simpl in Hk. rewrite lookup_empty in Hk. discriminate.
  - apply surjective_pairing.
Defined.

(** With nothing reachable a price is made up for btcusdt, and served
    again one second later to a request in another letter case. *)
Lemma get_price_serves_what_it_returned_witness :
  ∃ q s' q',
    ExchangeSvc.get_price (W:=Scenario.offline) "btcusdt" Scenario.service = (Ok q, s') ∧
    ExchangeSvc.get_price (W:=Scenario.offline) " BTCUSDT "
      (Rt (globals s') (now s' + 1) (net_log s'))
    = (Ok q', Rt (globals s') (now s' + 1) (net_log s')) ∧
    ExchangeSvc.quote_price q' = ExchangeSvc.quote_price q.
Proof.
  eexists _, _, _.
  edestruct (get_price_serves_what_it_returned (W:=Scenario.offline) "btcusdt"
               Scenario.service) as (ent & Hc & _ & _ & Hlater).
  { discriminate. }
  { vm_compute. reflexivity. }
  vm_compute in Hc. injection Hc as <-.
  split; [vm_compute; reflexivity|]. split.
  - apply (Hlater " BTCUSDT " _); [discriminate|vm_compute; reflexivity|].
    vm_compute. discriminate.
  - reflexivity.
Defined.

(** The made-up price for btcusdt at time 1000.5 is 60000. *)
Lemma fallback_price_within_five_percent_witness :
  ∃ q s',
    ExchangeSvc.get_price (W:=Scenario.offline) "btcusdt" Scenario.service = (Ok q, s') ∧
    ExchangeSvc.quote_source q = "fallback" ∧
    (57000 <= ExchangeSvc.quote_price q <= 63000)%Q.
Proof.
  edestruct (fallback_price_within_five_percent (W:=Scenario.offline) "btcusdt"
               Scenario.service) as (q & s' & Hq & Hs & Hb & _).
  - discriminate.
  - vm_compute. exact I.
  - vm_compute. reflexivity.
  - vm_compute. reflexivity.
  - exists q, s'. split; [exact Hq|]. split; [exact Hs|].
    destruct Hb as [H1 H2]. split.
    + apply (Qle_trans _ ((95 # 100) * 60000)); [vm_compute; discriminate | exact H1].
    + apply (Qle_trans _ ((105 # 100) * 60000)); [exact H2 | vm_compute; discriminate].
Defined.

(** Socket 1 of the running broadcaster adds a symbol and drops it. *)
Lemma registry_subscriptions_round_trip_witness :
  Broadcaster._subscriptions
    (Registry.unsubscribe 1 "ETHUSDT"
       (Registry.subscribe 1 "ethusdt" (globals Scenario.broadcaster))) !! 1%nat
  = Some (({[ "BTCUSDT" ]} : gset string) ∖ {[ "ETHUSDT" ]}).
Proof.
  apply (proj1 (proj2 (registry_subscriptions_round_trip 1 "ethusdt"
                         (globals Scenario.broadcaster))) "ETHUSDT").
  reflexivity.
Defined.

(** The subscriber of the running broadcaster has gone. *)
Lemma push_updates_drops_dead_sockets_witness :
  ∃ s',
    Broadcaster._push_updates (W:=Scenario.feeding Scenario.btc_feed true)
      Scenario.broadcaster = (Ok tt, s') ∧
    Broadcaster._subscriptions (globals s') !! 1%nat = None.
Proof.
  eexists. split; [vm_compute; reflexivity|].
  edestruct (push_updates_drops_dead_sockets (W:=Scenario.feeding Scenario.btc_feed true)
               Scenario.broadcaster) as (_ & _ & _ & _ & _ & Hdead).
  { vm_compute. reflexivity. }
  apply (Hdead 1%nat {[ "BTCUSDT" ]} "BTCUSDT").
  - reflexivity.
  - vm_compute. reflexivity.
  - apply (bool_decide_unpack _). vm_compute. exact I.
  - vm_compute. eauto.
  - intros k m. reflexivity.
Defined.

(** A cycle of the running broadcaster on the one-instrument feed. *)
Lemma poll_once_replaces_all_or_nothing_witness :
  ∃ s',
    Broadcaster.poll_once (W:=Scenario.feeding Scenario.btc_feed false)
      Scenario.broadcaster = (Ok tt, s') ∧
    (Broadcaster.tickers (globals s') = Broadcaster.tickers (globals Scenario.broadcaster)
     ∨ ∀ k, k ∈ Broadcaster.symbols_cache (globals s')
            ↔ is_Some (Broadcaster.tickers (globals s') !! k)).
Proof.
  eexists. split; [vm_compute; reflexivity|].
  edestruct (poll_once_replaces_all_or_nothing (W:=Scenario.feeding Scenario.btc_feed false)
               Scenario.broadcaster) as [_ [[H _]|(status & text & data & items & _ & _ & _ & _ & H)]].
  - vm_compute. reflexivity.
  - left. exact H.
  - right. exact H.
Defined.

Lemma next_rowid_fresh db : db !! Cases.next_rowid db = None.
Proof.
  unfold Cases.next_rowid.
  assert (∀ k o, db !! k = Some o → k ≤ map_fold (λ k _ acc, Z.max k acc) 0 db) as Hmax.
  { apply (map_fold_weak_ind (λ acc (m : UserOrders.table), ∀ k o, m !! k = Some o → k ≤ acc)).
    - intros k o. by rewrite lookup_empty.
    - intros i x m r Hi IH k o. destruct (decide (k = i)) as [->|Hne].
      + intros _. lia.
      + rewrite lookup_insert_ne by done. intros H%IH. lia. }
  destruct (db !! (1 + _)) as [o|] eqn:Ho; [|done].
  apply Hmax in Ho. lia.
Qed.

(** Bob asks for the order of Alice. *)
Lemma orders_of_other_users_are_out_of_reach_witness :
  OrderRoutes.get_order 1 Cases.bob (Scenario.Db.session UserOrders.QUEUED)
  = (Raise (HTTPException 404 "Order not found"), Scenario.Db.session UserOrders.QUEUED) ∧
  UserOrders.delete_order 1 Cases.bob (Scenario.Db.session UserOrders.QUEUED)
  = (Raise (HTTPException 404 "Order not found"), Scenario.Db.session UserOrders.QUEUED).
Proof.
  destruct (orders_of_other_users_are_out_of_reach 1 (Scenario.Db.full_update 5) Cases.bob
              (Scenario.Db.session UserOrders.QUEUED) (Scenario.Db.row UserOrders.QUEUED))
    as (Hget & _ & Hdel & _).
  - reflexivity.
  - discriminate.
  - split; [exact Hget | exact Hdel].
Defined.

(** Alice, whose maximum is 20, asks for leverage 50 and for leverage 10. *)
Lemma create_order_checks_leverage_and_queues_witness :
  (∃ detail,
     OrderRoutes.create_order Cases.next_rowid (Cases.new_order_request 50) Scenario.Db.alice
       (Scenario.Db.session UserOrders.QUEUED)
     = (Raise (HTTPException 400 detail), Scenario.Db.session UserOrders.QUEUED)) ∧
  ∃ row s',
    OrderRoutes.create_order Cases.next_rowid (Cases.new_order_request 10) Scenario.Db.alice
      (Scenario.Db.session UserOrders.QUEUED) = (Ok row, s') ∧
    UserOrders.id row = 2 ∧ UserOrders.symbol row = "ETHUSDT"
    ∧ UserOrders.status row = UserOrders.QUEUED.
Proof.
  split.
  - apply (create_order_checks_leverage_and_queues Cases.next_rowid next_rowid_fresh
             (Cases.new_order_request 50) Scenario.Db.alice (Scenario.Db.session UserOrders.QUEUED)).
  - destruct (create_order_checks_leverage_and_queues Cases.next_rowid next_rowid_fresh
                (Cases.new_order_request 10) Scenario.Db.alice (Scenario.Db.session UserOrders.QUEUED))
      as (row & Hrun & _ & Hrow & _ & Hst & Hsym & _).
    eexists row, _. split; [exact Hrun|].
    split; [|split; [exact Hsym | exact Hst]].
    revert Hrun. vm_compute. intros [= Hr _]. rewrite <- Hr. reflexivity.
Defined.

(** A bulk request whose second order asks for too much leverage. *)
Lemma create_bulk_orders_stores_all_or_none_witness :
  ∃ detail,
    OrderRoutes.create_bulk_orders Cases.next_rowid
      [Cases.new_order_request 10; Cases.new_order_request 50] Scenario.Db.alice
      (Scenario.Db.session UserOrders.QUEUED)
    = (Raise (HTTPException 400 detail), Scenario.Db.session UserOrders.QUEUED).
Proof.
  apply (create_bulk_orders_stores_all_or_none Cases.next_rowid next_rowid_fresh
           [Cases.new_order_request 10; Cases.new_order_request 50] Scenario.Db.alice
           (Scenario.Db.session UserOrders.QUEUED)).
Defined.

(** Alice deletes her queued order and asks for it again. *)
Lemma get_order_reads_back_witness :
  ∃ r st',
    UserOrders.delete_order 1 Scenario.Db.alice (Scenario.Db.session UserOrders.QUEUED) = (Ok r, st') ∧
    OrderRoutes.get_order 1 Scenario.Db.alice st' = (Raise (HTTPException 404 "Order not found"), st').
Proof.
  eexists _, _. split; [vm_compute; reflexivity|].
  apply (proj2 (get_order_reads_back 1 (Scenario.Db.full_update 5) Scenario.Db.alice
                  (Scenario.Db.session UserOrders.QUEUED))
           ("Order deleted successfully", 1)).
  vm_compute. reflexivity.
Defined.

(** The second order of the mixed queue asks for XYZUSDT, which has no price
    in the ticker cache. *)
Lemma order_without_price_is_refused_witness :
  place_order_on_coindcx (W:=Scenario.offline) 1 Scenario.mixed_queue
  = (Raise (HTTPException 400 "No price available for XYZUSDT"), Scenario.mixed_queue).
Proof.
  apply (order_without_price_is_refused (W:=Scenario.offline) 1 Scenario.mixed_queue
           (new_order (Scenario.market_order "XYZUSDT" 10000 10) 2)).
  - reflexivity.
  - reflexivity.
  - vm_compute. reflexivity.
Defined.

(** A market order for BTCUSDT without a limit price goes out at the cached
    60000. *)
Lemma submitted_payload_reflects_order_witness :
  ∃ payload s',
    place_order_on_coindcx (W:=Scenario.exchange 5000 ["B-BTC_USDT"] Scenario.btc_instrument)
      0 Scenario.example_queue = (Ok (Sent payload 200 "accepted"), s') ∧
    dict_get "pair" (payload_order payload) = JStr "B-BTC_USDT" ∧
    dict_get "side" (payload_order payload) = JStr "buy" ∧
    dict_get "order_type" (payload_order payload) = JStr "market_order" ∧
    dict_get "leverage" (payload_order payload) = JNum 10 ∧
    dict_get "price" (payload_order payload) = JNum 60000.
Proof.
  eexists _, _. split; [vm_compute; reflexivity|].
  edestruct (submitted_payload_reflects_order
               (W:=Scenario.exchange 5000 ["B-BTC_USDT"] Scenario.btc_instrument)
               0 Scenario.example_queue)
    as (o & price & Ho & Hpair & Hside & Htype & Hlev & _ & Hprice & _ & Hp).
  { vm_compute. reflexivity. }
  vm_compute in Ho. injection Ho as <-.
  vm_compute in Hp. injection Hp as <-.
  repeat split; vm_compute; reflexivity.
Defined.

(** Two cycles against sockets that are all closed: the loop is still
    looping, four seconds later. *)
Lemma poll_loop_outlives_failures_witness :
  ∃ s',
    Broadcaster._poll_loop (W:=Scenario.feeding Scenario.btc_feed true) 2
      Scenario.broadcaster = (Ok Broadcaster.Looping, s') ∧
    (now s' == 1004)%Q.
Proof.
  eexists. split; [vm_compute; reflexivity|].
  destruct (poll_loop_outlives_failures (W:=Scenario.feeding Scenario.btc_feed true)
              2 Scenario.broadcaster _ _ (surjective_pairing _))
    as [[_ H]|[H|H]].
  - vm_compute. reflexivity.
  - vm_compute in H. discriminate H.
  - vm_compute in H. discriminate H.
Defined.
